(** * Review scraper: scrape orchestrator, classification engine, routing engine

    A shallow embedding of three Go packages of the review-scraper
    repository and the properties their specification states about them:

    - [scraper]  (internal/scraper/scraper.go): [Manager.ScrapeAll];
    - [analyzer] (internal/analyzer/analyzer.go): [Analyzer.Analyze] and
      the local strategy [analyzeLocal];
    - [router]   (internal/router/router.go): [Router.Route],
      [AddDepartment], [UpdateMapping].

    Part III goes on with the rest of these packages and with what calls
    them and what they call: the manager [NewManager] builds and the
    Twitter filter, the statistics, the pipeline driver
    (cmd/review-scraper/main.go) and the manual trigger of the API server,
    the G2 client, and the notifier (internal/notifier).

    Conventions.
    - A Go [string] is a sequence of bytes: Rocq's [string].
    - A Go [float64] is an IEEE 754 binary64 number: the Standard Library's
      [spec_float] with [prec = 53] and [emax = 1024]; every operation
      rounds to nearest even as the hardware does.
    - A Go [map] is a [gmap]; a map used as a set is a [gset].  The order in
      which [range] visits a map is not specified by Go: it is an argument of
      the functions that iterate ([RangeOrder]).
    - A Go [error] is a message with the chain of errors it wraps.
    - Mutexes protect the maps.  Where a method holds its lock from
      beginning to end (the router, the recent reviews, the notifier's
      cache) a call is one step.  [Analyzer.Analyze] takes its lock twice,
      to read the cache and later to write it, and runs its strategy in
      between with no lock held: what calls made by other goroutines store
      between the read and the write is part of what a call meets
      ([meanwhile]). *)

From Stdlib Require Import ZArith String Ascii List Bool Lia DecimalString.
From Stdlib Require Import Floats.SpecFloat.
From stdpp Require Import base gmap strings list.

Local Open Scope string_scope.
Local Open Scope Z_scope.

(* ================================================================== *)
(** * Part I: definitions                                              *)
(* ================================================================== *)

(** ** float64 *)

Module float64.

Definition prec : Z := 53.
Definition emax : Z := 1024.

Abbreviation t := spec_float.

Definition add : t -> t -> t := SFadd prec emax.
Definition sub : t -> t -> t := SFsub prec emax.
Definition mul : t -> t -> t := SFmul prec emax.
Definition div : t -> t -> t := SFdiv prec emax.

(** [x < y], [x <= y], [x > y], [x >= y] of Go; all false on NaN. *)
Definition ltb : t -> t -> bool := SFltb.
Definition leb : t -> t -> bool := SFleb.
Definition gtb (x y : t) : bool := SFltb y x.
Definition geb (x y : t) : bool := SFleb y x.

(** The conversion [float64(n)] of an integer. *)
Definition of_int (n : Z) : t := binary_normalize prec emax n 0 false.

(** A decimal constant [n/d] of the source text: the binary64 number
    nearest to the exact quotient, which is what a correctly rounded
    division of the two integers gives. *)
Definition decimal (n d : Z) : t := div (of_int n) (of_int d).

(** The zero value of a [float64] variable. *)
Definition zero : t := S754_zero false.

Definition c0_3 : t := Eval vm_compute in decimal 3 10.
Definition c0_4 : t := Eval vm_compute in decimal 4 10.
Definition c0_5 : t := Eval vm_compute in decimal 5 10.
Definition c0_6 : t := Eval vm_compute in decimal 6 10.
Definition c1_0 : t := Eval vm_compute in of_int 1.
Definition c1_2 : t := Eval vm_compute in decimal 12 10.
Definition c2_0 : t := Eval vm_compute in of_int 2.
Definition c3_0 : t := Eval vm_compute in of_int 3.
Definition c10_0 : t := Eval vm_compute in of_int 10.
Definition cm1_0 : t := Eval vm_compute in of_int (-1).

Definition is_nan (x : t) : bool :=
  match x with S754_nan => true | _ => false end.

(** [x] is a zero, a finite number or an infinity of sign [s]. *)
Definition signed (s : bool) (x : t) : Prop :=
  match x with
  | S754_zero s' | S754_infinity s' | S754_finite s' _ _ => s' = s
  | S754_nan => False
  end.

End float64.

(** ** Go strings (package strings, fmt, regexp) *)

(** What the Go runtime computes from its Unicode tables.  Neither
    function is reached on text made of ASCII bytes only. *)
Class GoUnicode := {
  (** [strings.Map(unicode.ToLower, s)]: the path [strings.ToLower] takes
      when [s] holds a byte [>= 0x80]. *)
  mapToLower : string -> string;
  (** [explode(s, -1)]: [s] cut into its UTF-8 sequences, the path
      [strings.Split] takes for an empty separator. *)
  explode : string -> list string
}.

Module gostrings.

Definition byte_of (c : ascii) : Z := Z.of_nat (nat_of_ascii c).

Fixpoint bytes (s : string) : list ascii :=
  match s with
  | EmptyString => []
  | String c s' => c :: bytes s'
  end.

Fixpoint mapBytes (f : ascii -> ascii) (s : string) : string :=
  match s with
  | EmptyString => EmptyString
  | String c s' => String (f c) (mapBytes f s')
  end.

Definition len (s : string) : Z := Z.of_nat (String.length s).

Fixpoint drop (n : nat) (s : string) : string :=
  match n, s with
  | O, _ => s
  | S n', String _ s' => drop n' s'
  | S _, EmptyString => EmptyString
  end.

Fixpoint take (n : nat) (s : string) : string :=
  match n, s with
  | O, _ => EmptyString
  | S n', String c s' => String c (take n' s')
  | S _, EmptyString => EmptyString
  end.

(** [strings.HasPrefix(s, prefix)]. *)
Definition HasPrefix (s prefix : string) : bool := String.prefix prefix s.

(** [strings.Index(s, substr)] as an option: the least [i] with
    [s[i:]] starting with [substr]. *)
Fixpoint indexOf (s substr : string) : option nat :=
  if HasPrefix s substr then Some O
  else match s with
       | EmptyString => None
       | String _ s' => S <$> indexOf s' substr
       end.

(** [strings.Index(s, substr)]: [-1] when [substr] does not occur. *)
Definition Index (s substr : string) : Z :=
  match indexOf s substr with
  | Some i => Z.of_nat i
  | None => -1
  end.

(** [strings.Contains(s, substr)] is [Index(s, substr) >= 0]. *)
Definition Contains (s substr : string) : bool := 0 <=? Index s substr.

(** The loop of [strings.Count] for a non-empty [substr]:
    find, count, continue after the match.  [fuel] bounds the number of
    iterations; [String.length s] is enough since every iteration
    consumes at least one byte. *)
Fixpoint countLoop (fuel : nat) (s substr : string) : Z :=
  match fuel with
  | O => 0
  | S fuel' =>
      match indexOf s substr with
      | None => 0
      | Some i => 1 + countLoop fuel' (drop (i + String.length substr) s) substr
      end
  end.

(** [strings.Count(s, substr)] for a non-empty [substr] (the only use
    here: counting ["!"]). *)
Definition Count (s substr : string) : Z :=
  countLoop (String.length s) s substr.

(** The loop of [genSplit(s, sep, 0, -1)] for a non-empty [sep]: cut at
    each match of [sep], left to right; the last piece is the rest. *)
Fixpoint genSplit (fuel : nat) (s sep : string) : list string :=
  match fuel with
  | O => [s]
  | S fuel' =>
      match indexOf s sep with
      | None => [s]
      | Some m => take m s :: genSplit fuel' (drop (m + String.length sep) s) sep
      end
  end.

(** [strings.Split(s, sep)]. *)
Definition Split `{GoUnicode} (s sep : string) : list string :=
  match sep with
  | EmptyString => explode s
  | _ => genSplit (String.length s) s sep
  end.

Definition isUpper (c : ascii) : bool :=
  (byte_of "A"%char <=? byte_of c) && (byte_of c <=? byte_of "Z"%char).

(** [c += 'a' - 'A'] for an upper-case ASCII letter. *)
Definition lowerByte (c : ascii) : ascii :=
  if isUpper c then ascii_of_nat (nat_of_ascii c + 32) else c.

(** [c >= utf8.RuneSelf] for no byte of [s]. *)
Definition isASCII (s : string) : bool :=
  forallb (fun c => byte_of c <? 128) (bytes s).

(** [strings.ToLower(s)]: bytewise on ASCII text, through the Unicode
    tables otherwise. *)
Definition ToLower `{GoUnicode} (s : string) : string :=
  if isASCII s then mapBytes lowerByte s else mapToLower s.

Definition hexDigit (n : nat) : ascii :=
  match n with
  | 0%nat => "0" | 1%nat => "1" | 2%nat => "2" | 3%nat => "3"
  | 4%nat => "4" | 5%nat => "5" | 6%nat => "6" | 7%nat => "7"
  | 8%nat => "8" | 9%nat => "9" | 10%nat => "a" | 11%nat => "b"
  | 12%nat => "c" | 13%nat => "d" | 14%nat => "e" | _ => "f"
  end%char.

(** [fmt.Sprintf("%x", s)]: two lower-case hexadecimal digits per byte. *)
Fixpoint Sprintf_x (s : string) : string :=
  match s with
  | EmptyString => EmptyString
  | String c s' =>
      String (hexDigit (nat_of_ascii c / 16))
        (String (hexDigit (nat_of_ascii c mod 16)) (Sprintf_x s'))
  end.

(** [len(regexp.MustCompile(`[A-Z]{3,}`).FindAllString(s, -1))]: the
    matches are the maximal runs of upper-case ASCII letters of length
    three or more (the quantifier is greedy, matches do not overlap).
    [run] is the length of the run that ends just before [s]. *)
Fixpoint capsRuns (run : nat) (s : string) : Z :=
  match s with
  | EmptyString => if (3 <=? run)%nat then 1 else 0
  | String c s' =>
      if isUpper c then capsRuns (S run) s'
      else (if (3 <=? run)%nat then 1 else 0) + capsRuns O s'
  end.

Definition countCaps (s : string) : Z := capsRuns O s.

(** [sub] occurs in [s]. *)
Definition occursIn (sub s : string) : Prop :=
  exists pre post, s = pre +:+ sub +:+ post.

(** [strings.Join(elems, sep)]. *)
Fixpoint Join (elems : list string) (sep : string) : string :=
match elems with
| [] => ""
| [x] => x
| x :: rest => x +:+ sep +:+ Join rest sep
end.

(** The text after the first element of a joined list. *)
Definition joinTail (sep : string) (elems : list string) : string :=
  foldr (fun x rest => sep +:+ x +:+ rest) "" elems.

(** [fmt.Sprintf("%d", n)]. *)
Definition Sprintf_d (n : Z) : string := NilZero.string_of_int (Z.to_int n).

End gostrings.

(** ** Errors (packages errors and fmt) *)

(** A Go [error]: its message, and the error it wraps when it was built by
    [fmt.Errorf] with a [%w] verb. *)
Inductive error : Type :=
  | errorString (msg : string)
  | wrapError (msg : string) (err : error).

Module goerrors.

(** [err.Error()]. *)
Definition Error (e : error) : string :=
  match e with
  | errorString msg => msg
  | wrapError msg _ => msg
  end.

(** [errors.New(text)]. *)
Definition New (text : string) : error := errorString text.

(** [errors.Unwrap(err)]. *)
Definition Unwrap (e : error) : option error :=
  match e with
  | errorString _ => None
  | wrapError _ err => Some err
  end.

(** The errors [errors.Is] and [errors.As] visit from [e]: [e], what it
    wraps, and so on. *)
Fixpoint chain (e : error) : list error :=
match e with
| errorString _ => [e]
| wrapError _ err => e :: chain err
end.

End goerrors.

(** ** pkg/models *)

Module models.

(** [models.Review].  Times are instants on an integer clock; the
    metadata values, of type [interface{}] in the source, are kept as
    text. *)
Record Review := {
  ID : string;
  Source : string;
  SourceID : string;
  Content : string;
  Title : string;
  Author : string;
  Rating : option float64.t;
  URL : string;
  CreatedAt : Z;
  RetrievedAt : Z;
  Metadata : gmap string string
}.

(** [models.Entity]. *)
Record Entity := {
  Text : string;
  Type_ : string;
  Position : Z
}.

(** [models.AnalysisResult]. *)
Record AnalysisResult := {
  ReviewID : string;
  SentimentScore : float64.t;
  IsNegative : bool;
  IsRelevant : bool;
  IntentCategory : string;
  Confidence : float64.t;
  Keywords : list string;
  Entities : list Entity;
  CategoryScores : gmap string float64.t
}.

(** The zero value [models.AnalysisResult{}]. *)
Definition AnalysisResult_zero : AnalysisResult := {|
  ReviewID := "";
  SentimentScore := float64.zero;
  IsNegative := false;
  IsRelevant := false;
  IntentCategory := "";
  Confidence := float64.zero;
  Keywords := [];
  Entities := [];
  CategoryScores := ∅
|}.

(** [models.Department]. *)
Module Department.
Record t := {
  ID : string;
  Name : string;
  ContactInfo : string;
  Categories : list string
}.
End Department.

(** [models.Notification]. *)
Record Notification := {
  Notification_ID : string;
  Notification_Review : Review;
  Notification_Analysis : AnalysisResult;
  Notification_Department : Department.t;
  SentAt : Z;
  Status : string;
  ResponseInfo : string
}.

End models.

(** ** internal/config *)

Module config.

(** [config.AnalyzerConfig]. *)
Record AnalyzerConfig := {
  Mode : string;
  ModelEndpoint : string;
  APIKey : string;
  NegativeThreshold : float64.t;
  RelevanceThreshold : float64.t;
  Keywords : list string;
  IntentCategories : list string
}.

(** [config.DepartmentMapping]. *)
Record DepartmentMapping := {
  Category : string;
  Department : string;
  Priority : Z
}.

(** [config.RouterConfig]. *)
Record RouterConfig := {
  Mappings : list DepartmentMapping;
  DefaultDepartment : string
}.

(** [config.TwitterScraperConfig]. *)
Record TwitterScraperConfig := {
  Twitter_Enabled : bool;
  Twitter_APIKey : string;
  Twitter_APISecret : string;
  Twitter_AccessToken : string;
  Twitter_AccessSecret : string;
  Twitter_Keywords : list string;
  Twitter_ExcludeWords : list string;
  Twitter_MaxResults : Z
}.

(** [config.RedditScraperConfig]. *)
Record RedditScraperConfig := {
  Reddit_Enabled : bool;
  Reddit_ClientID : string;
  Reddit_ClientSecret : string;
  Reddit_Username : string;
  Reddit_Password : string;
  Reddit_Subreddits : list string;
  Reddit_Keywords : list string;
  Reddit_TimeFrame : string
}.

(** [config.AppStoreScraperConfig] and [config.GooglePlayScraperConfig]:
    the same four fields. *)
Record StoreScraperConfig := {
  Store_Enabled : bool;
  Store_AppIDs : list string;
  Store_Countries : list string;
  Store_MaxPages : Z
}.

(** [config.CustomSiteScraperConfig]. *)
Record CustomSiteScraperConfig := {
  Custom_Enabled : bool;
  Custom_Name : string;
  Custom_URL : string;
  Custom_ReviewURLs : list string;
  Custom_ReviewXPaths : list string;
  Custom_DateXPath : string;
  Custom_AuthorXPath : string;
  Custom_RatingXPath : string
}.

(** [config.ScrapersConfig], with the members [initializeScrapers]
    reads to decide which scrapers to build. *)
Record ScrapersConfig := {
  Twitter : TwitterScraperConfig;
  Reddit : RedditScraperConfig;
  AppStore : StoreScraperConfig;
  GooglePlay : StoreScraperConfig;
  CustomSites : list CustomSiteScraperConfig
}.

(** [config.EmailConfig]. *)
Record EmailConfig := {
  Email_Enabled : bool;
  SMTPServer : string;
  SMTPPort : Z;
  Username : string;
  Password : string;
  FromAddress : string;
  DeptAddresses : gmap string string
}.

(** [config.SlackConfig]. *)
Record SlackConfig := {
  Slack_Enabled : bool;
  WebhookURL : string;
  DeptChannels : gmap string string
}.

(** [config.NotifierConfig], with the members of [Dashboard] and
    [Databases] the notifier reads. *)
Record NotifierConfig := {
  Email : EmailConfig;
  Slack : SlackConfig;
  Dashboard_Enabled : bool;
  Databases_Enabled : bool
}.

End config.

(** ** internal/scraper: the orchestrator *)

Module scraper.

(** One adapter as [ScrapeAll] sees it during one run: the three methods
    of the [Scraper] interface, with [Scrape] given by what the call
    returned in this run (a slice and an error, either of which may be
    empty or nil). *)
Record Scraper := {
  Name : string;
  Scrape : list models.Review * option error;
  IsEnabled : bool
}.

(** [scraper.Manager]; its configuration is not read by [ScrapeAll]. *)
Record Manager := {
  scrapers : list Scraper
}.

(** The adapters for which the loop starts a goroutine. *)
Definition launched (m : Manager) : list Scraper :=
  filter (fun s => IsEnabled s = true) (scrapers m).

(** The accumulator shared by the goroutines: [results] and [errs]. *)
Definition Acc : Type := list models.Review * list error.

(** [fmt.Errorf("%s scraper error: %w", scraper.Name(), err)]. *)
Definition scraperError (s : Scraper) (err : error) : error :=
  wrapError (Name s +:+ " scraper error: " +:+ goerrors.Error err) err.

(** The critical section of one goroutine, run under [mu]. *)
Definition record (acc : Acc) (s : Scraper) : Acc :=
  let '(results, errs) := acc in
  let '(reviews, err) := Scrape s in
  match err with
  | Some e => (results, (errs ++ [scraperError s e])%list)
  | None => ((results ++ reviews)%list, errs)
  end.

(** The accumulator once [wg.Wait()] returns, the goroutines having
    taken the lock in the order [done]. *)
Definition join (done : list Scraper) : Acc :=
  foldl record ([], []) done.

(** The loop that merges [errs]: the first error as it is, each further
    one through [fmt.Errorf("%v; %w", combinedErr, err)]. *)
Definition combine (combinedErr : option error) (err : error) : option error :=
  match combinedErr with
  | None => Some err
  | Some c =>
      Some (wrapError (goerrors.Error c +:+ "; " +:+ goerrors.Error err) err)
  end.

(** What [ScrapeAll] returns from the final accumulator. *)
Definition finish (acc : Acc) : list models.Review * option error :=
  let '(results, errs) := acc in
  if (length results =? 0)%nat && (0 <? length errs)%nat
  then ([], foldl combine None errs)
  else (results, None).

(** [ScrapeAll] for one order [done] in which the goroutines took the
    lock. *)
Definition ScrapeAll_in (done : list Scraper) : list models.Review * option error :=
  finish (join done).

(** [m.ScrapeAll(ctx)] may return [out]: some order of the launched
    adapters produces it.  The scheduler picks the order. *)
Definition ScrapeAll (m : Manager) (out : list models.Review * option error) : Prop :=
  exists done, done ≡ₚ launched m /\ out = ScrapeAll_in done.

Definition succeeded (s : Scraper) : bool :=
  match snd (Scrape s) with None => true | Some _ => false end.

(** The reviews of the adapters of [l] that returned no error, in the
    order of [l]. *)
Definition successes (l : list Scraper) : list models.Review :=
  l ≫= (fun s => if succeeded s then fst (Scrape s) else []).

(** The errors of the adapters of [l] that failed, as the goroutines
    wrap them, in the order of [l]. *)
Definition failures (l : list Scraper) : list error :=
  omap (fun s => scraperError s <$> snd (Scrape s)) l.

(** *** The scrapers the manager builds *)

(** [m.GetScrapers()]. *)
Definition GetScrapers (m : Manager) : list Scraper :=
filter (fun s => IsEnabled s = true) (scrapers m).

(** A [stubScraper]: its [Scrape] returns [[]models.Review{}, nil]. *)
Definition stubScraper (name : string) (enabled : bool) : Scraper :=
{| Name := name; Scrape := ([], None); IsEnabled := enabled |}.

(** [NewRedditScraper(cfg, rates, proxies)]. *)
Definition NewRedditScraper (cfg : config.RedditScraperConfig) : Scraper :=
stubScraper "Reddit" (config.Reddit_Enabled cfg).

(** [NewAppStoreScraper(cfg, rates, proxies)]. *)
Definition NewAppStoreScraper (cfg : config.StoreScraperConfig) : Scraper :=
stubScraper "AppStore" (config.Store_Enabled cfg).

(** [NewGooglePlayScraper(cfg, rates, proxies)]. *)
Definition NewGooglePlayScraper (cfg : config.StoreScraperConfig) : Scraper :=
stubScraper "GooglePlay" (config.Store_Enabled cfg).

(** [NewCustomSiteScraper(cfg, rates, proxies)]. *)
Definition NewCustomSiteScraper (cfg : config.CustomSiteScraperConfig) : Scraper :=
stubScraper (config.Custom_Name cfg) (config.Custom_Enabled cfg).

(** [NewTwitterScraper(cfg, rates, proxies)] as one run sees it:
    [twitterRun] is what its [Scrape] returns in this run. *)
Definition NewTwitterScraper (cfg : config.TwitterScraperConfig)
  (twitterRun : list models.Review * option error) : Scraper :=
{| Name := "Twitter"; Scrape := twitterRun; IsEnabled := config.Twitter_Enabled cfg |}.

(** [m.initializeScrapers()]: the list it appends to [m.scrapers]. *)
Definition initializeScrapers (cfg : config.ScrapersConfig)
  (twitterRun : list models.Review * option error) : list Scraper :=
((if config.Twitter_Enabled (config.Twitter cfg)
  then [NewTwitterScraper (config.Twitter cfg) twitterRun] else []) ++
 (if config.Reddit_Enabled (config.Reddit cfg)
  then [NewRedditScraper (config.Reddit cfg)] else []) ++
 (if config.Store_Enabled (config.AppStore cfg)
  then [NewAppStoreScraper (config.AppStore cfg)] else []) ++
 (if config.Store_Enabled (config.GooglePlay cfg)
  then [NewGooglePlayScraper (config.GooglePlay cfg)] else []) ++
 (NewCustomSiteScraper <$>
    filter (fun c => config.Custom_Enabled c = true) (config.CustomSites cfg)))%list.

(** [NewManager(cfg)]. *)
Definition NewManager (cfg : config.ScrapersConfig)
  (twitterRun : list models.Review * option error) : Manager :=
{| scrapers := initializeScrapers cfg twitterRun |}.

(** *** The Twitter scraper: filtering *)

(** [scraper.Tweet]. *)
Record Tweet := {
  Tweet_ID : string;
  Tweet_Text : string;
  Tweet_CreatedAt : string;
  Tweet_ScreenName : string;
  Tweet_Hashtags : list string;
  Tweet_URLs : list string;
  Tweet_RetweetCount : Z;
  Tweet_FavoriteCount : Z;
  Tweet_QuotedStatusID : string;
  Tweet_InReplyToID : string;
  Tweet_InReplyToUserID : string
}.

(** The inner loop of [filterTweets]: some exclude word, lower-cased,
    occurs in the lower-cased text. *)
Definition excluded `{GoUnicode} (excludeWords : list string) (tweet : Tweet) : bool :=
let lowerText := gostrings.ToLower (Tweet_Text tweet) in
existsb (fun word => gostrings.Contains lowerText (gostrings.ToLower word)) excludeWords.

(** [s.filterTweets(tweets)]. *)
Definition filterTweets `{GoUnicode} (excludeWords : list string) (tweets : list Tweet)
  : list Tweet :=
if (length excludeWords =? 0)%nat then tweets
else foldl (fun filtered tweet =>
              if excluded excludeWords tweet then filtered
              else (filtered ++ [tweet])%list)
           [] tweets.

(** *** Definitions used to state the properties *)

(** An adapter that returns no review and no error. *)
Definition quiet (s : Scraper) : Prop := Scrape s = ([], None).

(** The stubs [initializeScrapers] appends after the Twitter scraper. *)
Definition stubs (cfg : config.ScrapersConfig) : list Scraper :=
  ((if config.Reddit_Enabled (config.Reddit cfg)
    then [NewRedditScraper (config.Reddit cfg)] else []) ++
   (if config.Store_Enabled (config.AppStore cfg)
    then [NewAppStoreScraper (config.AppStore cfg)] else []) ++
   (if config.Store_Enabled (config.GooglePlay cfg)
    then [NewGooglePlayScraper (config.GooglePlay cfg)] else []) ++
   (NewCustomSiteScraper <$>
      filter (fun c => config.Custom_Enabled c = true) (config.CustomSites cfg)))%list.

End scraper.

(** ** internal/analyzer: the classification engine *)

(** The order in which a [range] statement visits a map during one call.
    Go leaves it unspecified, so each function takes the key list (or the
    entry list) of the map to the sequence the loop walks through. *)
Record RangeOrder := {
  rangeKeywords : list string -> list string;
  rangeScores : list (string * float64.t) -> list (string * float64.t)
}.

(** A [range] visits every entry once. *)
Definition fairRange (ord : RangeOrder) : Prop :=
  (forall l, rangeKeywords ord l ≡ₚ l) /\ (forall l, rangeScores ord l ≡ₚ l).

Module analyzer.
Import models.

(** [analyzer.Analyzer]; the HTTP client is part of [Env] below. *)
Record Analyzer := {
  config : config.AnalyzerConfig;
  keywordMap : gset string;
  infobloxTerms : gmap string string;
  productKeywords : gmap string (list string);
  cache : gmap string AnalysisResult;
  categoryMap : gmap string string
}.

Definition defaultCategories : gmap string string :=
  list_to_map [
    ("bug", "bug_report"); ("crash", "bug_report"); ("error", "bug_report");
    ("broken", "bug_report"); ("freeze", "bug_report");
    ("slow", "performance"); ("laggy", "performance"); ("hang", "performance");
    ("feature", "feature_request"); ("missing", "feature_request");
    ("wish", "feature_request");
    ("delivery", "logistics"); ("shipping", "logistics");
    ("payment", "billing"); ("charge", "billing"); ("refund", "billing");
    ("support", "customer_service"); ("service", "customer_service");
    ("rude", "customer_service");
    ("interface", "ui_ux"); ("confusing", "ui_ux"); ("difficult", "ui_ux");
    ("dns", "network_services"); ("dhcp", "network_services");
    ("ipam", "network_services"); ("ddi", "network_services");
    ("nios", "nios_platform"); ("bloxone", "bloxone_platform");
    ("threat", "security"); ("secure", "security");
    ("protection", "security"); ("ddos", "security");
    ("cloud", "cloud_services");
    ("automation", "network_automation"); ("netmri", "network_automation")
  ].

Definition defaultInfobloxTerms : gmap string string :=
  list_to_map [
    ("ddi", "core_product"); ("dns", "core_product"); ("dhcp", "core_product");
    ("ipam", "core_product"); ("bloxone", "cloud_product");
    ("nios", "on_prem_product"); ("universal ddi", "core_product");
    ("threat defense", "security_product"); ("advanced dns", "security_product");
    ("grid", "infrastructure"); ("netmri", "automation");
    ("cloud network", "cloud_product"); ("ip address", "core_product");
    ("outbound dns", "security_product"); ("dns firewall", "security_product");
    ("lookup", "core_product"); ("zone", "core_product");
    ("record", "core_product"); ("domain", "core_product");
    ("bind", "core_product"); ("lease", "core_product");
    ("subnet", "core_product"); ("network", "core_product");
    ("vista", "company"); ("warburg", "company")
  ].

Definition defaultProductKeywords : gmap string (list string) :=
  list_to_map [
    ("bloxone", ["bloxone"; "cloud ddi"; "cloud-native"; "saas"; "branch"; "distributed"]);
    ("nios", ["nios"; "grid"; "on-premise"; "on-prem"; "appliance";
              "virtual appliance"; "vm"]);
    ("threat_defense", ["threat defense"; "security"; "protect"; "threat";
                        "malware"; "ransomware"; "exfiltration"; "dns security";
                        "secure dns"; "threat intelligence"]);
    ("dns", ["dns"; "domain"; "lookup"; "zone"; "record"; "cname"; "mx"; "soa";
             "ns"; "ptr"; "a record"; "aaaa"; "bind"; "recursive"; "resolver"]);
    ("dhcp", ["dhcp"; "lease"; "ip assignment"; "dynamic"; "scope";
              "ip address allocation"]);
    ("ipam", ["ipam"; "ip address management"; "subnet"; "allocation";
              "address space"; "network management"; "ip management"])
  ].

(** [analyzer.New(cfg)]. *)
Definition New `{GoUnicode} (cfg : config.AnalyzerConfig) : Analyzer := {|
  config := cfg;
  keywordMap := list_to_set (gostrings.ToLower <$> config.Keywords cfg);
  infobloxTerms := defaultInfobloxTerms;
  productKeywords := defaultProductKeywords;
  cache := ∅;
  categoryMap := defaultCategories
|}.

Definition positiveWords : list string := [
  "good"; "great"; "awesome"; "excellent"; "amazing"; "love"; "best"; "fantastic";
  "perfect"; "happy"; "pleased"; "satisfied"; "wonderful"; "helpful"; "thank";
  "thanks"; "reliable"; "secure"; "efficient"; "intuitive"
].

Definition negativeWords : list string := [
  "bad"; "poor"; "terrible"; "awful"; "horrible"; "worst"; "hate"; "disappointed";
  "frustrating"; "useless"; "broken"; "annoying"; "slow"; "expensive"; "waste";
  "difficult"; "confusing"; "crash"; "bug"; "error"; "problem"; "issue"; "fail";
  "fails"; "failed"; "failing"; "failure"; "cannot"; "can't"; "won't"; "doesn't";
  "didn't"; "insecure"; "vulnerability"; "breach"; "outage"; "downtime"
].

Definition infobloxProducts : list string := [
  "infoblox"; "bloxone"; "nios"; "ddi"; "dns firewall"; "threat defense";
  "netmri"; "ip address management"; "ipam"; "dhcp"; "advanced dns protection"
].

Definition productPatterns : list string := [
  "infoblox"; "bloxone"; "nios"; "ddi"; "dhcp"; "dns"; "ipam"; "netmri";
  "threat defense"; "dns firewall"; "cloud network automation"
].

Definition genericPatterns : list string := [
  "app"; "website"; "service"; "product"; "interface"; "platform"; "system"
].

(** [contains(slice, s)]. *)
Definition contains (slice : list string) (s : string) : bool :=
  existsb (fun item => String.eqb item s) slice.

(** [containsEntityWithText(entities, text)]. *)
Definition containsEntityWithText (entities : list Entity) (text : string) : bool :=
  existsb (fun entity => String.eqb (Text entity) text) entities.

(** [countOccurrences(text, word)]: [len(strings.Split(text, word)) - 1]. *)
Definition countOccurrences `{GoUnicode} (text word : string) : Z :=
  Z.of_nat (length (gostrings.Split text word)) - 1.

(** The two counting loops of [analyzeLocal]:
    [for _, word := range words { count += countOccurrences(content, word) }]. *)
Definition countWords `{GoUnicode} (content : string) (words : list string) : Z :=
  foldl (fun count word => count + countOccurrences content word) 0 words.

(** Lines 225-229: the lexical score from the two counts. *)
Definition lexicalScore (positiveCount negativeCount : Z) : float64.t :=
  let totalWords := positiveCount + negativeCount in
  if 0 <? totalWords
  then float64.div (float64.of_int (positiveCount - negativeCount))
                   (float64.of_int totalWords)
  else float64.zero.

(** Lines 231-251: stronger sentiment for exclamation marks and ALL CAPS,
    read on the review's content as written. *)
Definition amplify (raw : string) (sentimentScore : float64.t) : float64.t :=
  let exclamationCount := gostrings.Count raw "!" in
  let capsCount := gostrings.countCaps raw in
  if (2 <? exclamationCount) || (2 <? capsCount) then
    if float64.ltb sentimentScore float64.zero then
      let s := float64.mul sentimentScore float64.c1_2 in
      if float64.ltb s float64.cm1_0 then float64.cm1_0 else s
    else if float64.gtb sentimentScore float64.zero then
      let s := float64.mul sentimentScore float64.c1_2 in
      if float64.gtb s float64.c1_0 then float64.c1_0 else s
    else sentimentScore
  else sentimentScore.

(** The body of the loop over [infobloxProducts]: a product name found
    in [content] is appended unless [keywords] lists it already. *)
Definition addProduct (content : string) (keywords : list string) (product : string)
  : list string :=
  if gostrings.Contains content product && negb (contains keywords product)
  then (keywords ++ [product])%list
  else keywords.

(** Lines 253-271: the configured keywords found in [content], in the
    order the map is walked, then the product names found and not yet
    listed. *)
Definition findKeywords (a : Analyzer) (ord : RangeOrder) (content : string) : list string :=
  let keywords :=
    filter (fun keyword => gostrings.Contains content keyword = true)
           (rangeKeywords ord (elements (keywordMap a))) in
  foldl (addProduct content) keywords infobloxProducts.

(** [categoryScores[category]++]. *)
Definition increment (category : string) (categoryScores : gmap string float64.t)
  : gmap string float64.t :=
  <[category := float64.add (default float64.zero (categoryScores !! category))
                            float64.c1_0]> categoryScores.

(** Lines 273-279. *)
Definition scoreCategories (a : Analyzer) (keywords : list string) : gmap string float64.t :=
  foldl (fun categoryScores keyword =>
           match categoryMap a !! keyword with
           | Some category => increment category categoryScores
           | None => categoryScores
           end)
        ∅ keywords.

(** Lines 281-294: the first category met with the highest score, or
    the default one. *)
Definition chooseCategory (ord : RangeOrder) (categoryScores : gmap string float64.t) : string :=
  let top :=
    foldl (fun (top : string * float64.t) (entry : string * float64.t) =>
             if float64.gtb (snd entry) (snd top) then entry else top)
          ("", float64.zero)
          (rangeScores ord (map_to_list categoryScores)) in
  if String.eqb (fst top) "" then "general_complaint" else fst top.

Definition productEntity (pattern : string) (idx : Z) : Entity :=
  {| Text := pattern; Type_ := "PRODUCT"; Position := idx |}.

(** Lines 296-325. *)
Definition findEntities (content : string) : list Entity :=
  let entities :=
    foldl (fun entities pattern =>
             let idx := gostrings.Index content pattern in
             if 0 <=? idx then (entities ++ [productEntity pattern idx])%list
             else entities)
          [] productPatterns in
  foldl (fun entities pattern =>
           let idx := gostrings.Index content pattern in
           if (0 <=? idx) && negb (containsEntityWithText entities pattern)
           then (entities ++ [productEntity pattern idx])%list
           else entities)
        entities genericPatterns.

(** Lines 327-336: the confidence from [len(keywords)]. *)
Definition confidenceFor (n : Z) : float64.t :=
  if 0 <? n then
    let confidence := float64.div (float64.of_int n) float64.c10_0 in
    if float64.gtb confidence float64.c1_0 then float64.c1_0
    else if float64.ltb confidence float64.c0_3 then float64.c0_3
    else confidence
  else float64.c0_5.

(** Lines 338-346: the blend with the star rating. *)
Definition blendRating (rating : option float64.t) (sentimentScore : float64.t) : float64.t :=
  match rating with
  | Some r =>
      let ratingScore := float64.div (float64.sub r float64.c3_0) float64.c2_0 in
      float64.add (float64.mul sentimentScore float64.c0_6)
                  (float64.mul ratingScore float64.c0_4)
  | None => sentimentScore
  end.

(** The value of [sentimentScore] at line 229 of [analyzeLocal]. *)
Definition lexicalSentiment `{GoUnicode} (review : Review) : float64.t :=
  let content := gostrings.ToLower (Content review) in
  lexicalScore (countWords content positiveWords) (countWords content negativeWords).

(** [a.analyzeLocal(review)]; its error is always nil. *)
Definition analyzeLocal `{GoUnicode} (a : Analyzer) (ord : RangeOrder) (review : Review)
  : AnalysisResult * option error :=
  let content := gostrings.ToLower (Content review) in
  let positiveCount := countWords content positiveWords in
  let negativeCount := countWords content negativeWords in
  let sentimentScore := lexicalScore positiveCount negativeCount in
  let sentimentScore := amplify (Content review) sentimentScore in
  let keywords := findKeywords a ord content in
  let categoryScores := scoreCategories a keywords in
  let topCategory := chooseCategory ord categoryScores in
  let entities := findEntities content in
  let confidence := confidenceFor (Z.of_nat (length keywords)) in
  let sentimentScore := blendRating (Rating review) sentimentScore in
  ({| ReviewID := "";
      SentimentScore := sentimentScore;
      IsNegative := float64.ltb sentimentScore float64.zero;
      IsRelevant := (0 <? Z.of_nat (length keywords));
      IntentCategory := topCategory;
      Confidence := confidence;
      Keywords := keywords;
      Entities := entities;
      CategoryScores := categoryScores |}, None).

(** *** Strategies and [Analyze] *)

(** The strategies the [switch] of [Analyze] chooses from. *)
Inductive Strategy := OpenAI | Google | AWS | Azure | Local.

(** A call of [Analyze] made by another goroutine, which read the cache
    and missed earlier and takes the write lock now: the review it
    analyses, the order of its [range] loops and what its exchange with
    the remote endpoint gives. *)
Record Overlapping := {
  otherReview : Review;
  otherOrder : RangeOrder;
  otherExchange : Review -> AnalysisResult + error
}.

(** What one call of [Analyze] meets outside its goroutine: the order of
    its [range] loops; what the exchange with the remote endpoint gives
    (from marshalling the request to unmarshalling the reply): the parsed
    result, or the error of the step that failed; and the calls of other
    goroutines that take the write lock between this call's read of the
    cache (lines 149-154) and its own write (lines 187-189), in the order
    in which they take it. *)
Record Env := {
  order : RangeOrder;
  openaiExchange : Review -> AnalysisResult + error;
  meanwhile : list Overlapping
}.

(** What the strategy of an overlapping call meets. *)
Definition envOf (o : Overlapping) : Env :=
  {| order := otherOrder o; openaiExchange := otherExchange o; meanwhile := [] |}.

(** The [switch a.config.Mode]. *)
Definition selectStrategy (mode : string) : Strategy :=
  if String.eqb mode "openai" then OpenAI
  else if String.eqb mode "google" then Google
  else if String.eqb mode "aws" then AWS
  else if String.eqb mode "azure" then Azure
  else Local.

(** [a.analyzeWithOpenAI(ctx, review)]. *)
Definition analyzeWithOpenAI (a : Analyzer) (env : Env) (review : Review)
  : AnalysisResult * option error :=
  if String.eqb (config.APIKey (config a)) "" then
    (AnalysisResult_zero, Some (goerrors.New "OpenAI API key is not configured"))
  else
    match openaiExchange env review with
    | inl analysisResult => (analysisResult, None)
    | inr err => (AnalysisResult_zero, Some err)
    end.

(** [a.analyzeWithGoogle(ctx, review)]. *)
Definition analyzeWithGoogle : AnalysisResult * option error :=
  (AnalysisResult_zero, Some (goerrors.New "Google Cloud analysis not implemented")).

(** [a.analyzeWithAWS(ctx, review)]. *)
Definition analyzeWithAWS : AnalysisResult * option error :=
  (AnalysisResult_zero, Some (goerrors.New "AWS Comprehend analysis not implemented")).

(** [a.analyzeWithAzure(ctx, review)]. *)
Definition analyzeWithAzure : AnalysisResult * option error :=
  (AnalysisResult_zero, Some (goerrors.New "Azure Text Analytics analysis not implemented")).

(** The call the [switch] makes. *)
Definition runStrategy `{GoUnicode} (s : Strategy) (a : Analyzer) (env : Env) (review : Review)
  : AnalysisResult * option error :=
  match s with
  | OpenAI => analyzeWithOpenAI a env review
  | Google => analyzeWithGoogle
  | AWS => analyzeWithAWS
  | Azure => analyzeWithAzure
  | Local => analyzeLocal a (order env) review
  end.

(** Lines 179-184: the identifier and the two flags are set on the
    strategy's result. *)
Definition postProcess (cfg : config.AnalyzerConfig) (review : Review) (result : AnalysisResult)
  : AnalysisResult :=
  {| ReviewID := ID review;
     SentimentScore := SentimentScore result;
     IsNegative := float64.leb (SentimentScore result) (config.NegativeThreshold cfg);
     IsRelevant := float64.geb (Confidence result) (config.RelevanceThreshold cfg);
     IntentCategory := IntentCategory result;
     Confidence := Confidence result;
     Keywords := Keywords result;
     Entities := Entities result;
     CategoryScores := CategoryScores result |}.

Definition withCache (a : Analyzer) (c : gmap string AnalysisResult) : Analyzer :=
  {| config := config a;
     keywordMap := keywordMap a;
     infobloxTerms := infobloxTerms a;
     productKeywords := productKeywords a;
     cache := c;
     categoryMap := categoryMap a |}.

(** Lines 187-189, under [cacheMutex.Lock]: the write of the cache. *)
Definition store (a : Analyzer) (review : Review) (result : AnalysisResult) : Analyzer :=
  withCache a (<[gostrings.Sprintf_x (Content review) := result]> (cache a)).

(** What an overlapping call does from its strategy on (lines 156-189),
    having missed the cache: it stores its result unless its strategy
    returned an error.  The strategy and the post-processing read the
    configuration and the keyword and category maps, which nothing
    changes after [New]. *)
Definition overlapped `{GoUnicode} (a : Analyzer) (o : Overlapping) : Analyzer :=
  let '(result, err) :=
    runStrategy (selectStrategy (config.Mode (config a))) a (envOf o) (otherReview o) in
  match err with
  | Some _ => a
  | None => store a (otherReview o) (postProcess (config a) (otherReview o) result)
  end.

(** One call of [Analyze]: what it returns, the strategies it invoked
    (in order), and the analyzer as the call's last critical section
    leaves it. *)
Record Call := {
  returned : AnalysisResult * option error;
  invoked : list Strategy;
  after : Analyzer
}.

(** [a.Analyze(ctx, review)], [a] being the analyzer as the call reads
    it.  The read lock is released before the strategy runs: the write
    lock is taken on the analyzer as the overlapping calls have left it
    meanwhile. *)
Definition Analyze `{GoUnicode} (a : Analyzer) (env : Env) (review : Review) : Call :=
  let cacheKey := gostrings.Sprintf_x (Content review) in
  match cache a !! cacheKey with
  | Some cachedResult =>
      {| returned := (cachedResult, None); invoked := []; after := a |}
  | None =>
      let s := selectStrategy (config.Mode (config a)) in
      let '(result, err) := runStrategy s a env review in
      match err with
      | Some e =>
          {| returned := (AnalysisResult_zero, Some e); invoked := [s]; after := a |}
      | None =>
          let result := postProcess (config a) review result in
          {| returned := (result, None);
             invoked := [s];
             after := store (foldl overlapped a (meanwhile env)) review result |}
      end
  end.

(** The analyzers a program can hold: the one [New] builds, and any
    analyzer left by a call of [Analyze] on one of them, whatever calls
    overlapped it. *)
Inductive reachable `{GoUnicode} (cfg : config.AnalyzerConfig) : Analyzer -> Prop :=
  | reachable_New : reachable cfg (New cfg)
  | reachable_Analyze a env review :
      reachable cfg a -> reachable cfg (after (Analyze a env review)).

(** What happens to the shared analyzer between two calls one looks at:
    another call is made, with the calls that overlap it, or a call that
    had read the cache earlier writes its result. *)
Inductive Event :=
  | Called (env : Env) (review : Review)
  | Written (o : Overlapping).

Definition happen `{GoUnicode} (a : Analyzer) (ev : Event) : Analyzer :=
  match ev with
  | Called env review => after (Analyze a env review)
  | Written o => overlapped a o
  end.

(** A sequence of events, each on the analyzer as the previous one left
    it. *)
Definition AnalyzeEach `{GoUnicode} (a : Analyzer) (events : list Event) : Analyzer :=
  foldl happen a events.

(** *** Definitions used to state the properties *)

(** [review] with another title. *)
Definition withTitle (review : Review) (title : string) : Review :=
  {| ID := ID review; Source := Source review; SourceID := SourceID review;
     Content := Content review; Title := title; Author := Author review;
     Rating := Rating review; URL := URL review; CreatedAt := CreatedAt review;
     RetrievedAt := RetrievedAt review; Metadata := Metadata review |}.

(** [result] with other flags. *)
Definition withFlags (result : AnalysisResult) (isNegative isRelevant : bool)
  : AnalysisResult :=
  {| ReviewID := ReviewID result;
     SentimentScore := SentimentScore result;
     IsNegative := isNegative;
     IsRelevant := isRelevant;
     IntentCategory := IntentCategory result;
     Confidence := Confidence result;
     Keywords := Keywords result;
     Entities := Entities result;
     CategoryScores := CategoryScores result |}.

(** [analysis] with other category scores. *)
Definition withScores (analysis : AnalysisResult) (scores : gmap string float64.t)
  : AnalysisResult :=
  {| ReviewID := ReviewID analysis;
     SentimentScore := SentimentScore analysis;
     IsNegative := IsNegative analysis;
     IsRelevant := IsRelevant analysis;
     IntentCategory := IntentCategory analysis;
     Confidence := Confidence analysis;
     Keywords := Keywords analysis;
     Entities := Entities analysis;
     CategoryScores := scores |}.

(** The key under which [Analyze] caches the result for [review]. *)
Definition cacheKey (review : Review) : string :=
  gostrings.Sprintf_x (Content review).

(** The overlapping calls that write during an event. *)
Definition writers (ev : Event) : list Overlapping :=
  match ev with
  | Called env _ => meanwhile env
  | Written o => [o]
  end.

(** The flags are the two threshold tests. *)
Definition flagsAgree (cfg : config.AnalyzerConfig) (r : AnalysisResult) : Prop :=
  IsNegative r = float64.leb (SentimentScore r) (config.NegativeThreshold cfg) /\
  IsRelevant r = float64.geb (Confidence r) (config.RelevanceThreshold cfg).

(** The number of occurrences in [text] of the words of a list, each
    word counted by [strings.Count]: from the left, matches not
    overlapping. *)
Definition occurrences (text : string) (words : list string) : Z :=
  foldr (fun word total => gostrings.Count text word + total) 0 words.

(** The lexical score as the specification words it: over the
    lower-cased concatenation of title and content. *)
Definition lexicalSentiment_spec `{GoUnicode} (review : Review) : float64.t :=
  let text := gostrings.ToLower (Title review +:+ Content review) in
  lexicalScore (occurrences text positiveWords) (occurrences text negativeWords).

(** The entity [findEntities] records for [pattern], when it occurs. *)
Definition entityAt (content pattern : string) : option Entity :=
  let idx := gostrings.Index content pattern in
  if 0 <=? idx then Some (productEntity pattern idx) else None.

(** The message with which a configuration cannot classify: the three
    providers that are not implemented, and OpenAI without a key. *)
Definition unavailable (cfg : config.AnalyzerConfig) (msg : string) : Prop :=
  (config.Mode cfg = "google" /\ msg = "Google Cloud analysis not implemented") \/
  (config.Mode cfg = "aws" /\ msg = "AWS Comprehend analysis not implemented") \/
  (config.Mode cfg = "azure" /\ msg = "Azure Text Analytics analysis not implemented") \/
  (config.Mode cfg = "openai" /\ config.APIKey cfg = "" /\
   msg = "OpenAI API key is not configured").

(** The map [a.GetStats()] returns, one field per key. *)
Record Stats := {
  cache_size : Z;
  mode : string;
  negative_threshold : float64.t;
  relevance_threshold : float64.t;
  keyword_count : Z;
  category_count : Z
}.

(** [a.GetStats()]. *)
Definition GetStats (a : Analyzer) : Stats :=
  {| cache_size := Z.of_nat (size (cache a));
     mode := config.Mode (config a);
     negative_threshold := config.NegativeThreshold (config a);
     relevance_threshold := config.RelevanceThreshold (config a);
     keyword_count := Z.of_nat (size (keywordMap a));
     category_count := Z.of_nat (size (categoryMap a)) |}.

End analyzer.

(** ** internal/router: the routing engine *)

Module router.
Import models.

(** [router.Router]. *)
Record Router := {
  config : config.RouterConfig;
  departments : gmap string Department.t;
  mappingCache : gmap string string
}.

Definition mapping (category department : string) (priority : Z) : config.DepartmentMapping :=
  {| config.Category := category; config.Department := department;
     config.Priority := priority |}.

Definition defaultMappings : list config.DepartmentMapping := [
  mapping "product_issue" "engineering" 10;
  mapping "technical_support" "support" 8;
  mapping "performance" "engineering" 8;
  mapping "security" "security" 10;
  mapping "feature_request" "product" 5;
  mapping "ui_ux" "design" 7;
  mapping "billing_licensing" "finance" 9;
  mapping "documentation" "documentation" 6;
  mapping "deployment" "professional_services" 8;
  mapping "cloud_integration" "cloud_team" 8;
  mapping "automation" "automation_team" 7;
  mapping "upgrade_issue" "engineering" 9;
  mapping "general_complaint" "support" 6
].

Definition department (id name contact : string) (categories : list string) : Department.t :=
  {| Department.ID := id; Department.Name := name;
     Department.ContactInfo := contact; Department.Categories := categories |}.

(** The departments [New] installs, in the order of its assignments. *)
Definition defaultDepartments : list Department.t := [
  department "engineering" "Infoblox Engineering" "engineering@infoblox.com"
             ["product_issue"; "performance"; "upgrade_issue"];
  department "security" "Security Team" "security@infoblox.com" ["security"];
  department "product" "Product Management" "product@infoblox.com" ["feature_request"];
  department "design" "UX Design" "design@infoblox.com" ["ui_ux"];
  department "finance" "Customer Success & Licensing" "licensing@infoblox.com"
             ["billing_licensing"];
  department "support" "Technical Support" "support@infoblox.com"
             ["technical_support"; "general_complaint"];
  department "documentation" "Documentation Team" "docs@infoblox.com" ["documentation"];
  department "professional_services" "Professional Services" "services@infoblox.com"
             ["deployment"];
  department "cloud_team" "BloxOne Cloud Team" "cloud@infoblox.com" ["cloud_integration"];
  department "automation_team" "Network Automation Team" "automation@infoblox.com"
             ["automation"]
].

(** [router.New(cfg)]. *)
Definition New (cfg : config.RouterConfig) : Router :=
  let cfg :=
    if (length (config.Mappings cfg) =? 0)%nat
    then {| config.Mappings := defaultMappings;
            config.DefaultDepartment := config.DefaultDepartment cfg |}
    else cfg in
  let mappingCache :=
    foldl (fun (cache : gmap string string) m =>
             <[config.Category m := config.Department m]> cache)
          ∅ (config.Mappings cfg) in
  let departments :=
    foldl (fun (depts : gmap string Department.t) d => <[Department.ID d := d]> depts)
          ∅ defaultDepartments in
  {| config := cfg; departments := departments; mappingCache := mappingCache |}.

(** The nested lookup of [Route]: the department a category is mapped
    to, when both the mapping and the department exist. *)
Definition lookupCategory (r : Router) (category : string) : option Department.t :=
  match mappingCache r !! category with
  | Some departmentID => departments r !! departmentID
  | None => None
  end.

(** The loop over the ranked categories: the first that has a
    department. *)
Fixpoint firstMapped (r : Router) (scores : list (string * float64.t)) : option Department.t :=
  match scores with
  | [] => None
  | cs :: rest =>
      match lookupCategory r (fst cs) with
      | Some dept => Some dept
      | None => firstMapped r rest
      end
  end.

(** The department [Route] returns when nothing else is found. *)
Definition ultimateFallback : Department.t :=
  department "support" "Customer Support" "support@company.com" ["general_complaint"].

(** [r.Route(analysis)].  [ranked] is what the [range] over
    [analysis.CategoryScores] followed by [sort.Slice] leaves in
    [scores]: Go fixes neither the order of the walk nor the order
    [sort.Slice] gives to entries of equal score. *)
Definition Route (r : Router)
    (ranked : list (string * float64.t) -> list (string * float64.t))
    (analysis : AnalysisResult) : Department.t :=
  match lookupCategory r (IntentCategory analysis) with
  | Some dept => dept
  | None =>
      let scores := ranked (map_to_list (CategoryScores analysis)) in
      match firstMapped r scores with
      | Some dept => dept
      | None =>
          match departments r !! config.DefaultDepartment (config r) with
          | Some dept => dept
          | None =>
              match departments r !! "support" with
              | Some dept => dept
              | None => ultimateFallback
              end
          end
      end
  end.

(** [r.AddDepartment(department)]. *)
Definition AddDepartment (r : Router) (d : Department.t) : Router :=
  {| config := config r;
     departments := <[Department.ID d := d]> (departments r);
     mappingCache :=
       foldl (fun (cache : gmap string string) category =>
                <[category := Department.ID d]> cache)
             (mappingCache r) (Department.Categories d) |}.

(** [r.UpdateMapping(category, departmentID)]. *)
Definition UpdateMapping (r : Router) (category departmentID : string) : Router :=
  {| config := config r;
     departments := departments r;
     mappingCache := <[category := departmentID]> (mappingCache r) |}.

(** The routers a program can hold: built by [New], then extended. *)
Inductive reachable : Router -> Prop :=
  | reachable_New cfg : reachable (New cfg)
  | reachable_AddDepartment r d : reachable r -> reachable (AddDepartment r d)
  | reachable_UpdateMapping r category departmentID :
      reachable r -> reachable (UpdateMapping r category departmentID).

(** The same, every department added having an identifier. *)
Inductive reachableNamed : Router -> Prop :=
  | named_New cfg : reachableNamed (New cfg)
  | named_AddDepartment r d :
      reachableNamed r -> Department.ID d <> "" -> reachableNamed (AddDepartment r d)
  | named_UpdateMapping r category departmentID :
      reachableNamed r -> reachableNamed (UpdateMapping r category departmentID).

(** Every registered department carries an identifier. *)
Definition allNamed (r : Router) : Prop :=
  forall k d, departments r !! k = Some d -> Department.ID d <> "".

(** The zero value [models.Department{}]. *)
Definition Department_zero : Department.t :=
  {| Department.ID := ""; Department.Name := ""; Department.ContactInfo := "";
     Department.Categories := [] |}.

(** [r.GetDepartment(departmentID)]. *)
Definition GetDepartment (r : Router) (departmentID : string) : Department.t * bool :=
  match departments r !! departmentID with
  | Some dept => (dept, true)
  | None => (Department_zero, false)
  end.

(** The mappings [New] reads: the configured ones, or the defaults when
    none is configured. *)
Definition effectiveMappings (cfg : config.RouterConfig) : list config.DepartmentMapping :=
  if (length (config.Mappings cfg) =? 0)%nat then defaultMappings else config.Mappings cfg.

End router.

(** ** internal/notifier *)

Module notifier.
Import models.

(** [notifier.Notifier]. *)
Record Notifier := {
  config : config.NotifierConfig;
  notifCache : gmap string Notification;
  dbConnected : bool
}.

(** [n.connectToDatabase()]: a placeholder that connects to nothing. *)
Definition connectToDatabase (n : Notifier) : Notifier :=
  {| config := config n; notifCache := notifCache n; dbConnected := false |}.

(** [notifier.New(cfg)]. *)
Definition New (cfg : config.NotifierConfig) : Notifier :=
  let n := {| config := cfg; notifCache := ∅; dbConnected := false |} in
  if config.Databases_Enabled cfg then connectToDatabase n else n.

(** What one call of [Notify] meets outside the process: the identifier
    [uuid.New().String()] draws, the instant [time.Now()] reads, what
    [smtp.SendMail] returns for the mail to a recipient, what
    [http.NewRequest] returns for a URL, and what [httpClient.Do] returns
    for the request to a URL: an error, or a response with its status
    code. *)
Record Outside := {
  uuid : string;
  now : Z;
  SendMail : string -> option error;
  NewRequest : string -> option error;
  Do : string -> error + Z
}.

(** What a call hands to the outside: a mail to a recipient, a request
    posted to a URL, the update of the dashboard for a notification. *)
Inductive Outgoing : Type :=
  | Mail (toEmail : string)
  | Post (webhookURL : string)
  | Dashboard (id : string).

(** [n.cacheNotification(notification)]; [storeNotificationInDB] is a
    placeholder that stores nothing. *)
Definition cacheNotification (n : Notifier) (notification : Notification) : Notifier :=
  {| config := config n;
     notifCache := <[Notification_ID notification := notification]> (notifCache n);
     dbConnected := dbConnected n |}.

(** [n.sendEmailNotification(notification)]: the error returned and what
    was handed to the outside.  The subject, the body and the headers of
    the mail are built from the notification between the two checks and
    the call of [smtp.SendMail]; they reach nothing but that call. *)
Definition sendEmailNotification (n : Notifier) (out : Outside)
    (notification : Notification) : option error * list Outgoing :=
  if (config.SMTPServer (config.Email (config n)) =? "")%string || (config.SMTPPort (config.Email (config n)) =? 0)
  then (Some (errorString "SMTP not configured"), [])
  else
    let toEmail :=
      match config.DeptAddresses (config.Email (config n))
              !! Department.ID (Notification_Department notification) with
      | Some toEmail => toEmail
      | None => Department.ContactInfo (Notification_Department notification)
      end in
    if negb (gostrings.Contains toEmail "@")
    then (Some (errorString ("invalid email address for department: "
                             +:+ Department.ID (Notification_Department notification))),
          [])
    else
      match SendMail out toEmail with
      | Some err =>
          (Some (wrapError ("failed to send email: " +:+ goerrors.Error err) err),
           [Mail toEmail])
      | None => (None, [Mail toEmail])
      end.

(** [n.sendSlackNotification(notification)].  The message is built from
    the notification and marshalled before the request is created; it
    holds strings, booleans and an integer, which [json.Marshal] always
    accepts. *)
Definition sendSlackNotification (n : Notifier) (out : Outside)
    (notification : Notification) : option error * list Outgoing :=
  if (config.WebhookURL (config.Slack (config n)) =? "")%string
  then (Some (errorString "Slack webhook URL not configured"), [])
  else
    let webhookURL :=
      match config.DeptChannels (config.Slack (config n))
              !! Department.ID (Notification_Department notification) with
      | Some channelURL =>
          if negb (channelURL =? "")%string then channelURL
          else config.WebhookURL (config.Slack (config n))
      | None => config.WebhookURL (config.Slack (config n))
      end in
    match NewRequest out webhookURL with
    | Some err =>
        (Some (wrapError ("failed to create HTTP request: " +:+ goerrors.Error err) err), [])
    | None =>
        match Do out webhookURL with
        | inl err =>
            (Some (wrapError ("failed to send Slack notification: " +:+ goerrors.Error err)
                             err),
             [Post webhookURL])
        | inr StatusCode =>
            if negb (StatusCode =? 200)
            then (Some (errorString ("Slack API returned non-OK status: "
                                     +:+ gostrings.Sprintf_d StatusCode)),
                  [Post webhookURL])
            else (None, [Post webhookURL])
        end
    end.

(** One call of [Notify]: the error returned, what was handed to the
    outside, in order, and the notifier afterwards. *)
Record Call := {
  returned : option error;
  outgoing : list Outgoing;
  after : Notifier
}.

(** [n.Notify(ctx, department, review, analysis)]. *)
Definition Notify (n : Notifier) (out : Outside) (department : Department.t)
    (review : Review) (analysis : AnalysisResult) : Call :=
  let notification :=
    {| Notification_ID := uuid out;
       Notification_Review := review;
       Notification_Analysis := analysis;
       Notification_Department := department;
       SentAt := now out;
       Status := "sent";
       ResponseInfo := "" |} in
  let n := cacheNotification n notification in
  let errs : list error := [] in
  let sent : list Outgoing := [] in
  let '(errs, sent) :=
    if config.Email_Enabled (config.Email (config n)) then
      let '(err, handed) := sendEmailNotification n out notification in
      match err with
      | Some err =>
          ((errs ++ [wrapError ("email notification error: " +:+ goerrors.Error err) err])%list,
           (sent ++ handed)%list)
      | None => (errs, (sent ++ handed)%list)
      end
    else (errs, sent) in
  let '(errs, sent) :=
    if config.Slack_Enabled (config.Slack (config n)) then
      let '(err, handed) := sendSlackNotification n out notification in
      match err with
      | Some err =>
          ((errs ++ [wrapError ("slack notification error: " +:+ goerrors.Error err) err])%list,
           (sent ++ handed)%list)
      | None => (errs, (sent ++ handed)%list)
      end
    else (errs, sent) in
  let sent :=
    if config.Dashboard_Enabled (config n)
    then (sent ++ [Dashboard (Notification_ID notification)])%list else sent in
  if (0 <? length errs)%nat
  then {| returned :=
            Some (errorString ("notification errors: "
                               +:+ gostrings.Join (goerrors.Error <$> errs) "; "));
          outgoing := sent; after := n |}
  else {| returned := None; outgoing := sent; after := n |}.

(** The statistics [GetStats] reports. *)
Record Stats := {
  notifications_cached : Z;
  email_enabled : bool;
  slack_enabled : bool;
  dashboard_enabled : bool;
  database_enabled : bool;
  database_connected : bool
}.

(** [n.GetStats()]. *)
Definition GetStats (n : Notifier) : Stats :=
  {| notifications_cached := Z.of_nat (size (notifCache n));
     email_enabled := config.Email_Enabled (config.Email (config n));
     slack_enabled := config.Slack_Enabled (config.Slack (config n));
     dashboard_enabled := config.Dashboard_Enabled (config n);
     database_enabled := config.Databases_Enabled (config n);
     database_connected := dbConnected n |}.

(** *** Definitions used to state the properties *)

(** The notification [Notify] builds. *)
Definition notificationOf (out : Outside) (department : Department.t)
    (review : Review) (analysis : AnalysisResult) : Notification :=
  {| Notification_ID := uuid out;
     Notification_Review := review;
     Notification_Analysis := analysis;
     Notification_Department := department;
     SentAt := now out;
     Status := "sent";
     ResponseInfo := "" |}.

(** The outcome of a channel of [Notify]: nothing when the channel is
    disabled. *)
Definition channel (enabled : bool) (send : option error * list Outgoing)
  : option error * list Outgoing :=
  if enabled then send else (None, []).

(** The message [Notify] gives to the failure of a channel. *)
Definition channelMessage (name : string) (err : option error) : list string :=
  match err with
  | Some err => [name +:+ " notification error: " +:+ goerrors.Error err]
  | None => []
  end.

(** The arguments of a call of [Notify], with what the call meets. *)
Record Request := {
  meets : Outside;
  toDepartment : Department.t;
  aboutReview : Review;
  withAnalysis : AnalysisResult
}.

(** A sequence of calls of [Notify], each on the notifier the previous
    one left. *)
Definition NotifyEach (n : Notifier) (calls : list Request) : Notifier :=
  foldl (fun n c => after (Notify n (meets c) (toDepartment c) (aboutReview c) (withAnalysis c)))
        n calls.

(** Every registered department can be reached by mail. *)
Definition mailable (r : router.Router) : Prop :=
  forall k d, router.departments r !! k = Some d ->
              gostrings.Contains (Department.ContactInfo d) "@" = true.

End notifier.

(** ** The pipeline driver (cmd/review-scraper/main.go) and the manual
    trigger of the API server (internal/api) *)

Module pipeline.
Import models.

(** The arguments of one call of [notifier.Notify]. *)
Record Notified := {
  toDepartment : Department.t;
  aboutReview : Review;
  withAnalysis : AnalysisResult
}.

(** What the iteration at position [i] of the loop meets: the
    environment of its call of [Analyze], with the calls of other
    goroutines that overlap it, and the ranking of its call of [Route]. *)
Record World := {
  envAt : nat -> analyzer.Env;
  rankingAt : nat -> list (string * float64.t) -> list (string * float64.t)
}.

(** The body of the loop of [runPipeline] for the review at position [i]:
    the analyzer afterwards and the calls of [Notify] made (none or one).
    What [Notify] returns is only logged. *)
Definition processReview `{GoUnicode} (w : World) (r : router.Router) (i : nat)
    (a : analyzer.Analyzer) (review : Review) : analyzer.Analyzer * list Notified :=
  let call := analyzer.Analyze a (envAt w i) review in
  match snd (analyzer.returned call) with
  | Some _ => (analyzer.after call, [])
  | None =>
      let analysisResult := fst (analyzer.returned call) in
      if negb (IsNegative analysisResult) || negb (IsRelevant analysisResult)
      then (analyzer.after call, [])
      else (analyzer.after call,
            [ {| toDepartment := router.Route r (rankingAt w i) analysisResult;
                 aboutReview := review;
                 withAnalysis := analysisResult |} ])
  end.

(** The loop [for _, review := range reviews], from position [i]. *)
Fixpoint processReviews `{GoUnicode} (w : World) (r : router.Router) (i : nat)
    (a : analyzer.Analyzer) (reviews : list Review) : analyzer.Analyzer * list Notified :=
  match reviews with
  | [] => (a, [])
  | review :: rest =>
      let '(a1, first) := processReview w r i a review in
      let '(a2, others) := processReviews w r (S i) a1 rest in
      (a2, (first ++ others)%list)
  end.

(** [runPipeline(ctx, scraperManager, analyzer, router, notifier)], given
    what [ScrapeAll] returned. *)
Definition runPipeline `{GoUnicode} (w : World) (r : router.Router)
    (a : analyzer.Analyzer) (scraped : list Review * option error)
  : analyzer.Analyzer * list Notified :=
  match snd scraped with
  | Some _ => (a, [])
  | None => processReviews w r O a (fst scraped)
  end.



End pipeline.

(** ** The G2 API client (internal/scraper/g2.go) *)

Module g2.

(** The [Review] of the G2 client. *)
Record Review := {
  ID : Z;
  ReviewID : Z;
  Author : string;
  Platform : string;
  Title : string;
  PostContent : string;
  ReplyContents : string;
  Timestamp : string;
  Tags : list string;
  Rating : Z
}.

(** One element of [G2Response.Reviews]. *)
Record ResponseReview := {
  Response_ID : string;
  Response_ReviewerName : string;
  Response_Title : string;
  Response_Content : string;
  Response_VendorReply : string;
  Response_ReviewDate : string;
  Response_Tags : list string;
  Response_Rating : Z
}.

(** The loop of [FetchReviews] that turns the parsed response into
    reviews, from position [i].  [scanID] is what
    [fmt.Sscanf(r.ID, "%d", &reviewID)] leaves in [reviewID], which starts
    at zero. *)
Fixpoint transformFrom (scanID : string -> Z) (i : Z) (reviews : list ResponseReview)
  : list Review :=
  match reviews with
  | [] => []
  | r :: rest =>
      {| ID := i + 1;
         ReviewID := scanID (Response_ID r);
         Author := Response_ReviewerName r;
         Platform := "G2";
         Title := Response_Title r;
         PostContent := Response_Content r;
         ReplyContents := Response_VendorReply r;
         Timestamp := Response_ReviewDate r;
         Tags := Response_Tags r;
         Rating := Response_Rating r |} :: transformFrom scanID (i + 1) rest
  end.

Definition transform (scanID : string -> Z) (reviews : list ResponseReview) : list Review :=
  transformFrom scanID 0 reviews.

End g2.

(** ** Concrete inputs *)

Module samples.
Import models.

(** The Go runtime on ASCII text: neither Unicode path is taken there,
    so what they return is immaterial. *)
Definition asciiText : GoUnicode :=
  {| mapToLower s := s;
     explode s := (fun c => String c EmptyString) <$> gostrings.bytes s |}.

(** Every [range] walks its map in the order of the map's listing. *)
Definition listingOrder : RangeOrder :=
  {| rangeKeywords l := l; rangeScores l := l |}.

Definition review (id title content : string) (rating : option float64.t) : Review :=
  {| ID := id; Source := "trustpilot"; SourceID := id; Content := content;
     Title := title; Author := "someone"; Rating := rating; URL := "";
     CreatedAt := 0; RetrievedAt := 0; Metadata := ∅ |}.

Definition crashReview : Review :=
  review "trustpilot_1" "" "Constant crashes and terrible DHCP support"
         (Some float64.c1_0).

Definition sameTextReview : Review :=
  review "trustpilot_2" "" "Constant crashes and terrible DHCP support" None.

Definition titledReview : Review := review "trustpilot_3" "great" "tool" None.

Definition laterTextReview : Review :=
  review "trustpilot_4" "" "Constant crashes and terrible DHCP support" None.

Definition slowReview : Review := review "trustpilot_5" "" "slow interface" None.

(** Adapters as one run sees them. *)
Definition emptyAdapter : scraper.Scraper :=
  {| scraper.Name := "Reddit"; scraper.Scrape := ([], None);
     scraper.IsEnabled := true |}.

Definition workingAdapter : scraper.Scraper :=
  {| scraper.Name := "Trustpilot"; scraper.Scrape := ([crashReview], None);
     scraper.IsEnabled := true |}.

Definition failingAdapter : scraper.Scraper :=
  {| scraper.Name := "Twitter";
     scraper.Scrape := ([], Some (errorString "rate limited"));
     scraper.IsEnabled := true |}.

Definition timedOutAdapter : scraper.Scraper :=
  {| scraper.Name := "G2";
     scraper.Scrape := ([titledReview], Some (errorString "context deadline exceeded"));
     scraper.IsEnabled := true |}.

Definition disabledAdapter : scraper.Scraper :=
  {| scraper.Name := "AppStore"; scraper.Scrape := ([sameTextReview], None);
     scraper.IsEnabled := false |}.

Definition emptyAndFailing : scraper.Manager :=
  {| scraper.scrapers := [emptyAdapter; failingAdapter] |}.

Definition workingAndFailing : scraper.Manager :=
  {| scraper.scrapers := [failingAdapter; disabledAdapter; workingAdapter] |}.

Definition allFailing : scraper.Manager :=
  {| scraper.scrapers := [failingAdapter; disabledAdapter; timedOutAdapter] |}.

Definition analyzerConfig (mode : string) : config.AnalyzerConfig :=
  {| config.Mode := mode; config.ModelEndpoint := ""; config.APIKey := "";
     config.NegativeThreshold := float64.zero;
     config.RelevanceThreshold := float64.c0_3;
     config.Keywords := ["DNS"; "crash"; "support"];
     config.IntentCategories := [] |}.

(** An endpoint that is never reached. *)
Definition offline : analyzer.Env :=
  {| analyzer.order := listingOrder;
     analyzer.openaiExchange _ := inr (errorString "error sending request to OpenAI");
     analyzer.meanwhile := [] |}.

(** Another goroutine that analyses [review] and finds the endpoint as
    [offline] does. *)
Definition overlapping (review : Review) : analyzer.Overlapping :=
  {| analyzer.otherReview := review;
     analyzer.otherOrder := listingOrder;
     analyzer.otherExchange _ := inr (errorString "error sending request to OpenAI") |}.

(** A call between whose read and write another goroutine, which had
    missed the cache for [review], stores its result. *)
Definition during (review : Review) : analyzer.Env :=
  {| analyzer.order := listingOrder;
     analyzer.openaiExchange _ := inr (errorString "error sending request to OpenAI");
     analyzer.meanwhile := [overlapping review] |}.

(** An analyzer as [New] builds it, and the same after one call. *)
Definition freshAnalyzer : analyzer.Analyzer :=
  @analyzer.New asciiText (analyzerConfig "local").

Definition usedAnalyzer : analyzer.Analyzer :=
  analyzer.after (@analyzer.Analyze asciiText freshAnalyzer offline crashReview).

Definition routerConfig (defaultDepartment : string) : config.RouterConfig :=
  {| config.Mappings := []; config.DefaultDepartment := defaultDepartment |}.

Definition analysis (category : string) (scores : gmap string float64.t) : AnalysisResult :=
  {| ReviewID := "trustpilot_1"; SentimentScore := float64.cm1_0;
     IsNegative := true; IsRelevant := true; IntentCategory := category;
     Confidence := float64.c0_5; Keywords := []; Entities := [];
     CategoryScores := scores |}.

(** A department registered without an identifier. *)
Definition unnamedDepartment : Department.t :=
  router.department "" "Escalations" "escalations@infoblox.com" [].

(** The zero value [router.Router{}]: both maps nil. *)
Definition zeroRouter : router.Router :=
  {| router.config := routerConfig "";
     router.departments := ∅;
     router.mappingCache := ∅ |}.

(** A scraper configuration with Twitter and two stub sources enabled. *)
Definition stubsAndTwitter : config.ScrapersConfig :=
  {| config.Twitter :=
       {| config.Twitter_Enabled := true; config.Twitter_APIKey := "";
          config.Twitter_APISecret := ""; config.Twitter_AccessToken := "";
          config.Twitter_AccessSecret := ""; config.Twitter_Keywords := ["infoblox"];
          config.Twitter_ExcludeWords := []; config.Twitter_MaxResults := 100 |};
     config.Reddit :=
       {| config.Reddit_Enabled := true; config.Reddit_ClientID := "";
          config.Reddit_ClientSecret := ""; config.Reddit_Username := "";
          config.Reddit_Password := ""; config.Reddit_Subreddits := [];
          config.Reddit_Keywords := []; config.Reddit_TimeFrame := "" |};
     config.AppStore :=
       {| config.Store_Enabled := false; config.Store_AppIDs := [];
          config.Store_Countries := []; config.Store_MaxPages := 0 |};
     config.GooglePlay :=
       {| config.Store_Enabled := true; config.Store_AppIDs := [];
          config.Store_Countries := []; config.Store_MaxPages := 0 |};
     config.CustomSites := [] |}.

(** A department that takes over the security category. *)
Definition escalations : models.Department.t :=
  router.department "escalations" "Escalations" "escalations@infoblox.com" ["security"; "outage"].

(** A world in which every call meets the same environment. *)
Definition quietWorld : pipeline.World :=
  {| pipeline.envAt _ := samples.offline; pipeline.rankingAt _ l := l |}.

(** A notifier configuration with the mail server set and no address of
    its own for any department. *)
Definition mailConfig : config.NotifierConfig :=
  {| config.Email :=
       {| config.Email_Enabled := true; config.SMTPServer := "smtp.infoblox.com";
          config.SMTPPort := 587; config.Username := "feedback";
          config.Password := "secret"; config.FromAddress := "feedback@infoblox.com";
          config.DeptAddresses := ∅ |};
     config.Slack :=
       {| config.Slack_Enabled := true; config.WebhookURL := "";
          config.DeptChannels := ∅ |};
     config.Dashboard_Enabled := false;
     config.Databases_Enabled := true |}.

(** An outside on which every mail and every request goes through. *)
Definition delivering (id : string) : notifier.Outside :=
  {| notifier.uuid := id; notifier.now := 0;
     notifier.SendMail _ := None;
     notifier.NewRequest _ := None;
     notifier.Do _ := inr 200 |}.

Definition securityRequest (id : string) : notifier.Request :=
  {| notifier.meets := delivering id;
     notifier.toDepartment :=
       router.Route (router.New (routerConfig "")) (fun l => l) (analysis "security" ∅);
     notifier.aboutReview := crashReview;
     notifier.withAnalysis := analysis "security" ∅ |}.

End samples.

(* ================================================================== *)
(** * Part II: properties                                              *)
(* ================================================================== *)
(** ** float64: comparisons and NaN *)

Module float64_facts.
Import float64.

Lemma compare_antisym (x y : t) (c : comparison) :
  SFcompare x y = Some c -> SFcompare y x = Some (CompOpp c).
Proof.
  destruct x as [sx|sx| |sx mx ex], y as [sy|sy| |sy my ey]; simpl;
    try discriminate;
    try (intros [= <-]; repeat match goal with b : bool |- _ => destruct b end;
         reflexivity).
  intros [= <-]. f_equal.
  destruct sx, sy; simpl; try reflexivity.
  - rewrite (Z.compare_antisym ex ey).
    destruct (ex ?= ey); simpl; try reflexivity.
    now rewrite (Pos.compare_cont_antisym mx my Eq).
  - rewrite (Z.compare_antisym ex ey).
    destruct (ex ?= ey); simpl; try reflexivity.
    now rewrite (Pos.compare_cont_antisym mx my Eq).
Qed.

Lemma compare_defined (x y : t) :
  is_nan x = false -> is_nan y = false -> exists c, SFcompare x y = Some c.
Proof.
  destruct x as [sx|sx| |sx mx ex], y as [sy|sy| |sy my ey]; simpl;
    intros; try discriminate; eauto.
Qed.

(** Without NaN the order is total: [not (x < y)] gives [y <= x]. *)
Lemma not_ltb_leb (x y : t) :
  is_nan x = false -> is_nan y = false -> ltb x y = false -> leb y x = true.
Proof.
  intros Hx Hy. unfold ltb, leb, SFltb, SFleb.
  destruct (compare_defined x y Hx Hy) as [c Hc].
  rewrite Hc, (compare_antisym _ _ _ Hc).
  destruct c; simpl; congruence.
Qed.

Lemma shr_1_nonneg (mrs : shr_record) :
  0 <= shr_m mrs -> 0 <= shr_m (shr_1 mrs).
Proof.
  destruct mrs as [m r s]; simpl.
  destruct m as [|p|p]; simpl; try lia; destruct p; simpl; lia.
Qed.

Lemma iter_shr_1_nonneg (p : positive) (mrs : shr_record) :
  0 <= shr_m mrs -> 0 <= shr_m (SpecFloat.iter_pos shr_1 p mrs).
Proof.
  revert mrs; induction p as [p IH|p IH|]; intros mrs H; simpl.
  - apply IH, IH, shr_1_nonneg, H.
  - apply IH, IH, H.
  - apply shr_1_nonneg, H.
Qed.

Lemma shr_fexp_nonneg (m e : Z) (l : location) :
  0 <= m -> 0 <= shr_m (fst (shr_fexp prec emax m e l)).
Proof.
  intros H. unfold shr_fexp, shr.
  assert (H0 : 0 <= shr_m (shr_record_of_loc m l)).
  { destruct l as [|[]]; simpl; exact H. }
  destruct (fexp prec emax (Zdigits2 m + e) - e) as [|p|p]; simpl;
    auto using iter_shr_1_nonneg.
Qed.

Lemma round_nearest_even_nonneg (m : Z) (l : location) :
  0 <= m -> 0 <= round_nearest_even m l.
Proof.
  intros H. destruct l as [|[]]; simpl; try lia.
  destruct (Z.even m); lia.
Qed.

(** Rounding a non-negative mantissa never gives NaN. *)
Lemma binary_round_aux_not_nan (sx : bool) (mx ex : Z) (lx : location) :
  0 <= mx -> is_nan (binary_round_aux prec emax sx mx ex lx) = false.
Proof.
  intros H. unfold binary_round_aux.
  pose proof (shr_fexp_nonneg mx ex lx H) as H1.
  destruct (shr_fexp prec emax mx ex lx) as [mrs' e']. simpl in H1.
  pose proof (shr_fexp_nonneg _ e' loc_Exact
                (round_nearest_even_nonneg _ (loc_of_shr_record mrs') H1)) as H2.
  destruct (shr_fexp prec emax _ e' loc_Exact) as [mrs'' e'']. simpl in H2.
  destruct (shr_m mrs'') as [|m|m]; try reflexivity.
  - now destruct (e'' <=? emax - prec).
  - lia.
Qed.

Lemma of_int_not_nan (n : Z) : is_nan (of_int n) = false.
Proof.
  unfold of_int, binary_normalize, binary_round.
  destruct n as [|m|m]; try reflexivity;
    destruct (shl_align _ _ _) as [mz ez];
    apply binary_round_aux_not_nan; lia.
Qed.

Lemma div_core_nonneg (m1 m2 : positive) (e1 e2 : Z) :
  0 <= fst (fst (SFdiv_core_binary prec emax (Zpos m1) e1 (Zpos m2) e2)).
Proof.
  unfold SFdiv_core_binary.
  set (s := _ - _ - _).
  set (m' := match s with Z0 => _ | Zpos _ => _ | Zneg _ => _ end).
  assert (Hm : 0 <= m').
  { subst m'. destruct s; try lia. apply Z.shiftl_nonneg. lia. }
  pose proof (Z.div_eucl_eq m' (Zpos m2) ltac:(lia)) as Heq.
  pose proof (Z.mod_pos_bound m' (Zpos m2) ltac:(lia)) as Hb.
  unfold Z.modulo in Hb.
  destruct (Z.div_eucl m' (Z.pos m2)) as [q r]. simpl. nia.
Qed.

(** A quotient by a finite non-zero number is NaN only if the dividend
    is. *)
Lemma div_finite_not_nan (x : t) (s : bool) (m : positive) (e : Z) :
  is_nan x = false -> is_nan (div x (S754_finite s m e)) = false.
Proof.
  destruct x as [sx|sx| |sx mx ex]; simpl; try reflexivity; try discriminate.
  intros _. unfold div, SFdiv.
  pose proof (div_core_nonneg mx m ex e) as H.
  destruct (SFdiv_core_binary _ _ _ _ _ _) as [[mz ez] lz]. simpl in H.
  now apply binary_round_aux_not_nan.
Qed.

End float64_facts.

(** ** Strings *)

Module gostrings_facts.
Import gostrings.

Lemma append_assoc (a b c : string) : (a +:+ b) +:+ c = a +:+ b +:+ c.
Proof.
  induction a as [|x a IH]; [reflexivity|].
  change (String x ((a +:+ b) +:+ c) = String x (a +:+ b +:+ c)).
  now rewrite IH.
Qed.

Lemma append_nil_r (a : string) : a +:+ "" = a.
Proof.
  induction a as [|x a IH]; [reflexivity|].
  change (String x (a +:+ "") = String x a). now rewrite IH.
Qed.

Lemma occursIn_refl (s : string) : occursIn s s.
Proof. exists "", "". change (s = s +:+ ""). now rewrite append_nil_r. Qed.

Lemma occursIn_app_l (sub a b : string) : occursIn sub a -> occursIn sub (a +:+ b).
Proof.
  intros (pre & post & ->). exists pre, (post +:+ b).
  now rewrite !append_assoc.
Qed.

Lemma occursIn_app_r (sub a b : string) : occursIn sub b -> occursIn sub (a +:+ b).
Proof.
  intros (pre & post & ->). exists (a +:+ pre), post.
  now rewrite !append_assoc.
Qed.

Lemma occursIn_trans (a b c : string) : occursIn a b -> occursIn b c -> occursIn a c.
Proof.
  intros (p1 & q1 & ->) (p2 & q2 & ->).
  exists (p2 +:+ p1), (q1 +:+ q2). now rewrite !append_assoc.
Qed.

Lemma hexDigit_inj (a b : nat) :
  (a < 16)%nat -> (b < 16)%nat -> hexDigit a = hexDigit b -> a = b.
Proof.
  intros Ha Hb.
  do 16 (destruct a as [|a]; [do 16 (destruct b as [|b]; [first [reflexivity|discriminate]|]); lia|]).
  lia.
Qed.

Lemma nat_of_ascii_lt (c : ascii) : (nat_of_ascii c < 256)%nat.
Proof. apply nat_ascii_bounded. Qed.

(** [fmt.Sprintf("%x", s)] tells strings apart, and is twice as long. *)
Lemma Sprintf_x_inj (s t : string) : Sprintf_x s = Sprintf_x t -> s = t.
Proof.
  revert t; induction s as [|c s IH]; intros [|d t]; cbn [Sprintf_x];
    try discriminate; [reflexivity|].
  intros [= Hhi Hlo Hrest].
  change (hexDigit (nat_of_ascii c / 16) = hexDigit (nat_of_ascii d / 16))%nat in Hhi.
  change (hexDigit (nat_of_ascii c mod 16) = hexDigit (nat_of_ascii d mod 16))%nat in Hlo.
  pose proof (nat_of_ascii_lt c) as Hc. pose proof (nat_of_ascii_lt d) as Hd.
  apply hexDigit_inj in Hhi;
    [|apply Nat.Div0.div_lt_upper_bound; lia|apply Nat.Div0.div_lt_upper_bound; lia].
  apply hexDigit_inj in Hlo; [|apply Nat.mod_upper_bound; lia|apply Nat.mod_upper_bound; lia].
  assert (Hn : nat_of_ascii c = nat_of_ascii d).
  { rewrite (Nat.div_mod_eq (nat_of_ascii c) 16), (Nat.div_mod_eq (nat_of_ascii d) 16).
    now rewrite Hhi, Hlo. }
  f_equal; [|now apply IH].
  rewrite <- (ascii_nat_embedding c), <- (ascii_nat_embedding d). now rewrite Hn.
Qed.

End gostrings_facts.

(** ** The orchestrator *)

Module scraper_facts.
Import scraper gostrings gostrings_facts.

Lemma successes_cons (s : Scraper) (l : list Scraper) :
  successes (s :: l) = ((if succeeded s then fst (Scrape s) else []) ++ successes l)%list.
Proof. reflexivity. Qed.

Lemma failures_cons (s : Scraper) (l : list Scraper) :
  failures (s :: l) =
  match snd (Scrape s) with
  | Some e => scraperError s e :: failures l
  | None => failures l
  end.
Proof. unfold failures. simpl. now destruct (snd (Scrape s)). Qed.

(** The accumulator holds the successes and the failures, each in the
    order the goroutines finished. *)
Lemma join_from (l : list Scraper) (results : list models.Review) (errs : list error) :
  foldl record (results, errs) l = ((results ++ successes l)%list, (errs ++ failures l)%list).
Proof.
  revert results errs; induction l as [|s l IH]; intros results errs.
  - simpl. unfold successes, failures. simpl. now rewrite !app_nil_r.
  - rewrite successes_cons, failures_cons. cbn [foldl].
    unfold record at 2, succeeded.
    destruct (Scrape s) as [reviews [e|]]; cbn [fst snd]; rewrite IH.
    + now rewrite <- app_assoc.
    + now rewrite <- app_assoc.
Qed.

Lemma join_spec (done : list Scraper) : join done = (successes done, failures done).
Proof. unfold join. now rewrite join_from. Qed.

Lemma successes_Permutation (l1 l2 : list Scraper) :
  l1 ≡ₚ l2 -> successes l1 ≡ₚ successes l2.
Proof. intros H. unfold successes. now rewrite H. Qed.

Lemma failures_Permutation (l1 l2 : list Scraper) :
  l1 ≡ₚ l2 -> failures l1 ≡ₚ failures l2.
Proof. intros H. unfold failures. now rewrite H. Qed.

Lemma successes_all_failed (l : list Scraper) :
  (forall s, s ∈ l -> succeeded s = false) -> successes l = [].
Proof.
  induction l as [|s l IH]; intros H; [reflexivity|].
  rewrite successes_cons, (H s) by (left). simpl.
  apply IH. intros s' Hs'. apply H. now right.
Qed.

Lemma failures_none_failed (l : list Scraper) :
  (forall s, s ∈ l -> succeeded s = true) -> failures l = [].
Proof.
  induction l as [|s l IH]; intros H; [reflexivity|].
  rewrite failures_cons. pose proof (H s ltac:(left)) as Hs.
  unfold succeeded in Hs. destruct (snd (Scrape s)); [discriminate|].
  apply IH. intros s' Hs'. apply H. now right.
Qed.

Lemma failures_length_all_failed (l : list Scraper) :
  (forall s, s ∈ l -> succeeded s = false) -> length (failures l) = length l.
Proof.
  induction l as [|s l IH]; intros H; [reflexivity|].
  rewrite failures_cons. pose proof (H s ltac:(left)) as Hs.
  unfold succeeded in Hs. destruct (snd (Scrape s)); [|discriminate].
  simpl. f_equal. apply IH. intros s' Hs'. apply H. now right.
Qed.

(** Merging a non-empty list of errors gives an error whose message
    holds the message of each. *)
Lemma combine_from (errs : list error) (c : error) :
  exists e, foldl combine (Some c) errs = Some e /\
            occursIn (goerrors.Error c) (goerrors.Error e) /\
            forall x, x ∈ errs -> occursIn (goerrors.Error x) (goerrors.Error e).
Proof.
  revert c; induction errs as [|y errs IH]; intros c.
  - exists c. split; [reflexivity|]. split; [apply occursIn_refl|].
    intros x Hx. inversion Hx.
  - simpl. destruct (IH (wrapError (goerrors.Error c +:+ "; " +:+ goerrors.Error y) y))
      as (e & He & Hc & Hall).
    exists e. split; [exact He|]. simpl in Hc. split.
    + eapply occursIn_trans; [|exact Hc].
      apply occursIn_app_l, occursIn_refl.
    + intros x [->|Hx]%elem_of_cons; [|now apply Hall].
      eapply occursIn_trans; [|exact Hc].
      apply occursIn_app_r, occursIn_app_r, occursIn_refl.
Qed.

Lemma combine_spec (errs : list error) :
  errs <> [] ->
  exists e, foldl combine None errs = Some e /\
            forall x, x ∈ errs -> occursIn (goerrors.Error x) (goerrors.Error e).
Proof.
  destruct errs as [|c errs]; [congruence|]. intros _. simpl.
  destruct (combine_from errs c) as (e & He & Hc & Hall).
  exists e. split; [exact He|].
  intros x [->|Hx]%elem_of_cons; auto.
Qed.

(** The message of a failed adapter is part of its wrapped error. *)
Lemma scraperError_message (s : Scraper) (err : error) :
  occursIn (goerrors.Error err) (goerrors.Error (scraperError s err)).
Proof.
  unfold scraperError. simpl.
  apply occursIn_app_r, occursIn_app_r, occursIn_refl.
Qed.

Lemma failures_elem (l : list Scraper) (s : Scraper) (err : error) :
  s ∈ l -> snd (Scrape s) = Some err -> scraperError s err ∈ failures l.
Proof.
  intros Hs He. unfold failures. apply list_elem_of_omap.
  exists s. split; [exact Hs|]. now rewrite He.
Qed.

(** [ScrapeAll] always returns: the order of the manager's list is one
    possible order. *)
Lemma ScrapeAll_returns (m : Manager) : ScrapeAll m (ScrapeAll_in (launched m)).
Proof. exists (launched m). split; reflexivity. Qed.

(** With no failure, or with at least one review, the call succeeds. *)
Lemma ScrapeAll_in_success (done : list Scraper) :
  successes done <> [] \/ failures done = [] ->
  ScrapeAll_in done = (successes done, None).
Proof.
  intros H. unfold ScrapeAll_in, finish. rewrite join_spec.
  destruct H as [H|H].
  - destruct (successes done); [congruence|reflexivity].
  - rewrite H. simpl. now rewrite andb_false_r.
Qed.

(** With no review and at least one failure, the call fails with the
    merged error. *)
Lemma ScrapeAll_in_failure (done : list Scraper) :
  successes done = [] -> failures done <> [] ->
  ScrapeAll_in done = ([], foldl combine None (failures done)).
Proof.
  intros H1 H2. unfold ScrapeAll_in, finish. rewrite join_spec, H1.
  destruct (failures done); [congruence|reflexivity].
Qed.

Lemma Permutation_nil_iff {A} (l1 l2 : list A) : l1 ≡ₚ l2 -> l1 = [] <-> l2 = [].
Proof.
  intros H. split; intros ->.
  - now apply Permutation_nil_l in H.
  - now apply Permutation_nil_r in H.
Qed.

End scraper_facts.

(** ** Claims on [ScrapeAll] *)

Module scraper_claims.
Import scraper gostrings scraper_facts samples.

(** C1 (as amended).  When the adapters that returned without error
    brought back at least one review between them, or when no adapter
    failed, [ScrapeAll] returns a nil error and exactly the reviews of the
    successful adapters: block by block in the order [done] in which the
    adapters finished, hence the same reviews, each as often, as the
    successful adapters hold in the manager's order. *)
Theorem ScrapeAll_partial_failure (m : Manager) (out : list models.Review * option error) :
  ScrapeAll m out ->
  successes (launched m) <> [] \/ failures (launched m) = [] ->
  snd out = None /\
  fst out ≡ₚ successes (launched m) /\
  exists done, done ≡ₚ launched m /\ fst out = successes done.
Proof.
  intros (done & Hperm & ->) H.
  assert (Hd : successes done <> [] \/ failures done = []).
  { destruct H as [H|H]; [left|right].
    - intros Hnil. apply H.
      now apply (Permutation_nil_iff _ _ (successes_Permutation _ _ Hperm)).
    - now apply (Permutation_nil_iff _ _ (failures_Permutation _ _ Hperm)). }
  rewrite (ScrapeAll_in_success done Hd). simpl.
  split; [reflexivity|]. split; [now apply successes_Permutation|].
  exists done. now split.
Qed.

Lemma ScrapeAll_partial_failure_witness :
  snd (ScrapeAll_in (launched workingAndFailing)) = None /\
  fst (ScrapeAll_in (launched workingAndFailing)) ≡ₚ [crashReview].
Proof.
  destruct (ScrapeAll_partial_failure workingAndFailing _
              (ScrapeAll_returns workingAndFailing)) as (H1 & H2 & _).
  - left. vm_compute. discriminate.
  - split; [exact H1 | exact H2].
Defined.

(** C1 as stated fails: one adapter returns no review and no error, the
    other fails; whatever the order, the call returns the failure. *)
Lemma ScrapeAll_empty_success_is_failure :
  launched emptyAndFailing = [emptyAdapter; failingAdapter] /\
  succeeded emptyAdapter = true /\ succeeded failingAdapter = false /\
  forall out, ScrapeAll emptyAndFailing out ->
    out = ([], Some (wrapError "Twitter scraper error: rate limited"
                               (errorString "rate limited"))).
Proof.
  split; [reflexivity|]. split; [reflexivity|]. split; [reflexivity|].
  intros out (done & Hperm & ->).
  pose proof (successes_Permutation _ _ Hperm) as Hs.
  pose proof (failures_Permutation _ _ Hperm) as Hf.
  change (successes (launched emptyAndFailing)) with (@nil models.Review) in Hs.
  change (failures (launched emptyAndFailing))
    with [scraperError failingAdapter (errorString "rate limited")] in Hf.
  apply Permutation_nil_r in Hs. apply Permutation_singleton_r in Hf.
  rewrite ScrapeAll_in_failure by (rewrite ?Hf; congruence).
  rewrite Hf. reflexivity.
Qed.

(** C6.  When at least one adapter is enabled and every enabled adapter
    fails, [ScrapeAll] returns no review and one error, and the message of
    that error holds the message of every adapter's failure. *)
Theorem ScrapeAll_total_failure (m : Manager) (out : list models.Review * option error) :
  ScrapeAll m out ->
  launched m <> [] ->
  (forall s, s ∈ launched m -> succeeded s = false) ->
  fst out = [] /\
  exists e, snd out = Some e /\
    forall s err, s ∈ launched m -> snd (Scrape s) = Some err ->
      occursIn (goerrors.Error err) (goerrors.Error e).
Proof.
  intros (done & Hperm & ->) Hne Hall.
  assert (Hall' : forall s, s ∈ done -> succeeded s = false).
  { intros s Hs. apply Hall. now rewrite <- Hperm. }
  assert (Hf : failures done <> []).
  { intros Hnil. apply (f_equal length) in Hnil.
    rewrite failures_length_all_failed in Hnil by exact Hall'.
    apply Hne. apply Permutation_length in Hperm.
    destruct (launched m); [reflexivity|]. simpl in *. lia. }
  rewrite (ScrapeAll_in_failure done (successes_all_failed done Hall') Hf). simpl.
  split; [reflexivity|].
  destruct (combine_spec (failures done) Hf) as (e & He & Hin).
  exists e. split; [exact He|].
  intros s err Hs Herr.
  eapply gostrings_facts.occursIn_trans; [apply (scraperError_message s)|].
  apply Hin, failures_elem; [now rewrite Hperm | exact Herr].
Qed.

Lemma ScrapeAll_total_failure_witness :
  fst (ScrapeAll_in (launched allFailing)) = [] /\
  exists e, snd (ScrapeAll_in (launched allFailing)) = Some e /\
    occursIn "rate limited" (goerrors.Error e) /\
    occursIn "context deadline exceeded" (goerrors.Error e).
Proof.
  destruct (ScrapeAll_total_failure allFailing _ (ScrapeAll_returns allFailing))
    as (H1 & e & He & Hin).
  - vm_compute. discriminate.
  - intros s Hs. vm_compute in Hs.
    apply elem_of_cons in Hs as [->|Hs]; [reflexivity|].
    apply elem_of_cons in Hs as [->|Hs]; [reflexivity|]. inversion Hs.
  - split; [exact H1|]. exists e. split; [exact He|]. split.
    + apply (Hin failingAdapter (errorString "rate limited")); [|reflexivity].
      vm_compute. left.
    + apply (Hin timedOutAdapter (errorString "context deadline exceeded"));
        [|reflexivity].
      vm_compute. right. left.
Defined.

End scraper_claims.

(** ** The classification engine: [Analyze] and its cache *)

Module analyzer_facts.
Import models analyzer gostrings_facts.

(** The cache is keyed by the content. *)
Lemma cacheKey_inj (r1 r2 : Review) : cacheKey r1 = cacheKey r2 -> Content r1 = Content r2.
Proof. apply Sprintf_x_inj. Qed.

Lemma store_lookup (a : Analyzer) (review : Review) (result : AnalysisResult) (k : string) :
  cache (store a review result) !! k
  = if decide (cacheKey review = k) then Some result else cache a !! k.
Proof. unfold store, cacheKey. cbn [withCache cache]. apply lookup_insert. Qed.

Section with_runtime.
Context {U : GoUnicode}.

(** No strategy reads the cache. *)
Lemma runStrategy_withCache (s : Strategy) (a : Analyzer)
    (c : gmap string AnalysisResult) (env : Env) (review : Review) :
  runStrategy s (withCache a c) env review = runStrategy s a env review.
Proof.
  destruct s; cbn [runStrategy]; [reflexivity..|].
  unfold analyzeLocal, findKeywords, scoreCategories.
  cbn [withCache keywordMap categoryMap]. reflexivity.
Qed.

(** *** Overlapping calls *)

Lemma overlapped_cases (a : Analyzer) (o : Overlapping) :
  overlapped a o = a \/
  exists raw,
    runStrategy (selectStrategy (config.Mode (config a))) a (envOf o) (otherReview o)
      = (raw, None) /\
    overlapped a o = store a (otherReview o) (postProcess (config a) (otherReview o) raw).
Proof.
  unfold overlapped.
  destruct (runStrategy _ a (envOf o) (otherReview o)) as [raw [e|]]; [now left|].
  right. now exists raw.
Qed.

(** Overlapping calls change the cache and nothing else. *)
Lemma interfered_frame (l : list Overlapping) (a : Analyzer) :
  foldl overlapped a l = withCache a (cache (foldl overlapped a l)).
Proof.
  revert a; induction l as [|o l IH]; intros a; [now destruct a|].
  cbn [foldl]. rewrite IH.
  destruct (overlapped_cases a o) as [->|(raw & _ & ->)]; reflexivity.
Qed.

Lemma interfered_config (l : list Overlapping) (a : Analyzer) :
  config (foldl overlapped a l) = config a.
Proof. now rewrite interfered_frame. Qed.

(** They never remove an entry. *)
Lemma interfered_stays (l : list Overlapping) (a : Analyzer) (k : string) :
  is_Some (cache a !! k) -> is_Some (cache (foldl overlapped a l) !! k).
Proof.
  revert a; induction l as [|o l IH]; intros a Hk; [exact Hk|].
  cbn [foldl]. apply IH.
  destruct (overlapped_cases a o) as [->|(raw & _ & ->)]; [exact Hk|].
  rewrite store_lookup. now case_decide.
Qed.

(** They leave the entries of other contents as they are. *)
Lemma interfered_lookup (l : list Overlapping) (a : Analyzer) (k : string) :
  (forall o, o ∈ l -> cacheKey (otherReview o) <> k) ->
  cache (foldl overlapped a l) !! k = cache a !! k.
Proof.
  revert a; induction l as [|o l IH]; intros a Hl; [reflexivity|].
  cbn [foldl]. rewrite IH by (intros o' Ho'; apply Hl; now right).
  destruct (overlapped_cases a o) as [->|(raw & _ & ->)]; [reflexivity|].
  rewrite store_lookup. rewrite decide_False; [reflexivity|]. apply Hl. now left.
Qed.

(** *** One call *)

Lemma Analyze_hit (a : Analyzer) (env : Env) (review : Review) (r : AnalysisResult) :
  cache a !! cacheKey review = Some r ->
  Analyze a env review = {| returned := (r, None); invoked := []; after := a |}.
Proof. unfold Analyze, cacheKey. now intros ->. Qed.

Lemma Analyze_miss_error (a : Analyzer) (env : Env) (review : Review)
    (raw : AnalysisResult) (e : error) :
  cache a !! cacheKey review = None ->
  runStrategy (selectStrategy (config.Mode (config a))) a env review = (raw, Some e) ->
  Analyze a env review =
    {| returned := (AnalysisResult_zero, Some e);
       invoked := [selectStrategy (config.Mode (config a))];
       after := a |}.
Proof. unfold Analyze, cacheKey. now intros -> ->. Qed.

Lemma Analyze_miss_ok (a : Analyzer) (env : Env) (review : Review)
    (raw : AnalysisResult) :
  cache a !! cacheKey review = None ->
  runStrategy (selectStrategy (config.Mode (config a))) a env review = (raw, None) ->
  Analyze a env review =
    {| returned := (postProcess (config a) review raw, None);
       invoked := [selectStrategy (config.Mode (config a))];
       after := store (foldl overlapped a (meanwhile env)) review
                      (postProcess (config a) review raw) |}.
Proof. unfold Analyze, cacheKey. now intros -> ->. Qed.

(** The three ways a call can go. *)
Lemma Analyze_cases (a : Analyzer) (env : Env) (review : Review) :
  (exists r, cache a !! cacheKey review = Some r /\
             Analyze a env review =
               {| returned := (r, None); invoked := []; after := a |}) \/
  (exists raw e, cache a !! cacheKey review = None /\
             runStrategy (selectStrategy (config.Mode (config a))) a env review
               = (raw, Some e) /\
             Analyze a env review =
               {| returned := (AnalysisResult_zero, Some e);
                  invoked := [selectStrategy (config.Mode (config a))];
                  after := a |}) \/
  (exists raw, cache a !! cacheKey review = None /\
             runStrategy (selectStrategy (config.Mode (config a))) a env review
               = (raw, None) /\
             Analyze a env review =
               {| returned := (postProcess (config a) review raw, None);
                  invoked := [selectStrategy (config.Mode (config a))];
                  after := store (foldl overlapped a (meanwhile env)) review
                                 (postProcess (config a) review raw) |}).
Proof.
  destruct (cache a !! cacheKey review) as [r|] eqn:Hc.
  - left. exists r. split; [reflexivity|]. now apply Analyze_hit.
  - right.
    destruct (runStrategy (selectStrategy (config.Mode (config a))) a env review)
      as [raw [e|]] eqn:Hs.
    + left. exists raw, e. repeat split. now apply Analyze_miss_error with raw.
    + right. exists raw. repeat split. now apply Analyze_miss_ok.
Qed.

(** A call changes the cache and nothing else. *)
Lemma Analyze_after (a : Analyzer) (env : Env) (review : Review) :
  after (Analyze a env review) = withCache a (cache (after (Analyze a env review))).
Proof.
  destruct (Analyze_cases a env review)
    as [(r' & _ & ->)|[(raw & e & _ & _ & ->)|(raw & _ & _ & ->)]];
    cbn [after]; try (now destruct a).
  unfold store. rewrite interfered_frame. reflexivity.
Qed.

Lemma Analyze_config (a : Analyzer) (env : Env) (review : Review) :
  config (after (Analyze a env review)) = config a.
Proof. now rewrite Analyze_after. Qed.

(** The cache has no eviction: a content that has an entry keeps one. *)
Lemma Analyze_stays (a : Analyzer) (env : Env) (review : Review) (k : string) :
  is_Some (cache a !! k) -> is_Some (cache (after (Analyze a env review)) !! k).
Proof.
  intros Hk.
  destruct (Analyze_cases a env review)
    as [(r' & _ & ->)|[(raw & e & _ & _ & ->)|(raw & _ & _ & ->)]];
    cbn [after]; try exact Hk.
  rewrite store_lookup. case_decide; [eauto|]. now apply interfered_stays.
Qed.

(** An entry stays as it is through a call that no call on its content
    overlaps. *)
Lemma Analyze_keeps (a : Analyzer) (env : Env) (review : Review)
    (k : string) (r : AnalysisResult) :
  (forall o, o ∈ meanwhile env -> cacheKey (otherReview o) <> k) ->
  cache a !! k = Some r -> cache (after (Analyze a env review)) !! k = Some r.
Proof.
  intros Hquiet Hk.
  destruct (Analyze_cases a env review)
    as [(r' & _ & ->)|[(raw & e & _ & _ & ->)|(raw & Hmiss & _ & ->)]];
    cbn [after]; try exact Hk.
  rewrite store_lookup. rewrite decide_False by congruence.
  now rewrite interfered_lookup.
Qed.

Lemma AnalyzeEach_keeps (events : list Event) (a : Analyzer)
    (k : string) (r : AnalysisResult) :
  (forall ev o, ev ∈ events -> o ∈ writers ev -> cacheKey (otherReview o) <> k) ->
  cache a !! k = Some r -> cache (AnalyzeEach a events) !! k = Some r.
Proof.
  revert a; induction events as [|ev events IH]; intros a Hquiet Hk; [exact Hk|].
  cbn [AnalyzeEach foldl]. apply IH.
  - intros ev' o Hev. apply Hquiet. now right.
  - assert (Hev : forall o, o ∈ writers ev -> cacheKey (otherReview o) <> k).
    { intros o. apply Hquiet. now left. }
    destruct ev as [env review|o]; cbn [happen writers] in Hev |- *.
    + now apply Analyze_keeps.
    + change (overlapped a o) with (foldl overlapped a [o]).
      rewrite interfered_lookup; [exact Hk|exact Hev].
Qed.

(** A result returned without error is the entry of its content when the
    call ends. *)
Lemma Analyze_returned_cached (a : Analyzer) (env : Env) (review : Review)
    (res : AnalysisResult) :
  returned (Analyze a env review) = (res, None) ->
  cache (after (Analyze a env review)) !! cacheKey review = Some res.
Proof.
  intros Hret.
  destruct (Analyze_cases a env review)
    as [(r & Hk & Heq)|[(raw & e & _ & _ & Heq)|(raw & _ & _ & Heq)]];
    rewrite Heq in Hret |- *; cbn [returned after] in Hret |- *.
  - now injection Hret as <-.
  - discriminate.
  - injection Hret as <-. rewrite store_lookup. now rewrite decide_True.
Qed.

Lemma postProcess_flags (cfg : config.AnalyzerConfig) (review : Review)
    (raw : AnalysisResult) :
  flagsAgree cfg (postProcess cfg review raw).
Proof. split; reflexivity. Qed.

Lemma interfered_flags (cfg : config.AnalyzerConfig) (l : list Overlapping) (a : Analyzer) :
  config a = cfg ->
  (forall k r, cache a !! k = Some r -> flagsAgree cfg r) ->
  forall k r, cache (foldl overlapped a l) !! k = Some r -> flagsAgree cfg r.
Proof.
  revert a; induction l as [|o l IH]; intros a Hcfg Hcache; [exact Hcache|].
  cbn [foldl].
  destruct (overlapped_cases a o) as [->|(raw & _ & ->)]; [now apply IH|].
  apply IH; [exact Hcfg|]. intros k r. rewrite store_lookup.
  case_decide; [|apply Hcache]. intros [= <-]. rewrite Hcfg. apply postProcess_flags.
Qed.

(** What holds of every analyzer a program can hold. *)
Lemma reachable_invariant (cfg : config.AnalyzerConfig) (a : Analyzer) :
  reachable cfg a ->
  config a = cfg /\
  forall k r, cache a !! k = Some r -> flagsAgree cfg r.
Proof.
  induction 1 as [|a env review Hr [Hcfg Hcache]].
  - split; [reflexivity|]. intros k r Hk. simpl in Hk.
    rewrite lookup_empty in Hk. discriminate.
  - split; [now rewrite Analyze_config|].
    intros k r.
    destruct (Analyze_cases a env review)
      as [(r' & _ & ->)|[(raw & e & _ & _ & ->)|(raw & Hmiss & _ & ->)]];
      cbn [after]; try apply Hcache.
    rewrite store_lookup. case_decide.
    + intros [= <-]. rewrite Hcfg. apply postProcess_flags.
    + now apply interfered_flags.
Qed.

(** The strategy of a call meets what [envOf] keeps of its environment. *)
Lemma runStrategy_envOf (s : Strategy) (a : Analyzer) (env : Env) (review : Review) :
  runStrategy s a
    (envOf {| otherReview := review; otherOrder := order env;
              otherExchange := openaiExchange env |}) review
  = runStrategy s a env review.
Proof. destruct s; reflexivity. Qed.

Lemma runStrategy_interfered (s : Strategy) (l : list Overlapping) (a : Analyzer)
    (env : Env) (review : Review) :
  runStrategy s (foldl overlapped a l) env review = runStrategy s a env review.
Proof. rewrite interfered_frame. apply runStrategy_withCache. Qed.

(** The analyzers a program can hold are the one [New] builds and what
    the writes of any calls, overlapping or not, make of it: a write that
    falls outside every call one looks at leads to such an analyzer too. *)
Lemma reachable_writes (cfg : config.AnalyzerConfig) (a : Analyzer) :
  reachable cfg a <-> exists l, a = foldl overlapped (New cfg) l.
Proof.
  split.
  - induction 1 as [|a env review Hr [l ->]]; [now exists []|].
    destruct (Analyze_cases (foldl overlapped (New cfg) l) env review)
      as [(r' & _ & ->)|[(raw & e & _ & _ & ->)|(raw & _ & Hs & ->)]];
      cbn [after]; [now exists l..|].
    exists (l ++ meanwhile env ++
            [{| otherReview := review; otherOrder := order env;
                otherExchange := openaiExchange env |}])%list.
    rewrite !foldl_app. cbn [foldl].
    set (a := foldl overlapped (New cfg) l) in *.
    set (a' := foldl overlapped a (meanwhile env)).
    assert (Hcfg : config a' = config a) by apply interfered_config.
    unfold overlapped. cbn [otherReview]. rewrite Hcfg.
    assert (Hrun : runStrategy (selectStrategy (config.Mode (config a))) a'
                     (envOf {| otherReview := review; otherOrder := order env;
                               otherExchange := openaiExchange env |}) review
                   = (raw, None)).
    { unfold a'. now rewrite runStrategy_interfered, runStrategy_envOf. }
    now rewrite Hrun.
  - intros [l ->]. induction l as [|o l IH] using rev_ind; [constructor|].
    rewrite foldl_app. cbn [foldl].
    destruct (overlapped_cases (foldl overlapped (New cfg) l) o) as [->|(raw & Hs & ->)];
      [exact IH|].
    rewrite interfered_config, runStrategy_interfered in Hs.
    rewrite interfered_config.
    pose proof (reachable_Analyze cfg (New cfg)
                  {| order := otherOrder o; openaiExchange := otherExchange o;
                     meanwhile := l |} (otherReview o) (reachable_New cfg)) as H.
    rewrite (Analyze_miss_ok _ _ _ raw) in H; [exact H|apply lookup_empty|exact Hs].
Qed.

(** An entry written or found by a call is found by every later call on
    the same content, as long as no call on that content that had missed
    the cache before writes in between. *)
Lemma Analyze_again (a : Analyzer) (env1 env2 : Env) (r1 r2 : Review)
    (res : AnalysisResult) (between : list Event) :
  returned (Analyze a env1 r1) = (res, None) ->
  Content r2 = Content r1 ->
  (forall ev o, ev ∈ between -> o ∈ writers ev ->
                Content (otherReview o) <> Content r1) ->
  Analyze (AnalyzeEach (after (Analyze a env1 r1)) between) env2 r2 =
    {| returned := (res, None); invoked := [];
       after := AnalyzeEach (after (Analyze a env1 r1)) between |}.
Proof.
  intros Hret Hcontent Hquiet. apply Analyze_hit.
  unfold cacheKey at 1. rewrite Hcontent. fold (cacheKey r1).
  apply AnalyzeEach_keeps; [|now apply Analyze_returned_cached].
  intros ev o Hev Ho Hkey. apply (Hquiet ev o Hev Ho). now apply cacheKey_inj.
Qed.

(** A result returned without error carries the flags of the thresholds. *)
Lemma Analyze_flagsAgree (cfg : config.AnalyzerConfig) (a : Analyzer) (env : Env)
    (review : Review) (res : AnalysisResult) :
  reachable cfg a ->
  returned (Analyze a env review) = (res, None) ->
  flagsAgree cfg res.
Proof.
  intros Hr Hret.
  destruct (reachable_invariant cfg a Hr) as [Hcfg Hcache].
  destruct (Analyze_cases a env review)
    as [(r & Hk & Heq)|[(raw & e & _ & _ & Heq)|(raw & _ & _ & Heq)]];
    rewrite Heq in Hret; simpl in Hret.
  - injection Hret as <-. eapply Hcache, Hk.
  - discriminate.
  - injection Hret as <-. rewrite Hcfg. apply postProcess_flags.
Qed.

End with_runtime.

End analyzer_facts.

Module analyzer_claims.
Import models analyzer analyzer_facts samples.

Section with_runtime.
Context {U : GoUnicode}.

(** C3.  On every analyzer a program can hold (built by [New] with the
    thresholds of [cfg], then used), a result that [Analyze] returns
    without error, computed or cached, has
    [IsNegative = (SentimentScore <= NegativeThreshold)] and
    [IsRelevant = (Confidence >= RelevanceThreshold)]; and the flags a
    strategy has set do not reach the result. *)
Theorem Analyze_flags (cfg : config.AnalyzerConfig) (a : Analyzer) (env : Env)
    (review : Review) (res : AnalysisResult) :
  reachable cfg a ->
  returned (Analyze a env review) = (res, None) ->
  IsNegative res = float64.leb (SentimentScore res) (config.NegativeThreshold cfg) /\
  IsRelevant res = float64.geb (Confidence res) (config.RelevanceThreshold cfg) /\
  forall raw isNegative isRelevant,
    postProcess cfg review (withFlags raw isNegative isRelevant)
    = postProcess cfg review raw.
Proof.
  intros Hr Hret.
  destruct (reachable_invariant cfg a Hr) as [Hcfg Hcache].
  assert (Hflags : flagsAgree cfg res).
  { destruct (Analyze_cases a env review)
      as [(r & Hk & Heq)|[(raw & e & _ & _ & Heq)|(raw & _ & _ & Heq)]];
      rewrite Heq in Hret; simpl in Hret.
    - injection Hret as <-. eapply Hcache, Hk.
    - discriminate.
    - injection Hret as <-. rewrite Hcfg. apply postProcess_flags. }
  destruct Hflags as [H1 H2]. split; [exact H1|]. split; [exact H2|].
  reflexivity.
Qed.

(** C4 (as amended).  Once a call of [Analyze] has returned a result
    without error, every later call on a review of the same content,
    straight after or after any other calls, returns that very result,
    invokes no strategy and leaves the analyzer as it is, as long as no
    call on that content which had read the cache before the result was
    stored writes its own result afterwards.  Calls that overlap the
    first one, on that content too, and later overlapping calls on other
    contents are allowed. *)
Theorem Analyze_twice (a : Analyzer) (env1 env2 : Env) (r1 r2 : Review)
    (res : AnalysisResult) (between : list Event) :
  returned (Analyze a env1 r1) = (res, None) ->
  Content r2 = Content r1 ->
  (forall ev o, ev ∈ between -> o ∈ writers ev ->
                Content (otherReview o) <> Content r1) ->
  let a2 := AnalyzeEach (after (Analyze a env1 r1)) between in
  returned (Analyze a2 env2 r2) = (res, None) /\
  invoked (Analyze a2 env2 r2) = [] /\
  after (Analyze a2 env2 r2) = a2.
Proof.
  intros Hret Hcontent Hquiet a2.
  assert (Hk : cache (after (Analyze a env1 r1)) !! cacheKey r1 = Some res)
    by now apply Analyze_returned_cached.
  assert (Hk2 : cache a2 !! cacheKey r2 = Some res).
  { unfold cacheKey at 1. rewrite Hcontent. fold (cacheKey r1).
    apply AnalyzeEach_keeps; [|exact Hk].
    intros ev o Hev Ho Hkey. apply (Hquiet ev o Hev Ho). now apply cacheKey_inj. }
  rewrite (Analyze_hit a2 env2 r2 res Hk2). simpl. auto.
Qed.

(** C9 (as amended).  Two reviews of the same content and different
    identifiers: when the call on the first computes a result (the cache
    had no entry for the content, a strategy is invoked and returns no
    error), a later call on the second returns that cached result, whose
    [ReviewID] is the identifier of the first review and not of the
    second, and invokes no strategy; this as long as no call on that
    content which had read the cache earlier writes its own result in
    between. *)
Theorem Analyze_cached_identifier (a : Analyzer) (env1 env2 : Env) (r1 r2 : Review)
    (between : list Event) :
  Content r2 = Content r1 ->
  ID r1 <> ID r2 ->
  invoked (Analyze a env1 r1) <> [] ->
  snd (returned (Analyze a env1 r1)) = None ->
  (forall ev o, ev ∈ between -> o ∈ writers ev ->
                Content (otherReview o) <> Content r1) ->
  let second := Analyze (AnalyzeEach (after (Analyze a env1 r1)) between) env2 r2 in
  returned second = returned (Analyze a env1 r1) /\
  snd (returned second) = None /\
  invoked second = [] /\
  ReviewID (fst (returned second)) = ID r1 /\
  ReviewID (fst (returned second)) <> ID r2.
Proof.
  intros Hcontent Hid Hinv Herr Hquiet second.
  destruct (Analyze_cases a env1 r1)
    as [(r & Hk & Heq)|[(raw & e & _ & _ & Heq)|(raw & Hmiss & Hs & Heq)]];
    rewrite Heq in Hinv, Herr; simpl in Hinv, Herr; try congruence.
  pose proof (Analyze_again a env1 env2 r1 r2 (postProcess (config a) r1 raw) between)
    as H.
  subst second. rewrite H; [|now rewrite Heq|exact Hcontent|exact Hquiet].
  rewrite Heq. simpl. auto.
Qed.


End with_runtime.

End analyzer_claims.

(** ** The local strategy *)

Module local_facts.
Import models analyzer gostrings.

Lemma countLoop_nonneg (fuel : nat) (s substr : string) : 0 <= countLoop fuel s substr.
Proof.
  revert s; induction fuel as [|fuel IH]; intros s; simpl; [lia|].
  destruct (indexOf s substr); [|lia]. specialize (IH (drop (n + String.length substr) s)). lia.
Qed.

(** [strings.Split] returns one piece more than [strings.Count] counts. *)
Lemma genSplit_length (fuel : nat) (s sep : string) :
  Z.of_nat (length (genSplit fuel s sep)) - 1 = countLoop fuel s sep.
Proof.
  revert s; induction fuel as [|fuel IH]; intros s; simpl; [reflexivity|].
  destruct (indexOf s sep) as [m|]; [|reflexivity].
  simpl length. rewrite <- IH. lia.
Qed.

Lemma occurrences_nonneg (text : string) (words : list string) :
  0 <= occurrences text words.
Proof.
  induction words as [|w words IH]; simpl; [lia|].
  pose proof (countLoop_nonneg (String.length text) text w). unfold Count. lia.
Qed.

Section with_runtime.
Context {U : GoUnicode}.

Lemma countOccurrences_Count (text word : string) :
  word <> "" -> countOccurrences text word = Count text word.
Proof.
  intros Hw. unfold countOccurrences, Split, Count.
  destruct word as [|c word]; [congruence|]. apply genSplit_length.
Qed.

Lemma countWords_from (text : string) (words : list string) (count : Z) :
  Forall (fun w => w <> "") words ->
  foldl (fun count word => count + countOccurrences text word) count words
  = count + occurrences text words.
Proof.
  revert count; induction words as [|w words IH]; intros count Hne; simpl; [lia|].
  apply Forall_cons in Hne as [Hw Hne].
  rewrite IH by exact Hne. rewrite countOccurrences_Count by exact Hw. lia.
Qed.

Lemma countWords_occurrences (text : string) (words : list string) :
  Forall (fun w => w <> "") words -> countWords text words = occurrences text words.
Proof. intros H. unfold countWords. now rewrite countWords_from. Qed.

End with_runtime.

Lemma positiveWords_nonempty : Forall (fun w => w <> "") positiveWords.
Proof. repeat constructor; discriminate. Qed.

Lemma negativeWords_nonempty : Forall (fun w => w <> "") negativeWords.
Proof. repeat constructor; discriminate. Qed.

Lemma lexicalScore_cases (p n : Z) :
  0 <= p -> 0 <= n ->
  lexicalScore p n =
  if (p =? 0) && (n =? 0) then float64.zero
  else float64.div (float64.of_int (p - n)) (float64.of_int (p + n)).
Proof.
  intros Hp Hn. unfold lexicalScore.
  destruct (0 <? p + n) eqn:Ht, (p =? 0) eqn:H1, (n =? 0) eqn:H2; simpl;
    try reflexivity; lia.
Qed.

(** *** Keywords *)

Lemma contains_false (slice : list string) (s : string) :
  contains slice s = false <-> s ∉ slice.
Proof.
  unfold contains. induction slice as [|x slice IH]; simpl.
  - split; [intros _ H; inversion H|reflexivity].
  - rewrite orb_false_iff, IH, not_elem_of_cons, String.eqb_neq.
    split; intros [H1 H2]; split; congruence.
Qed.

Lemma addProduct_spec (content : string) (products keywords : list string) :
  NoDup keywords ->
  NoDup (foldl (addProduct content) keywords products) /\
  forall k, k ∈ foldl (addProduct content) keywords products <->
            k ∈ keywords \/ (k ∈ products /\ Contains content k = true).
Proof.
  revert keywords; induction products as [|p products IH]; intros keywords Hnd; simpl.
  - split; [exact Hnd|]. intros k. split; [auto|].
    intros [H|[H _]]; [exact H|inversion H].
  - unfold addProduct at 2 4.
    destruct (Contains content p) eqn:Hc, (contains keywords p) eqn:Hk; simpl.
    + destruct (IH keywords Hnd) as [H1 H2]. split; [exact H1|].
      intros k. rewrite H2, elem_of_cons.
      assert (Hp : p ∈ keywords).
      { destruct (decide (p ∈ keywords)) as [H|H]; [exact H|].
        apply contains_false in H. congruence. }
      split.
      * intros [H|[H H']]; auto.
      * intros [H|[[->|H] H']]; auto.
    + apply contains_false in Hk.
      assert (Hnd' : NoDup (keywords ++ [p])).
      { apply NoDup_app. split; [exact Hnd|]. split; [|apply NoDup_singleton].
        intros x Hx Hx'. apply list_elem_of_singleton in Hx'. congruence. }
      destruct (IH _ Hnd') as [H1 H2]. split; [exact H1|].
      intros k. rewrite H2, elem_of_app, list_elem_of_singleton, elem_of_cons.
      split.
      * intros [[H| ->]|[H H']]; auto.
      * intros [H|[[->|H] H']]; auto.
    + destruct (IH keywords Hnd) as [H1 H2]. split; [exact H1|].
      intros k. rewrite H2, elem_of_cons. split.
      * intros [H|[H H']]; auto.
      * intros [H|[[->|H] H']]; auto. congruence.
    + destruct (IH keywords Hnd) as [H1 H2]. split; [exact H1|].
      intros k. rewrite H2, elem_of_cons. split.
      * intros [H|[H H']]; auto.
      * intros [H|[[->|H] H']]; auto. congruence.
Qed.

(** The keyword list holds each matched keyword once: the configured
    keywords and the product names that occur in [content]. *)
Lemma findKeywords_spec (a : Analyzer) (ord : RangeOrder) (content : string) :
  (forall l, rangeKeywords ord l ≡ₚ l) ->
  NoDup (findKeywords a ord content) /\
  forall k, k ∈ findKeywords a ord content <->
            (k ∈ keywordMap a \/ k ∈ infobloxProducts) /\ Contains content k = true.
Proof.
  intros Hfair. unfold findKeywords.
  set (configured := filter _ _).
  assert (Hnd : NoDup configured).
  { subst configured. apply NoDup_filter. rewrite Hfair. apply NoDup_elements. }
  assert (Hin : forall k, k ∈ configured <->
                          k ∈ keywordMap a /\ Contains content k = true).
  { intros k. subst configured. rewrite list_elem_of_filter, Hfair, elem_of_elements.
    tauto. }
  destruct (addProduct_spec content infobloxProducts configured Hnd) as [H1 H2].
  split; [exact H1|].
  intros k. rewrite H2, Hin. tauto.
Qed.

(** *** Confidence *)

Lemma scaled_not_nan (n : Z) :
  float64.is_nan (float64.div (float64.of_int n) float64.c10_0) = false.
Proof.
  apply float64_facts.div_finite_not_nan, float64_facts.of_int_not_nan.
Qed.

Lemma confidenceFor_range (n : Z) :
  0 < n ->
  float64.leb float64.c0_3 (confidenceFor n) = true /\
  float64.leb (confidenceFor n) float64.c1_0 = true.
Proof.
  intros Hn. unfold confidenceFor.
  replace (0 <? n) with true by (symmetry; now apply Z.ltb_lt).
  set (c := float64.div (float64.of_int n) float64.c10_0).
  pose proof (scaled_not_nan n) as Hnan. fold c in Hnan.
  unfold float64.gtb.
  destruct (SFltb float64.c1_0 c) eqn:Hhi; [split; reflexivity|].
  destruct (float64.ltb c float64.c0_3) eqn:Hlo; [split; reflexivity|].
  split.
  - apply float64_facts.not_ltb_leb; [exact Hnan|reflexivity|exact Hlo].
  - apply float64_facts.not_ltb_leb; [reflexivity|exact Hnan|exact Hhi].
Qed.

Lemma leb_zero_of_leb_c0_3 (x : float64.t) :
  float64.leb float64.c0_3 x = true -> float64.leb float64.zero x = true.
Proof.
  destruct x as [s|s| |s m e]; try destruct s; intros H;
    first [reflexivity | discriminate H].
Qed.

End local_facts.

Module local_claims.
Import models analyzer gostrings local_facts samples.

Section with_runtime.
Context {U : GoUnicode}.

(** C5 (as amended).  The local strategy computes its lexical sentiment
    over the lower-cased content alone: with [p] and [n] the numbers of
    occurrences in that text of the words of the positive and of the
    negative list, the score is [(p - n) / (p + n)], or [0] when both
    are zero.  The sentiment of the result is that score, amplified and
    blended with the rating; the title is never read. *)
Theorem lexical_sentiment_of_content (review : Review) :
  let text := ToLower (Content review) in
  let p := occurrences text positiveWords in
  let n := occurrences text negativeWords in
  0 <= p /\ 0 <= n /\
  lexicalSentiment review =
    (if (p =? 0) && (n =? 0) then float64.zero
     else float64.div (float64.of_int (p - n)) (float64.of_int (p + n))) /\
  (forall a ord,
     SentimentScore (fst (analyzeLocal a ord review)) =
     blendRating (Rating review) (amplify (Content review) (lexicalSentiment review))) /\
  (forall a ord title,
     analyzeLocal a ord (withTitle review title) = analyzeLocal a ord review).
Proof.
  intros text p n.
  pose proof (occurrences_nonneg text positiveWords) as Hp.
  pose proof (occurrences_nonneg text negativeWords) as Hn.
  split; [exact Hp|]. split; [exact Hn|]. split.
  - unfold lexicalSentiment.
    rewrite (countWords_occurrences _ _ positiveWords_nonempty).
    rewrite (countWords_occurrences _ _ negativeWords_nonempty).
    now apply lexicalScore_cases.
  - split.
    + intros a ord. unfold analyzeLocal, lexicalSentiment.
      cbn [fst SentimentScore]. reflexivity.
    + intros a ord title. unfold analyzeLocal, withTitle.
      cbn [Content Rating]. reflexivity.
Qed.

(** C8.  The confidence of the local strategy is computed from the
    number [n] of keywords matched, each counted once: [0.5] when
    [n = 0]; otherwise [n / 10], replaced by [1.0] when above [1.0] and
    by [0.3] when below [0.3], hence a value of [[0.3, 1.0]].  In every
    case it lies in [[0, 1]]. *)
Theorem confidence_of_keyword_count (a : Analyzer) (ord : RangeOrder) (review : Review) :
  fairRange ord ->
  let result := fst (analyzeLocal a ord review) in
  let n := Z.of_nat (length (Keywords result)) in
  let scaled := float64.div (float64.of_int n) float64.c10_0 in
  NoDup (Keywords result) /\
  (forall k, k ∈ Keywords result <->
             (k ∈ keywordMap a \/ k ∈ infobloxProducts) /\
             Contains (ToLower (Content review)) k = true) /\
  (n = 0 -> Confidence result = float64.c0_5) /\
  (0 < n ->
     Confidence result =
       (if float64.gtb scaled float64.c1_0 then float64.c1_0
        else if float64.ltb scaled float64.c0_3 then float64.c0_3
        else scaled) /\
     float64.leb float64.c0_3 (Confidence result) = true /\
     float64.leb (Confidence result) float64.c1_0 = true) /\
  float64.leb float64.zero (Confidence result) = true /\
  float64.leb (Confidence result) float64.c1_0 = true.
Proof.
  intros [Hfair _] result n scaled.
  destruct (findKeywords_spec a ord (ToLower (Content review)) Hfair) as [Hnd Hin].
  split; [exact Hnd|]. split; [exact Hin|].
  assert (Hconf : Confidence result = confidenceFor n).
{ subst result n. unfold analyzeLocal. cbn [fst Confidence Keywords]. reflexivity. }
rewrite !Hconf.
  split; [now intros ->|]. split.
  - intros Hn. split; [|now apply confidenceFor_range].
    unfold confidenceFor.
    now replace (0 <? n) with true by (symmetry; now apply Z.ltb_lt).
  - destruct (Z.lt_ge_cases 0 n) as [Hn|Hn].
    + destruct (confidenceFor_range n Hn) as [H1 H2].
      split; [now apply leb_zero_of_leb_c0_3|exact H2].
    + unfold confidenceFor.
      replace (0 <? n) with false by (symmetry; apply Z.ltb_ge; lia).
      split; reflexivity.
Qed.

End with_runtime.

Lemma listingOrder_fair : fairRange listingOrder.
Proof. split; reflexivity. Qed.

Lemma confidence_of_keyword_count_witness :
  let result := fst (@analyzeLocal asciiText
                       (@New asciiText (analyzerConfig "local"))
                       listingOrder crashReview) in
  Keywords result = ["support"; "crash"; "dhcp"] /\
  Confidence result = float64.c0_3 /\
  float64.leb float64.c0_3 (Confidence result) = true /\
  float64.leb (Confidence result) float64.c1_0 = true.
Proof.
  intros result.
  destruct (@confidence_of_keyword_count asciiText
              (@New asciiText (analyzerConfig "local")) listingOrder crashReview
              listingOrder_fair) as (_ & _ & _ & H & _).
  destruct H as (_ & H1 & H2); [vm_compute; reflexivity|].
  split; [vm_compute; reflexivity|]. split; [vm_compute; reflexivity|].
  split; [exact H1 | exact H2].
Defined.

(** C5 as stated fails: a review whose title holds a positive word and
    whose content holds none.  The program scores the content alone and
    gives [0]; over title and content the score would be [1]. *)
Lemma lexical_sentiment_ignores_title :
  Title titledReview = "great" /\ Content titledReview = "tool" /\
  @lexicalSentiment asciiText titledReview = float64.zero /\
  SentimentScore (fst (@analyzeLocal asciiText
                         (@New asciiText (analyzerConfig "local"))
                         listingOrder titledReview)) = float64.zero /\
  @lexicalSentiment_spec asciiText titledReview = float64.c1_0 /\
  @lexicalSentiment asciiText titledReview <> @lexicalSentiment_spec asciiText titledReview.
Proof.
  split; [reflexivity|]. split; [reflexivity|].
  split; [vm_compute; reflexivity|]. split; [vm_compute; reflexivity|].
  split; [vm_compute; reflexivity|]. vm_compute. discriminate.
Qed.

End local_claims.

(** ** The routing engine *)

Module router_facts.
Import models router.

Lemma lookupCategory_registered (r : Router) (category : string) (d : Department.t) :
  lookupCategory r category = Some d -> exists k, departments r !! k = Some d.
Proof.
  unfold lookupCategory. destruct (mappingCache r !! category) as [k|]; [|discriminate].
  intros H. now exists k.
Qed.

Lemma firstMapped_registered (r : Router) (scores : list (string * float64.t))
    (d : Department.t) :
  firstMapped r scores = Some d -> exists k, departments r !! k = Some d.
Proof.
  induction scores as [|cs scores IH]; simpl; [discriminate|].
  destruct (lookupCategory r (fst cs)) as [d'|] eqn:Hl; [|exact IH].
  intros [= <-]. now apply lookupCategory_registered with (fst cs).
Qed.

(** [Route] returns a registered department or the ultimate fallback. *)
Lemma Route_registered (r : Router) ranked (analysis : AnalysisResult) :
  Route r ranked analysis = ultimateFallback \/
  exists k, departments r !! k = Some (Route r ranked analysis).
Proof.
  unfold Route.
  destruct (lookupCategory r (IntentCategory analysis)) as [d|] eqn:H1.
  { right. now apply lookupCategory_registered with (IntentCategory analysis). }
  destruct (firstMapped r _) as [d|] eqn:H2.
  { right. now apply firstMapped_registered in H2. }
  destruct (departments r !! config.DefaultDepartment (config r)) as [d|] eqn:H3.
  { right. eauto. }
  destruct (departments r !! "support") as [d|] eqn:H4.
  { right. eauto. }
  now left.
Qed.

Lemma register_lookup (l : list Department.t) (m : gmap string Department.t)
    (k : string) (d : Department.t) :
  foldl (fun (depts : gmap string Department.t) d => <[Department.ID d := d]> depts) m l
    !! k = Some d ->
  (d ∈ l /\ Department.ID d = k) \/ m !! k = Some d.
Proof.
  revert m; induction l as [|x l IH]; intros m; simpl; [now right|].
  intros [[Hin Hk]|H]%IH.
  - left. split; [now right|exact Hk].
  - rewrite lookup_insert in H. case_decide as Hx; [|now right].
    injection H as <-. left. split; [now left|exact Hx].
Qed.

Lemma New_departments (cfg : config.RouterConfig) (k : string) (d : Department.t) :
  departments (New cfg) !! k = Some d -> d ∈ defaultDepartments /\ Department.ID d = k.
Proof.
  unfold New. cbn [departments].
  intros [H|H]%register_lookup; [exact H|].
  rewrite lookup_empty in H. discriminate.
Qed.

Lemma New_allNamed (cfg : config.RouterConfig) : allNamed (New cfg).
Proof.
  intros k d [Hin _]%New_departments.
  unfold defaultDepartments in Hin.
  repeat (apply elem_of_cons in Hin as [->|Hin]; [discriminate|]).
  inversion Hin.
Qed.

Lemma AddDepartment_allNamed (r : Router) (d : Department.t) :
  allNamed r -> Department.ID d <> "" -> allNamed (AddDepartment r d).
Proof.
  intros Hr Hd k d'. cbn [AddDepartment departments].
  rewrite lookup_insert. case_decide; [now intros [= <-]|apply Hr].
Qed.

Lemma UpdateMapping_allNamed (r : Router) (category departmentID : string) :
  allNamed r -> allNamed (UpdateMapping r category departmentID).
Proof. intros Hr k d. apply Hr. Qed.

Lemma reachableNamed_allNamed (r : Router) : reachableNamed r -> allNamed r.
Proof.
  induction 1; auto using New_allNamed, AddDepartment_allNamed, UpdateMapping_allNamed.
Qed.

End router_facts.

Module router_claims.
Import models router router_facts samples.

(** C2 (as amended).  [Route] returns a department for every analysis,
    every ranking of its scores and every router.  On a router all of
    whose registered departments carry an identifier (the routers built
    by [New] and extended by [UpdateMapping] and by [AddDepartment] of
    departments with an identifier are such) the identifier of the
    returned department is not empty.  When the direct lookup, the ranked
    lookup, the configured default and the registered ["support"]
    department all fail, the hard-coded support department is
    returned. *)
Theorem Route_total (r : Router) ranked (analysis : AnalysisResult) :
  allNamed r ->
  Department.ID (Route r ranked analysis) <> "" /\
  (lookupCategory r (IntentCategory analysis) = None ->
   firstMapped r (ranked (map_to_list (CategoryScores analysis))) = None ->
   departments r !! config.DefaultDepartment (config r) = None ->
   departments r !! "support" = None ->
   Route r ranked analysis = ultimateFallback).
Proof.
  intros Hnamed. split.
  - destruct (Route_registered r ranked analysis) as [->|[k Hk]].
    + discriminate.
    + now apply (Hnamed k).
  - intros H1 H2 H3 H4. unfold Route. now rewrite H1, H2, H3, H4.
Qed.

End router_claims.

Module router_witnesses.
Import models router router_facts router_claims samples.

Lemma Route_total_witness :
  Department.ID (Route (New (routerConfig "")) (fun l => l) (analysis "unknown" ∅)) <> "" /\
  Route zeroRouter (fun l => l) (analysis "unknown" ∅) = ultimateFallback.
Proof.
  split.
  - apply (Route_total (New (routerConfig "")) (fun l => l) (analysis "unknown" ∅)),
      New_allNamed.
  - apply (Route_total zeroRouter (fun l => l) (analysis "unknown" ∅)).
    + intros k d H. vm_compute in H. discriminate.
    + reflexivity.
    + reflexivity.
    + reflexivity.
    + reflexivity.
Defined.

(** C2 as stated fails: a department registered without an identifier,
    on a router whose configuration names no default department, is what
    [Route] returns for an analysis of an unknown category. *)
Lemma Route_unnamed_department :
  reachable (AddDepartment (New (routerConfig "")) unnamedDepartment) /\
  Route (AddDepartment (New (routerConfig "")) unnamedDepartment) (fun l => l)
        (analysis "unknown" ∅) = unnamedDepartment /\
  Department.ID (Route (AddDepartment (New (routerConfig "")) unnamedDepartment)
                       (fun l => l) (analysis "unknown" ∅)) = "".
Proof.
  split; [apply reachable_AddDepartment, reachable_New|].
  split; vm_compute; reflexivity.
Qed.

(** C7.  When the mapping table maps the intent category of the analysis
    to a registered department, [Route] returns that department, whatever
    the category scores and their ranking. *)
Theorem Route_direct (r : Router) ranked (analysis : AnalysisResult)
    (departmentID : string) (dept : Department.t) :
  mappingCache r !! IntentCategory analysis = Some departmentID ->
  departments r !! departmentID = Some dept ->
  Route r ranked analysis = dept /\
  forall scores ranked', Route r ranked' (analyzer.withScores analysis scores) = dept.
Proof.
  intros Hm Hd.
  assert (Hl : lookupCategory r (IntentCategory analysis) = Some dept).
  { unfold lookupCategory. now rewrite Hm. }
  split; [|intros scores ranked']; unfold Route; cbn [IntentCategory analyzer.withScores];
    now rewrite Hl.
Qed.

Lemma Route_direct_witness :
  Department.ID
    (Route (New (routerConfig "support")) (fun l => l)
           (analysis "security" {[ "performance" := float64.c1_0 ]})) = "security".
Proof.
  destruct (Route_direct (New (routerConfig "support")) (fun l => l)
              (analysis "security" {[ "performance" := float64.c1_0 ]})
              "security"
              (department "security" "Security Team" "security@infoblox.com" ["security"]))
    as [H _].
  - vm_compute. reflexivity.
  - vm_compute. reflexivity.
  - rewrite H. reflexivity.
Defined.

End router_witnesses.

Module analyzer_witnesses.
Import models analyzer analyzer_facts analyzer_claims samples.

Lemma Analyze_flags_witness :
  let res := fst (returned (@Analyze asciiText usedAnalyzer offline sameTextReview)) in
  IsNegative res = true /\ IsRelevant res = true.
Proof.
  intros res.
  destruct (@Analyze_flags asciiText (analyzerConfig "local") usedAnalyzer offline
              sameTextReview res) as (H1 & H2 & _).
  - apply (@reachable_Analyze asciiText), (@reachable_New asciiText).
  - vm_compute. reflexivity.
  - rewrite H1, H2. split; vm_compute; reflexivity.
Defined.

(** C4 fails on the code as it is worded.  A first call whose strategy
    returns an error stores nothing, so the second call invokes the
    strategy again.  And a result returned once is not returned for ever:
    another goroutine that analyses a review of the same content, and
    read the cache before the first result was stored, stores its own
    result later (here while a third review is analysed), and the next
    call returns that one. *)
Lemma Analyze_twice_differs :
  invoked (@Analyze asciiText
             (after (@Analyze asciiText (@New asciiText (analyzerConfig "google"))
                       offline crashReview))
             offline crashReview) = [Google] /\
  returned (@Analyze asciiText freshAnalyzer offline crashReview)
  <> returned (@Analyze asciiText
                 (@AnalyzeEach asciiText
                    (after (@Analyze asciiText freshAnalyzer offline crashReview))
                    [Written (overlapping sameTextReview)])
                 offline crashReview).
Proof.
  split; [vm_compute; reflexivity|].
  intros H. apply (f_equal (fun x => ReviewID (fst x))) in H.
  vm_compute in H. discriminate.
Qed.

Lemma Analyze_twice_witness :
  invoked (@Analyze asciiText
             (@AnalyzeEach asciiText
                (after (@Analyze asciiText freshAnalyzer (during laterTextReview)
                          crashReview))
                [Called (during titledReview) slowReview; Written (overlapping titledReview)])
             offline sameTextReview) = [] /\
  ReviewID (fst (returned (@Analyze asciiText
             (@AnalyzeEach asciiText
                (after (@Analyze asciiText freshAnalyzer (during laterTextReview)
                          crashReview))
                [Called (during titledReview) slowReview; Written (overlapping titledReview)])
             offline sameTextReview))) = "trustpilot_1".
Proof.
  destruct (@Analyze_twice asciiText freshAnalyzer (during laterTextReview) offline
              crashReview sameTextReview
              (fst (returned (@Analyze asciiText freshAnalyzer offline crashReview)))
              [Called (during titledReview) slowReview; Written (overlapping titledReview)]) as (H1 & H2 & _).
  - vm_compute. reflexivity.
  - reflexivity.
  - intros ev o Hev Ho.
    repeat (apply elem_of_cons in Hev as [->|Hev];
            [apply list_elem_of_singleton in Ho; subst o; vm_compute; discriminate|]).
    inversion Hev.
  - split; [exact H2|]. rewrite H1. vm_compute. reflexivity.
Defined.

(** C9 fails on the code as it is worded: when the cache already holds a
    result for the content, computed for a third review, both calls
    return that result, and the second call receives the identifier of
    the third review, not of the first. *)
Lemma Analyze_cached_identifier_of_third :
  ReviewID (fst (returned
    (@Analyze asciiText
       (after (@Analyze asciiText
                 (after (@Analyze asciiText freshAnalyzer offline sameTextReview))
                 offline crashReview))
       offline laterTextReview))) = "trustpilot_2" /\
  ID crashReview = "trustpilot_1" /\
  ID laterTextReview = "trustpilot_4" /\
  Content laterTextReview = Content crashReview.
Proof. repeat split; vm_compute; reflexivity. Qed.

Lemma Analyze_cached_identifier_witness :
  ReviewID (fst (returned
    (@Analyze asciiText
       (@AnalyzeEach asciiText
          (after (@Analyze asciiText freshAnalyzer (during laterTextReview) crashReview))
          [Called (during titledReview) slowReview; Written (overlapping titledReview)])
       offline sameTextReview)))
    = "trustpilot_1" /\
  ID sameTextReview = "trustpilot_2".
Proof.
  destruct (@Analyze_cached_identifier asciiText freshAnalyzer (during laterTextReview)
              offline crashReview sameTextReview [Called (during titledReview) slowReview; Written (overlapping titledReview)])
    as (_ & _ & _ & H & _).
  - reflexivity.
  - vm_compute. discriminate.
  - vm_compute. discriminate.
  - vm_compute. reflexivity.
  - intros ev o Hev Ho.
    repeat (apply elem_of_cons in Hev as [->|Hev];
            [apply list_elem_of_singleton in Ho; subst o; vm_compute; discriminate|]).
    inversion Hev.
  - split; [exact H | reflexivity].
Defined.


End analyzer_witnesses.

(* ================================================================== *)
(** * Part III: further properties of the code                         *)
(* ================================================================== *)

(** ** The orchestrator, continued *)

Module scraper_more.
Import scraper gostrings gostrings_facts scraper_facts samples.

Lemma ScrapeAll_in_cases (done : list Scraper) :
  (successes done = [] /\ failures done <> [] /\
   ScrapeAll_in done = ([], foldl combine None (failures done))) \/
  ((successes done <> [] \/ failures done = []) /\
   ScrapeAll_in done = (successes done, None)).
Proof.
  destruct (successes done) as [|r rs] eqn:Hs.
  - destruct (failures done) as [|e es] eqn:Hf.
    + right. split; [now right|]. rewrite <- Hs. apply ScrapeAll_in_success. now right.
    + left. split; [reflexivity|]. split; [discriminate|].
      rewrite <- Hf. apply ScrapeAll_in_failure; [exact Hs|]. rewrite Hf. discriminate.
  - right. split; [left; discriminate|]. rewrite <- Hs. apply ScrapeAll_in_success.
    left. rewrite Hs. discriminate.
Qed.

(** X1.  [ScrapeAll] returns an error exactly when the adapters that succeeded
    brought no review and at least one adapter failed; it then returns no
    review: never reviews together with an error. *)
Theorem ScrapeAll_fails_iff (m : Manager) (out : list models.Review * option error) :
  ScrapeAll m out ->
  (snd out <> None <-> successes (launched m) = [] /\ failures (launched m) <> []) /\
  (snd out <> None -> fst out = []).
Proof.
  intros (done & Hperm & ->).
  pose proof (Permutation_nil_iff _ _ (successes_Permutation _ _ Hperm)) as Hs.
  pose proof (Permutation_nil_iff _ _ (failures_Permutation _ _ Hperm)) as Hf.
  destruct (ScrapeAll_in_cases done) as [(H1 & H2 & ->)|(H & ->)]; simpl.
  - destruct (combine_spec _ H2) as (e & -> & _). split; [|reflexivity].
    split; [intros _|discriminate]. split; [now apply Hs|]. intros H. now apply H2, Hf.
  - split; [|congruence]. split; [congruence|].
    intros [H1 H2]. exfalso. destruct H as [H|H].
    + now apply H, Hs.
    + now apply H2, Hf.
Qed.

Lemma ScrapeAll_fails_iff_witness :
  snd (ScrapeAll_in (launched emptyAndFailing)) <> None /\
  fst (ScrapeAll_in (launched emptyAndFailing)) = [].
Proof.
  destruct (ScrapeAll_fails_iff emptyAndFailing _ (ScrapeAll_returns emptyAndFailing))
    as [H1 H2].
  assert (H : snd (ScrapeAll_in (launched emptyAndFailing)) <> None).
  { apply H1. split; [reflexivity|]. vm_compute. discriminate. }
  split; [exact H | exact (H2 H)].
Defined.

Lemma Join_cons (x : string) (elems : list string) (sep : string) :
  Join (x :: elems) sep = x +:+ joinTail sep elems.
Proof.
  revert x; induction elems as [|y elems IH]; intros x.
  - simpl. now rewrite append_nil_r.
  - change (Join (x :: y :: elems) sep) with (x +:+ sep +:+ Join (y :: elems) sep).
    now rewrite IH.
Qed.

Lemma combine_message_from (errs : list error) (c : error) :
  exists e, foldl combine (Some c) errs = Some e /\
            goerrors.Error e = goerrors.Error c +:+ joinTail "; " (goerrors.Error <$> errs).
Proof.
  revert c; induction errs as [|y errs IH]; intros c.
  - exists c. split; [reflexivity|]. simpl. now rewrite append_nil_r.
  - destruct (IH (wrapError (goerrors.Error c +:+ "; " +:+ goerrors.Error y) y))
      as (e & He & Hmsg).
    exists e. split; [exact He|]. rewrite Hmsg.
    cbn [goerrors.Error fmap list_fmap joinTail foldr].
    now rewrite !append_assoc.
Qed.

Lemma combine_message (errs : list error) :
  errs <> [] ->
  exists e, foldl combine None errs = Some e /\
            goerrors.Error e = Join (goerrors.Error <$> errs) "; ".
Proof.
  destruct errs as [|c errs]; [congruence|]. intros _.
  destruct (combine_message_from errs c) as (e & He & Hmsg).
  exists e. split; [exact He|].
  change (goerrors.Error <$> c :: errs) with (goerrors.Error c :: (goerrors.Error <$> errs)).
  now rewrite Join_cons.
Qed.

(** X2.  The message of the error [ScrapeAll] returns is the messages of the
    failed adapters, each ["<name> scraper error: <message>"], joined by
    ["; "] in the order in which the adapters finished. *)
Theorem ScrapeAll_error_message (m : Manager) (out : list models.Review * option error)
    (e : error) :
  ScrapeAll m out ->
  snd out = Some e ->
  exists done, done ≡ₚ launched m /\
    goerrors.Error e = Join (goerrors.Error <$> failures done) "; " /\
    Forall (fun msg => exists s err, s ∈ launched m /\ snd (Scrape s) = Some err /\
                         msg = Name s +:+ " scraper error: " +:+ goerrors.Error err)
           (goerrors.Error <$> failures done).
Proof.
  intros (done & Hperm & ->) He. exists done. split; [exact Hperm|].
  destruct (ScrapeAll_in_cases done) as [(H1 & H2 & Heq)|(H & Heq)];
    rewrite Heq in He; simpl in He; [|discriminate].
  destruct (combine_message _ H2) as (e' & He' & Hmsg).
  rewrite He' in He. injection He as <-. split; [exact Hmsg|].
  apply Forall_forall. intros msg (x & -> & Hx)%list_elem_of_fmap.
  unfold failures in Hx. apply list_elem_of_omap in Hx as (s & Hs & Hx).
  destruct (snd (Scrape s)) as [err|] eqn:Herr; [|discriminate].
  injection Hx as <-. exists s, err. split; [now rewrite <- Hperm|]. now split.
Qed.

Lemma ScrapeAll_error_message_witness :
  exists e, snd (ScrapeAll_in (launched allFailing)) = Some e /\
    goerrors.Error e =
      "Twitter scraper error: rate limited; G2 scraper error: context deadline exceeded".
Proof.
  exists (wrapError
    "Twitter scraper error: rate limited; G2 scraper error: context deadline exceeded"
    (scraperError timedOutAdapter (errorString "context deadline exceeded"))).
  split; [reflexivity|].
  destruct (ScrapeAll_error_message allFailing _ _ (ScrapeAll_returns allFailing) eq_refl)
    as (done & _ & _ & _).
  reflexivity.
Defined.

Lemma combine_last (init : list error) (last : error) (c : option error) :
  foldl combine c (init ++ [last]) =
  match foldl combine c init with
  | None => Some last
  | Some e => Some (wrapError (goerrors.Error e +:+ "; " +:+ goerrors.Error last) last)
  end.
Proof. now rewrite foldl_app. Qed.

Lemma failures_snoc (done : list Scraper) (x : Scraper) :
  failures (done ++ [x]) =
  (failures done ++
   match snd (Scrape x) with Some e => [scraperError x e] | None => [] end)%list.
Proof.
  unfold failures. rewrite omap_app. f_equal. simpl. now destruct (snd (Scrape x)).
Qed.

(** The adapter that failed last in an order, the failures before it, and
    the adapters after it, which all succeeded. *)
Lemma last_failure (done : list Scraper) :
  failures done <> [] ->
  exists before s err rest,
    done = (before ++ s :: rest)%list /\
    snd (Scrape s) = Some err /\
    Forall (fun s' => snd (Scrape s') = None) rest /\
    failures done = (failures before ++ [scraperError s err])%list.
Proof.
  induction done as [|x done IH] using rev_ind; [intros H; now contradiction H|].
  rewrite failures_snoc. destruct (snd (Scrape x)) as [err|] eqn:Hx.
  - intros _. exists done, x, err, []. split; [reflexivity|]. split; [exact Hx|].
    split; [constructor|reflexivity].
  - rewrite app_nil_r. intros Hne.
    destruct (IH Hne) as (before & s & err & rest & -> & Hs & Hrest & Hf).
    exists before, s, err, (rest ++ [x])%list.
    split; [now rewrite <- app_assoc|]. split; [exact Hs|].
    split; [|exact Hf]. apply Forall_app. split; [exact Hrest|]. now constructor.
Qed.

(** X3.  Only the adapter that failed last can be reached from the returned
    error by unwrapping.  In every order [done] in which the goroutines
    take the lock, with [s] the adapter that failed last in it (those after
    it succeeded) and [before] what came before it: the chain of the
    returned error is the merged error (when an adapter of [before] failed
    too), then the wrapped error of [s], then the own error of [s] and what
    it wraps.  The earlier failures are in the message only. *)
Theorem ScrapeAll_error_chain (m : Manager) (done : list Scraper) (e : error) :
  done ≡ₚ launched m ->
  snd (ScrapeAll_in done) = Some e ->
  exists before s err rest,
    done = (before ++ s :: rest)%list /\
    s ∈ launched m /\
    snd (Scrape s) = Some err /\
    Forall (fun s' => snd (Scrape s') = None) rest /\
    (failures before = [] -> e = scraperError s err) /\
    (failures before <> [] -> goerrors.Unwrap e = Some (scraperError s err)) /\
    goerrors.chain e =
      ((if decide (failures before = []) then [] else [e]) ++
       scraperError s err :: goerrors.chain err)%list.
Proof.
  intros Hperm He.
  destruct (ScrapeAll_in_cases done) as [(H1 & H2 & Heq)|(H & Heq)];
    rewrite Heq in He; simpl in He; [|discriminate].
  destruct (last_failure done H2) as (before & s & err & rest & Hdone & Hs & Hrest & Hf).
  exists before, s, err, rest. split; [exact Hdone|].
  split; [rewrite <- Hperm, Hdone; set_solver|].
  split; [exact Hs|]. split; [exact Hrest|].
  rewrite Hf, combine_last in He.
  destruct (failures before) as [|y ys] eqn:Hb.
  - simpl in He. injection He as <-.
    split; [reflexivity|]. split; [congruence|]. reflexivity.
  - destruct (combine_spec (y :: ys) ltac:(discriminate)) as (c & Hc & _).
    rewrite Hc in He. injection He as <-.
    split; [discriminate|]. split; [reflexivity|].
    rewrite decide_False by discriminate. reflexivity.
Qed.

Lemma ScrapeAll_error_chain_witness :
  exists e, snd (ScrapeAll_in (launched allFailing)) = Some e /\
    goerrors.Unwrap e
    = Some (scraperError timedOutAdapter (errorString "context deadline exceeded")) /\
    errorString "rate limited" ∉ goerrors.chain e.
Proof.
  destruct (ScrapeAll_error_chain allFailing (launched allFailing)
     (wrapError
        "Twitter scraper error: rate limited; G2 scraper error: context deadline exceeded"
        (scraperError timedOutAdapter (errorString "context deadline exceeded")))
     (reflexivity _) eq_refl) as (before & s & err & rest & _).
  eexists. split; [reflexivity|]. split; [reflexivity|].
  cbn. intros H.
  repeat (apply elem_of_cons in H as [H|H]; [discriminate H|]).
  inversion H.
Defined.

(** X4.  A review [ScrapeAll] returns comes from an enabled adapter that
    returned no error: what a failing adapter had collected and what a
    disabled adapter would return never reach the result. *)
Theorem ScrapeAll_reviews_origin (m : Manager) (out : list models.Review * option error)
    (review : models.Review) :
  ScrapeAll m out ->
  review ∈ fst out ->
  exists s, s ∈ scrapers m /\ IsEnabled s = true /\
            snd (Scrape s) = None /\ review ∈ fst (Scrape s).
Proof.
  intros (done & Hperm & ->) Hin.
  destruct (ScrapeAll_in_cases done) as [(H1 & H2 & Heq)|(H & Heq)];
    rewrite Heq in Hin; simpl in Hin; [inversion Hin|].
  unfold successes in Hin. apply list_elem_of_bind in Hin as (s & Hr & Hs).
  rewrite Hperm in Hs. unfold launched in Hs. apply list_elem_of_filter in Hs as [He Hs].
  exists s. split; [exact Hs|]. split; [exact He|].
  unfold succeeded in Hr. destruct (snd (Scrape s)); [inversion Hr|]. now split.
Qed.

Lemma ScrapeAll_reviews_origin_witness :
  exists s, s ∈ scrapers workingAndFailing /\ IsEnabled s = true /\
            snd (Scrape s) = None /\ crashReview ∈ fst (Scrape s).
Proof.
  apply (ScrapeAll_reviews_origin workingAndFailing _ crashReview
           (ScrapeAll_returns workingAndFailing)).
  vm_compute. left.
Defined.

(** X5.  The order in which the adapters finish changes neither the verdict
    nor the reviews returned, only their order. *)
Theorem ScrapeAll_any_order (m : Manager) (out1 out2 : list models.Review * option error) :
  ScrapeAll m out1 -> ScrapeAll m out2 ->
  fst out1 ≡ₚ fst out2 /\ (snd out1 = None <-> snd out2 = None).
Proof.
  intros (d1 & Hp1 & ->) (d2 & Hp2 & ->).
  assert (Hp : d1 ≡ₚ d2) by now rewrite Hp1, Hp2.
  pose proof (successes_Permutation _ _ Hp) as Hs.
  pose proof (Permutation_nil_iff _ _ Hs) as Hsnil.
  pose proof (Permutation_nil_iff _ _ (failures_Permutation _ _ Hp)) as Hfnil.
  destruct (ScrapeAll_in_cases d1) as [(A1 & A2 & ->)|(A & ->)],
           (ScrapeAll_in_cases d2) as [(B1 & B2 & ->)|(B & ->)]; cbn [fst snd].
  - split; [reflexivity|].
    destruct (combine_spec _ A2) as (e1 & -> & _), (combine_spec _ B2) as (e2 & -> & _).
    split; discriminate.
  - exfalso. destruct B as [B|B]; [now apply B, Hsnil|now apply A2, Hfnil].
  - exfalso. destruct A as [A|A]; [now apply A, Hsnil|now apply B2, Hfnil].
  - split; [exact Hs|reflexivity].
Qed.

Lemma ScrapeAll_any_order_witness :
  fst (ScrapeAll_in [workingAdapter; failingAdapter])
    ≡ₚ fst (ScrapeAll_in [failingAdapter; workingAdapter]).
Proof.
  apply (ScrapeAll_any_order workingAndFailing).
  - exists [workingAdapter; failingAdapter]. split; [|reflexivity].
    change (launched workingAndFailing) with [failingAdapter; workingAdapter].
    apply Permutation_swap.
  - exists [failingAdapter; workingAdapter]. split; reflexivity.
Defined.

End scraper_more.

(** ** The manager [NewManager] builds, and the Twitter filter *)

Module manager_facts.
Import scraper gostrings scraper_facts scraper_more samples.

Lemma successes_quiet (l : list Scraper) : Forall quiet l -> successes l = [].
Proof.
  induction 1 as [|s l Hs _ IH]; [reflexivity|].
  rewrite successes_cons, IH. unfold succeeded. now rewrite Hs.
Qed.

Lemma failures_quiet (l : list Scraper) : Forall quiet l -> failures l = [].
Proof.
  induction 1 as [|s l Hs _ IH]; [reflexivity|].
  rewrite failures_cons, IH. now rewrite Hs.
Qed.

Lemma successes_app (l1 l2 : list Scraper) :
  successes (l1 ++ l2) = (successes l1 ++ successes l2)%list.
Proof. unfold successes. apply bind_app. Qed.

Lemma failures_app (l1 l2 : list Scraper) :
  failures (l1 ++ l2) = (failures l1 ++ failures l2)%list.
Proof. unfold failures. apply omap_app. Qed.

(** Among quiet adapters, one adapter alone decides the accumulator. *)
Lemma one_among_quiet (done rest : list Scraper) (s : Scraper) :
  done ≡ₚ s :: rest -> Forall quiet rest ->
  successes done = successes [s] /\ failures done = failures [s].
Proof.
  intros Hperm Hq.
  assert (Hin : s ∈ done) by (rewrite Hperm; left).
  apply list_elem_of_split in Hin as (l1 & l2 & ->).
  assert (Hrest : (l1 ++ l2)%list ≡ₚ rest).
  { apply (Permutation_cons_inv (a := s)). rewrite <- Hperm.
    now rewrite Permutation_middle. }
  assert (Hq' : Forall quiet (l1 ++ l2)) by now rewrite Hrest.
  apply Forall_app in Hq' as [Hq1 Hq2].
  change (s :: l2) with ([s] ++ l2)%list.
  rewrite !successes_app, !failures_app.
  rewrite (successes_quiet l1 Hq1), (successes_quiet l2 Hq2).
  rewrite (failures_quiet l1 Hq1), (failures_quiet l2 Hq2).
  now rewrite !app_nil_r.
Qed.

Lemma stubs_quiet_enabled (cfg : config.ScrapersConfig) :
  Forall (fun s => quiet s /\ IsEnabled s = true) (stubs cfg).
Proof.
  unfold stubs. repeat apply Forall_app_2.
  - destruct (config.Reddit_Enabled (config.Reddit cfg)) eqn:H; constructor; [|constructor].
    split; [reflexivity|exact H].
  - destruct (config.Store_Enabled (config.AppStore cfg)) eqn:H; constructor; [|constructor].
    split; [reflexivity|exact H].
  - destruct (config.Store_Enabled (config.GooglePlay cfg)) eqn:H; constructor; [|constructor].
    split; [reflexivity|exact H].
  - apply Forall_fmap, Forall_forall. intros c [Hc _]%list_elem_of_filter.
    split; [reflexivity|exact Hc].
Qed.

Lemma filter_all {A} (P : A -> Prop) `{forall x, Decision (P x)} (l : list A) :
  Forall P l -> filter P l = l.
Proof.
  induction 1 as [|x l Hx _ IH]; [reflexivity|].
  rewrite filter_cons_True by exact Hx. now rewrite IH.
Qed.

Lemma initializeScrapers_enabled (cfg : config.ScrapersConfig) twitterRun :
  Forall (fun s => IsEnabled s = true) (initializeScrapers cfg twitterRun).
Proof.
  change (initializeScrapers cfg twitterRun)
    with ((if config.Twitter_Enabled (config.Twitter cfg)
           then [NewTwitterScraper (config.Twitter cfg) twitterRun] else []) ++ stubs cfg)%list.
  apply Forall_app_2.
  - destruct (config.Twitter_Enabled (config.Twitter cfg)) eqn:H; repeat constructor.
    exact H.
  - eapply Forall_impl; [apply stubs_quiet_enabled|]. now intros s [_ H].
Qed.

End manager_facts.

Module manager_claims.
Import scraper gostrings scraper_facts scraper_more manager_facts samples.

(** X6.  Whatever stub sources are enabled (Reddit, AppStore, GooglePlay, custom
    sites), every scraper [NewManager] holds is enabled and [ScrapeAll]
    returns what the Twitter scraper alone returned: its reviews when it
    succeeded; no review and its error, wrapped as
    ["Twitter scraper error: ..."], when it failed; no review and no error
    when Twitter is disabled. *)
Theorem NewManager_ScrapeAll (cfg : config.ScrapersConfig)
    (twitterRun : list models.Review * option error)
    (out : list models.Review * option error) :
  ScrapeAll (NewManager cfg twitterRun) out ->
  GetScrapers (NewManager cfg twitterRun) = scrapers (NewManager cfg twitterRun) /\
  out =
    if config.Twitter_Enabled (config.Twitter cfg) then
      match snd twitterRun with
      | None => (fst twitterRun, None)
      | Some err =>
          ([], Some (scraperError (NewTwitterScraper (config.Twitter cfg) twitterRun) err))
      end
    else ([], None).
Proof.
  intros (done & Hperm & ->).
  pose proof (filter_all _ _ (initializeScrapers_enabled cfg twitterRun)) as Hall.
  split; [exact Hall|].
  unfold launched in Hperm. cbn [NewManager scrapers] in Hperm. rewrite Hall in Hperm.
  change (initializeScrapers cfg twitterRun)
    with ((if config.Twitter_Enabled (config.Twitter cfg)
           then [NewTwitterScraper (config.Twitter cfg) twitterRun] else []) ++ stubs cfg)%list
    in Hperm.
  assert (Hq : Forall quiet (stubs cfg)).
  { eapply Forall_impl; [apply stubs_quiet_enabled|]. now intros s [H _]. }
  destruct (config.Twitter_Enabled (config.Twitter cfg)).
  - destruct (one_among_quiet done (stubs cfg) _ Hperm Hq) as [Hs Hf].
    unfold ScrapeAll_in. rewrite join_spec, Hs, Hf.
    unfold successes, failures, succeeded, finish. simpl.
    destruct twitterRun as [reviews [err|]]; simpl.
    + reflexivity.
    + rewrite app_nil_r. destruct reviews; reflexivity.
  - simpl in Hperm. rewrite <- Hperm in Hq.
    unfold ScrapeAll_in. now rewrite join_spec, (successes_quiet _ Hq), (failures_quiet _ Hq).
Qed.

Lemma NewManager_ScrapeAll_witness :
  ScrapeAll_in (launched (NewManager stubsAndTwitter ([crashReview], None)))
  = ([crashReview], None).
Proof.
  destruct (NewManager_ScrapeAll stubsAndTwitter ([crashReview], None) _
              (ScrapeAll_returns _)) as [_ H].
  exact H.
Defined.

Section with_runtime.
Context {U : GoUnicode}.

Lemma filterTweets_from (excludeWords : list string) (tweets filtered : list Tweet) :
  foldl (fun filtered tweet =>
           if excluded excludeWords tweet then filtered else (filtered ++ [tweet])%list)
        filtered tweets
  = (filtered ++ filter (fun t => excluded excludeWords t = false) tweets)%list.
Proof.
  revert filtered; induction tweets as [|t tweets IH]; intros filtered; simpl.
  - now rewrite app_nil_r.
  - rewrite IH. destruct (excluded excludeWords t) eqn:Hx.
    + now rewrite filter_cons_False by congruence.
    + rewrite filter_cons_True by exact Hx. now rewrite <- app_assoc.
Qed.

Lemma ToLower_empty : ToLower "" = "".
Proof. reflexivity. Qed.

Lemma Contains_empty (s : string) : Contains s "" = true.
Proof. unfold Contains, Index. now destruct s. Qed.

(** X7.  [filterTweets] keeps, in their order, exactly the tweets whose
    lower-cased text holds none of the lower-cased exclude words; filtering
    twice changes nothing more; and an empty exclude word removes every
    tweet. *)
Theorem filterTweets_spec (excludeWords : list string) (tweets : list Tweet) :
  filterTweets excludeWords tweets
    = filter (fun t => excluded excludeWords t = false) tweets /\
  (forall t, t ∈ filterTweets excludeWords tweets <->
     t ∈ tweets /\
     forall word, word ∈ excludeWords ->
       Contains (ToLower (Tweet_Text t)) (ToLower word) = false) /\
  filterTweets excludeWords (filterTweets excludeWords tweets)
    = filterTweets excludeWords tweets /\
  ("" ∈ excludeWords -> filterTweets excludeWords tweets = []).
Proof.
  assert (Heq : forall ts, filterTweets excludeWords ts
                           = filter (fun t => excluded excludeWords t = false) ts).
  { intros ts. unfold filterTweets. destruct excludeWords as [|w ws].
    - simpl. symmetry. apply filter_all, Forall_forall. reflexivity.
    - cbn [length Nat.eqb]. now rewrite filterTweets_from. }
  assert (Hex : forall t, excluded excludeWords t = false <->
                  forall word, word ∈ excludeWords ->
                    Contains (ToLower (Tweet_Text t)) (ToLower word) = false).
  { intros t. unfold excluded. split.
    - intros H word Hw. destruct (Contains _ (ToLower word)) eqn:Hc; [|reflexivity].
      rewrite <- H. symmetry. apply existsb_exists. exists word.
      split; [now apply list_elem_of_In|exact Hc].
    - intros H. apply not_true_is_false. intros (word & Hw & Hc)%existsb_exists.
      rewrite H in Hc by now apply list_elem_of_In. discriminate. }
  split; [apply Heq|]. split; [|split].
  - intros t. rewrite Heq, list_elem_of_filter, Hex. tauto.
  - rewrite !Heq. apply filter_all, Forall_forall.
    now intros t [Ht _]%list_elem_of_filter.
  - intros Hempty. rewrite Heq.
    induction tweets as [|t tweets IH]; [reflexivity|].
    rewrite filter_cons_False; [exact IH|].
    intros Ht. apply Hex with (word := "") in Ht; [|exact Hempty].
    rewrite ToLower_empty, Contains_empty in Ht. discriminate.
Qed.

End with_runtime.

End manager_claims.

(** ** Strings, continued *)

Module gostrings_more.
Import gostrings gostrings_facts.

Lemma HasPrefix_iff (s p : string) :
  HasPrefix s p = true <-> exists post, s = p +:+ post.
Proof.
  unfold HasPrefix. revert s; induction p as [|c p IH]; intros s.
  - split; [intros _; now exists s|intros _; now destruct s].
  - destruct s as [|d s]; simpl.
    + split; [discriminate|]. now intros [post Hpost].
    + destruct (ascii_dec c d) as [->|Hne].
      * rewrite IH. split; intros [post Hp]; exists post.
        -- change (String d s = String d (p +:+ post)). now rewrite Hp.
        -- change (String d s = String d (p +:+ post)) in Hp. congruence.
      * split; [discriminate|]. intros [post Hp].
        change (String d s = String c (p +:+ post)) in Hp. congruence.
Qed.

Lemma take_drop (n : nat) (s : string) : take n s +:+ drop n s = s.
Proof.
  revert s; induction n as [|n IH]; intros s; [reflexivity|].
  destruct s as [|c s]; [reflexivity|].
  change (String c (take n s +:+ drop n s) = String c s). now rewrite IH.
Qed.

Lemma take_length (n : nat) (s : string) :
  (n <= String.length s)%nat -> String.length (take n s) = n.
Proof.
  revert s; induction n as [|n IH]; intros s Hn; [reflexivity|].
  destruct s as [|c s]; simpl in *; [lia|]. rewrite IH; lia.
Qed.

Lemma append_length (a b : string) :
  String.length (a +:+ b) = (String.length a + String.length b)%nat.
Proof.
  induction a as [|c a IH]; [reflexivity|].
  change (S (String.length (a +:+ b)) = S (String.length a + String.length b)).
  now rewrite IH.
Qed.

Lemma drop_length (n : nat) (s : string) :
  String.length (drop n s) = (String.length s - n)%nat.
Proof.
  revert s; induction n as [|n IH]; intros s; simpl; [lia|].
  destruct s as [|c s]; simpl; [reflexivity|apply IH].
Qed.

(** Where [indexOf] finds [substr]: within [s], at a match, and after no
    other match. *)
Lemma indexOf_Some (s substr : string) (i : nat) :
  indexOf s substr = Some i ->
  (i <= String.length s)%nat /\
  HasPrefix (drop i s) substr = true /\
  forall j, (j < i)%nat -> HasPrefix (drop j s) substr = false.
Proof.
  revert i; induction s as [|c s IH]; intros i; cbn [indexOf].
  - destruct (HasPrefix "" substr) eqn:Hp; [|discriminate].
    intros [= <-]. split; [lia|]. split; [exact Hp|]. intros j Hj. lia.
  - destruct (HasPrefix (String c s) substr) eqn:Hp.
    + intros [= <-]. split; [lia|]. split; [exact Hp|]. intros j Hj. lia.
    + destruct (indexOf s substr) as [k|]; [|discriminate].
      cbn. intros [= <-]. destruct (IH k eq_refl) as (H1 & H2 & H3).
      split; [cbn [String.length]; lia|]. split; [exact H2|].
      intros [|j] Hj; [exact Hp|]. apply H3. lia.
Qed.

Lemma indexOf_None (s substr : string) :
  indexOf s substr = None -> forall j, HasPrefix (drop j s) substr = false.
Proof.
  induction s as [|c s IH]; cbn [indexOf].
  - destruct (HasPrefix "" substr) eqn:Hp; [discriminate|].
    intros _ [|j]; exact Hp.
  - destruct (HasPrefix (String c s) substr) eqn:Hp; [discriminate|].
    destruct (indexOf s substr) as [k|]; [discriminate|].
    intros _ [|j]; [exact Hp|]. now apply IH.
Qed.

Lemma drop_append (pre rest : string) : drop (String.length pre) (pre +:+ rest) = rest.
Proof. induction pre as [|c pre IH]; [reflexivity|exact IH]. Qed.

Lemma occursIn_prefix_at (substr s pre post : string) :
  s = pre +:+ substr +:+ post -> HasPrefix (drop (String.length pre) s) substr = true.
Proof. intros ->. rewrite drop_append. apply HasPrefix_iff. now exists post. Qed.

(** [strings.Index] returns the byte offset of the first occurrence:
    [-1] exactly when [substr] does not occur in [s]; otherwise an offset
    [i] at which [s] reads [substr], no occurrence starting earlier.
    [strings.Contains] holds exactly when [substr] occurs. *)
Theorem Index_first_occurrence (s substr : string) :
  (Index s substr = -1 <-> ~ occursIn substr s) /\
  (Contains s substr = true <-> occursIn substr s) /\
  (0 <= Index s substr ->
     exists pre post, s = pre +:+ substr +:+ post /\
       Z.of_nat (String.length pre) = Index s substr /\
       forall pre' post', s = pre' +:+ substr +:+ post' ->
         Index s substr <= Z.of_nat (String.length pre')).
Proof.
  unfold Contains, Index.
  destruct (indexOf s substr) as [i|] eqn:Hi.
  - destruct (indexOf_Some s substr i Hi) as (Hle & Hp & Hmin).
    apply HasPrefix_iff in Hp as [post Hpost].
    assert (Hs : s = take i s +:+ substr +:+ post).
    { rewrite <- Hpost. symmetry. apply take_drop. }
    assert (Hocc : occursIn substr s) by (exists (take i s), post; exact Hs).
    split; [split; [lia|tauto]|]. split; [split; [tauto|intros _; apply Z.leb_le; lia]|].
    intros _. exists (take i s), post. split; [exact Hs|].
    split; [now rewrite take_length|].
    intros pre' post' Hs'. apply occursIn_prefix_at in Hs'.
    destruct (Nat.lt_ge_cases (String.length pre') i) as [Hlt|Hge]; [|lia].
    rewrite (Hmin _ Hlt) in Hs'. discriminate.
  - pose proof (indexOf_None s substr Hi) as Hnone.
    assert (Hnot : ~ occursIn substr s).
    { intros (pre & post & Hs). apply occursIn_prefix_at in Hs.
      rewrite Hnone in Hs. discriminate. }
    split; [tauto|]. split; [|lia].
    split; [intros H; apply Z.leb_le in H; lia|tauto].
Qed.

Lemma countLoop_zero (fuel : nat) (s substr : string) :
  countLoop (S fuel) s substr = 0 <-> indexOf s substr = None.
Proof.
  simpl. destruct (indexOf s substr) as [i|]; [|tauto].
  pose proof (local_facts.countLoop_nonneg fuel (drop (i + String.length substr) s) substr).
  split; [lia|discriminate].
Qed.

Lemma countLoop_bound (fuel : nat) (s substr : string) :
  countLoop fuel s substr * Z.of_nat (String.length substr) <= Z.of_nat (String.length s).
Proof.
  revert s; induction fuel as [|fuel IH]; intros s; simpl; [lia|].
  destruct (indexOf s substr) as [i|] eqn:Hi; [|lia].
  destruct (indexOf_Some s substr i Hi) as (Hle & Hp & _).
  apply HasPrefix_iff in Hp as [post Hpost].
  assert (Hlen : (i + String.length substr <= String.length s)%nat).
  { pose proof (drop_length i s) as Hd. rewrite Hpost, append_length in Hd. lia. }
  specialize (IH (drop (i + String.length substr) s)).
  rewrite drop_length in IH. lia.
Qed.

End gostrings_more.

Module count_claims.
Import analyzer gostrings gostrings_facts gostrings_more local_facts.

Section with_runtime.
Context {U : GoUnicode}.

(** X8.  For a non-empty [word], [countOccurrences] counts matches that do not
    overlap: it is zero exactly when [word] does not occur in [text], and
    the matches fit in [text] side by side. *)
Theorem countOccurrences_bounds (text word : string) :
  word <> "" ->
  0 <= countOccurrences text word /\
  (countOccurrences text word = 0 <-> Contains text word = false) /\
  countOccurrences text word * len word <= len text.
Proof.
  intros Hw. rewrite (countOccurrences_Count text word Hw). unfold Count, len.
  split; [apply countLoop_nonneg|]. split; [|apply countLoop_bound].
  unfold Contains, Index.
  destruct text as [|c text].
  - simpl. destruct word as [|d word]; [congruence|]. simpl. split; reflexivity.
  - cbn [String.length]. rewrite countLoop_zero.
    destruct (indexOf (String c text) word) as [i|].
    + split; [discriminate|]. intros H. apply Z.leb_gt in H. lia.
    + split; reflexivity.
Qed.

End with_runtime.

Lemma countOccurrences_bounds_witness :
  @countOccurrences samples.asciiText "failed to fail failing" "fail" = 3 /\
  3 * len "fail" <= len "failed to fail failing".
Proof.
  destruct (@countOccurrences_bounds samples.asciiText "failed to fail failing" "fail")
    as (_ & _ & H); [discriminate|].
  split; [vm_compute; reflexivity|]. exact H.
Defined.

End count_claims.

(** ** The classification engine, continued *)

Module analyzer_more.
Import models analyzer analyzer_facts gostrings_more samples.

Lemma selectStrategy_Local (mode : string) :
  selectStrategy mode = Local <-> mode ∉ ["openai"; "google"; "aws"; "azure"].
Proof.
  unfold selectStrategy. rewrite !not_elem_of_cons.
  destruct (String.eqb_spec mode "openai") as [->|H1]; [split; [discriminate|tauto]|].
  destruct (String.eqb_spec mode "google") as [->|H2]; [split; [discriminate|tauto]|].
  destruct (String.eqb_spec mode "aws") as [->|H3]; [split; [discriminate|tauto]|].
  destruct (String.eqb_spec mode "azure") as [->|H4]; [split; [discriminate|tauto]|].
  split; [intros _|reflexivity]. repeat split; try assumption. apply not_elem_of_nil.
Qed.

Section with_runtime.
Context {U : GoUnicode}.

(** X9.  A call never removes an entry of the cache.  It leaves as it is
    the entry of every content other than its own for which no
    overlapping call writes meanwhile, and it writes nothing when it finds
    its content cached.  A call on another content, for which no
    overlapping call has written meanwhile, behaves afterwards just as it
    would have before. *)
Theorem Analyze_other_content (a : Analyzer) (env env' : Env) (review review' : Review) :
  Content review' <> Content review ->
  let a1 := after (Analyze a env review) in
  (forall k, is_Some (cache a !! k) -> is_Some (cache a1 !! k)) /\
  (forall k, k <> cacheKey review ->
     (forall o, o ∈ meanwhile env -> cacheKey (otherReview o) <> k) ->
     cache a1 !! k = cache a !! k) /\
  (is_Some (cache a !! cacheKey review) -> a1 = a) /\
  ((forall o, o ∈ meanwhile env -> Content (otherReview o) <> Content review') ->
   returned (Analyze a1 env' review') = returned (Analyze a env' review') /\
   invoked (Analyze a1 env' review') = invoked (Analyze a env' review')).
Proof.
  intros Hne a1.
  assert (Hkey : cacheKey review' <> cacheKey review).
  { intros H. apply Hne. now apply cacheKey_inj. }
  assert (Hother : forall k, k <> cacheKey review ->
            (forall o, o ∈ meanwhile env -> cacheKey (otherReview o) <> k) ->
            cache a1 !! k = cache a !! k).
  { intros k Hk Hquiet. subst a1.
    destruct (Analyze_cases a env review)
      as [(r' & _ & ->)|[(raw & e & _ & _ & ->)|(raw & _ & _ & ->)]];
      cbn [after]; try reflexivity.
    rewrite store_lookup, decide_False by congruence. now apply interfered_lookup. }
  split; [intros k; apply Analyze_stays|]. split; [exact Hother|]. split.
  { intros [r Hr]. subst a1. now rewrite (Analyze_hit a env review r Hr). }
  intros Hquiet.
  assert (Hsame : cache a1 !! cacheKey review' = cache a !! cacheKey review').
  { apply Hother; [exact Hkey|]. intros o Ho H. apply (Hquiet o Ho). now apply cacheKey_inj. }
  assert (Hcfg : config a1 = config a) by apply Analyze_config.
  assert (Hrun : runStrategy (selectStrategy (config.Mode (config a1))) a1 env' review'
                 = runStrategy (selectStrategy (config.Mode (config a))) a env' review').
  { rewrite Hcfg. subst a1.
    now rewrite (Analyze_after a env review), runStrategy_withCache. }
  destruct (cache a !! cacheKey review') as [r|] eqn:Hc.
  - rewrite (Analyze_hit a env' review' r Hc).
    rewrite (Analyze_hit a1 env' review' r) by now rewrite Hsame.
    split; reflexivity.
  - assert (Hc1 : cache a1 !! cacheKey review' = None) by now rewrite Hsame.
    destruct (runStrategy (selectStrategy (config.Mode (config a))) a env' review')
      as [raw [e|]] eqn:Hs.
    + rewrite (Analyze_miss_error a env' review' raw e Hc Hs).
      rewrite (Analyze_miss_error a1 env' review' raw e Hc1 Hrun).
      simpl. now rewrite Hcfg.
    + rewrite (Analyze_miss_ok a env' review' raw Hc Hs).
      rewrite (Analyze_miss_ok a1 env' review' raw Hc1 Hrun).
      simpl. now rewrite Hcfg.
Qed.

Lemma unavailable_runStrategy (a : Analyzer) (env : Env) (review : Review) (msg : string) :
  unavailable (config a) msg ->
  runStrategy (selectStrategy (config.Mode (config a))) a env review
  = (AnalysisResult_zero, Some (errorString msg)).
Proof.
  intros [[Hm ->]|[[Hm ->]|[[Hm ->]|(Hm & Hk & ->)]]]; rewrite Hm; try reflexivity.
  cbn [selectStrategy String.eqb Ascii.eqb Bool.eqb runStrategy].
  simpl. unfold analyzeWithOpenAI. now rewrite Hk.
Qed.

(** An analyzer that cannot classify never caches. *)
Lemma unavailable_cache (cfg : config.AnalyzerConfig) (a : Analyzer) (msg : string) :
  reachable cfg a -> unavailable cfg msg -> cache a = ∅ /\ config a = cfg.
Proof.
  intros Hr Hu.
  induction Hr as [|a env0 review0 Hr [IHc IHcfg]]; [split; reflexivity|].
  split; [|now rewrite Analyze_config].
  assert (Hmiss : cache a !! cacheKey review0 = None) by (rewrite IHc; apply lookup_empty).
  rewrite <- IHcfg in Hu.
  rewrite (Analyze_miss_error a env0 review0 _ _ Hmiss
             (unavailable_runStrategy a env0 review0 msg Hu)).
  exact IHc.
Qed.

Lemma unavailable_Analyze (cfg : config.AnalyzerConfig) (a : Analyzer) (env : Env)
    (review : Review) (msg : string) :
  reachable cfg a -> unavailable cfg msg ->
  Analyze a env review =
    {| returned := (AnalysisResult_zero, Some (errorString msg));
       invoked := [selectStrategy (config.Mode (config a))];
       after := a |}.
Proof.
  intros Hr Hu. destruct (unavailable_cache cfg a msg Hr Hu) as [Hc Hcfg].
  assert (Hmiss : cache a !! cacheKey review = None) by (rewrite Hc; apply lookup_empty).
  rewrite <- Hcfg in Hu.
  exact (Analyze_miss_error a env review _ _ Hmiss
           (unavailable_runStrategy a env review msg Hu)).
Qed.

(** X10.  In mode [google], [aws] or [azure], and in mode [openai] without an
    API key, every call of [Analyze] fails with the same message, whatever
    the review and whatever the endpoint would answer; no result is ever
    cached. *)
Theorem Analyze_unavailable (cfg : config.AnalyzerConfig) (a : Analyzer) (env : Env)
    (review : Review) (msg : string) :
  reachable cfg a ->
  unavailable cfg msg ->
  returned (Analyze a env review) = (AnalysisResult_zero, Some (errorString msg)) /\
  after (Analyze a env review) = a /\
  cache a = ∅.
Proof.
  intros Hr Hu.
  rewrite (unavailable_Analyze cfg a env review msg Hr Hu). cbn [returned after].
  split; [reflexivity|]. split; [reflexivity|].
  exact (proj1 (unavailable_cache cfg a msg Hr Hu)).
Qed.

(** X11.  In mode [local], and in any mode that is not one of [openai],
    [google], [aws], [azure], [Analyze] never returns an error; the result
    it returns is the one cached for the content afterwards, and on a
    first call for that content it carries the review's identifier. *)
Theorem Analyze_local_succeeds (a : Analyzer) (env : Env) (review : Review) :
  config.Mode (config a) ∉ ["openai"; "google"; "aws"; "azure"] ->
  snd (returned (Analyze a env review)) = None /\
  cache (after (Analyze a env review)) !! cacheKey review
    = Some (fst (returned (Analyze a env review))) /\
  (cache a !! cacheKey review = None ->
     invoked (Analyze a env review) = [Local] /\
     ReviewID (fst (returned (Analyze a env review))) = ID review).
Proof.
  intros Hmode%selectStrategy_Local.
  destruct (Analyze_cases a env review)
    as [(r' & Hk & ->)|[(raw & e & _ & Hs & ->)|(raw & Hk & _ & ->)]]; simpl.
  - split; [reflexivity|]. split; [exact Hk|]. congruence.
  - rewrite Hmode in Hs. discriminate.
  - rewrite Hmode. split; [reflexivity|]. split; [apply lookup_insert_eq|].
    intros _. split; reflexivity.
Qed.

End with_runtime.

Lemma Analyze_other_content_witness :
  returned (@Analyze asciiText
              (after (@Analyze asciiText freshAnalyzer (during sameTextReview) crashReview))
              offline titledReview)
  = returned (@Analyze asciiText freshAnalyzer offline titledReview).
Proof.
  destruct (@Analyze_other_content asciiText freshAnalyzer (during sameTextReview) offline
              crashReview titledReview) as (_ & _ & _ & H).
  - vm_compute. discriminate.
  - apply H. intros o Ho%list_elem_of_singleton. subst o. vm_compute. discriminate.
Defined.

Lemma Analyze_unavailable_witness :
  returned (@Analyze asciiText (@New asciiText (analyzerConfig "openai")) offline crashReview)
  = (AnalysisResult_zero, Some (errorString "OpenAI API key is not configured")).
Proof.
  apply (@Analyze_unavailable asciiText (analyzerConfig "openai")).
  - apply (@reachable_New asciiText).
  - right. right. right. repeat split; reflexivity.
Defined.

Lemma Analyze_local_succeeds_witness :
  snd (returned (@Analyze asciiText (@New asciiText (analyzerConfig "offline-mode"))
                   offline crashReview)) = None.
Proof.
  apply (@Analyze_local_succeeds asciiText).
  vm_compute. intros H. repeat (apply elem_of_cons in H as [H|H]; [discriminate|]).
  inversion H.
Defined.

End analyzer_more.

(** ** The local strategy, continued *)

Module local_more.
Import models analyzer gostrings gostrings_more local_facts samples.

(** *** Amplification *)

Lemma binary_round_aux_signed (sx : bool) (mx ex : Z) (lx : location) :
  0 <= mx -> float64.signed sx (binary_round_aux float64.prec float64.emax sx mx ex lx).
Proof.
  intros H. unfold binary_round_aux.
  pose proof (float64_facts.shr_fexp_nonneg mx ex lx H) as H1.
  destruct (shr_fexp float64.prec float64.emax mx ex lx) as [mrs' e']. simpl in H1.
  pose proof (float64_facts.shr_fexp_nonneg _ e' loc_Exact
                (float64_facts.round_nearest_even_nonneg _ (loc_of_shr_record mrs') H1)) as H2.
  destruct (shr_fexp float64.prec float64.emax _ e' loc_Exact) as [mrs'' e'']. simpl in H2.
  destruct (shr_m mrs'') as [|m|m]; try reflexivity.
  - now destruct (e'' <=? float64.emax - float64.prec).
  - lia.
Qed.

Lemma mul_c1_2_signed (s : bool) (x : float64.t) :
  float64.signed s x -> x <> S754_zero s -> float64.signed s (float64.mul x float64.c1_2).
Proof.
  destruct x as [s'|s'| |s' m e]; simpl; intros Hs Hz; try contradiction; subst s'.
  - congruence.
  - now destruct s.
  - unfold float64.mul, SFmul, float64.c1_2.
    replace (xorb s false) with s by now destruct s.
    apply binary_round_aux_signed. lia.
Qed.

Lemma signed_not_nan (s : bool) (x : float64.t) : float64.signed s x -> float64.is_nan x = false.
Proof. destruct x; simpl; tauto. Qed.

Lemma negative_bounds (x : float64.t) :
  float64.signed true x -> float64.leb x float64.zero = true /\ float64.leb x float64.c1_0 = true.
Proof. destruct x as [s|s| |s m e]; simpl; intros H; try contradiction; subst; now split. Qed.

Lemma positive_bounds (x : float64.t) :
  float64.signed false x -> float64.leb float64.zero x = true /\ float64.leb float64.cm1_0 x = true.
Proof. destruct x as [s|s| |s m e]; simpl; intros H; try contradiction; subst; now split. Qed.

Lemma ltb_zero_signed (x : float64.t) :
  float64.ltb x float64.zero = true -> float64.signed true x /\ x <> S754_zero true.
Proof.
  destruct x as [s|s| |s m e]; try discriminate; destruct s; try discriminate;
    intros _; split; try reflexivity; discriminate.
Qed.

Lemma gtb_zero_signed (x : float64.t) :
  float64.gtb x float64.zero = true -> float64.signed false x /\ x <> S754_zero false.
Proof.
  destruct x as [s|s| |s m e]; try discriminate; destruct s; try discriminate;
    intros _; split; try reflexivity; discriminate.
Qed.

Lemma not_both_signs (x : float64.t) :
  float64.ltb x float64.zero = true -> float64.gtb x float64.zero = true -> False.
Proof. destruct x as [s|s| |s m e]; try discriminate; destruct s; discriminate. Qed.

(** X12.  When the content holds more than two exclamation marks or more than
    two runs of capitals, the amplified score lies in [[-1, 1]] whatever
    the score was (NaN aside), and is never of the opposite sign: a
    negative score stays [<= 0], a positive one [>= 0], a zero score is
    left as it is.  Otherwise the score is returned unchanged. *)
Theorem amplify_bounds (raw : string) (x : float64.t) :
  float64.is_nan x = false ->
  (2 < Count raw "!" \/ 2 < countCaps raw ->
     float64.leb float64.cm1_0 (amplify raw x) = true /\
     float64.leb (amplify raw x) float64.c1_0 = true /\
     (float64.ltb x float64.zero = true -> float64.leb (amplify raw x) float64.zero = true) /\
     (float64.gtb x float64.zero = true -> float64.leb float64.zero (amplify raw x) = true) /\
     (float64.ltb x float64.zero = false -> float64.gtb x float64.zero = false ->
        amplify raw x = x)) /\
  (Count raw "!" <= 2 -> countCaps raw <= 2 -> amplify raw x = x).
Proof.
  intros Hnan. split.
  - intros Htrig. unfold amplify.
    replace ((2 <? Count raw "!") || (2 <? countCaps raw)) with true
      by (symmetry; apply orb_true_iff; destruct Htrig; [left|right]; now apply Z.ltb_lt).
    destruct (float64.ltb x float64.zero) eqn:Hneg.
    + destruct (ltb_zero_signed x Hneg) as [Hs Hz].
      pose proof (mul_c1_2_signed true x Hs Hz) as Hm.
      set (s := float64.mul x float64.c1_2) in *.
      destruct (float64.ltb s float64.cm1_0) eqn:Hlo.
      * split; [reflexivity|]. split; [reflexivity|]. split; [reflexivity|].
        split; [|discriminate]. intros Hpos. destruct (not_both_signs x Hneg Hpos).
      * destruct (negative_bounds s Hm) as [H0 H1].
        split; [apply float64_facts.not_ltb_leb;
                [now apply signed_not_nan with true|reflexivity|exact Hlo]|].
        split; [exact H1|]. split; [intros _; exact H0|].
        split; [|discriminate]. intros Hpos. destruct (not_both_signs x Hneg Hpos).
    + destruct (float64.gtb x float64.zero) eqn:Hpos.
      * destruct (gtb_zero_signed x Hpos) as [Hs Hz].
        pose proof (mul_c1_2_signed false x Hs Hz) as Hm.
        set (s := float64.mul x float64.c1_2) in *.
        destruct (float64.gtb s float64.c1_0) eqn:Hhi.
        -- split; [reflexivity|]. split; [reflexivity|]. split; [discriminate|].
           split; [reflexivity|discriminate].
        -- destruct (positive_bounds s Hm) as [H0 H1].
           split; [exact H1|].
           split; [apply float64_facts.not_ltb_leb;
                   [reflexivity|now apply signed_not_nan with false|exact Hhi]|].
           split; [discriminate|]. split; [intros _; exact H0|]. discriminate.
      * split; [|split; [|split; [discriminate|split; [discriminate|reflexivity]]]];
          destruct x as [s|s| |s m e]; try discriminate; now destruct s.
  - intros H1 H2. unfold amplify.
    replace ((2 <? Count raw "!") || (2 <? countCaps raw)) with false; [reflexivity|].
    symmetry. apply orb_false_iff. split; apply Z.ltb_ge; assumption.
Qed.

Lemma amplify_bounds_witness :
  amplify "WORST TOOL EVER!!!" float64.cm1_0 = float64.cm1_0 /\
  float64.leb float64.cm1_0 (amplify "WORST TOOL EVER!!!" float64.cm1_0) = true.
Proof.
  destruct (amplify_bounds "WORST TOOL EVER!!!" float64.cm1_0 eq_refl) as [H _].
  destruct H as (H & _); [left; vm_compute; reflexivity|].
  split; [vm_compute; reflexivity | exact H].
Defined.

(** *** Entities *)

Lemma findEntities_plain (content : string) (patterns : list string) (acc : list Entity) :
  foldl (fun entities pattern =>
           let idx := Index content pattern in
           if 0 <=? idx then (entities ++ [productEntity pattern idx])%list else entities)
        acc patterns
  = (acc ++ omap (entityAt content) patterns)%list.
Proof.
  revert acc; induction patterns as [|p patterns IH]; intros acc; simpl.
  - now rewrite app_nil_r.
  - rewrite IH. unfold entityAt at 2. destruct (0 <=? Index content p); simpl.
    + now rewrite <- app_assoc.
    + reflexivity.
Qed.

Lemma containsEntityWithText_false (entities : list Entity) (text : string) :
  (forall e, e ∈ entities -> Text e <> text) ->
  containsEntityWithText entities text = false.
Proof.
  intros H. unfold containsEntityWithText. apply not_true_is_false.
  intros (e & He & Heq)%existsb_exists. apply String.eqb_eq in Heq.
  apply (H e); [now apply list_elem_of_In|exact Heq].
Qed.

Lemma findEntities_guarded (content : string) (patterns : list string) (acc : list Entity) :
  NoDup patterns ->
  (forall e, e ∈ acc -> Text e ∉ patterns) ->
  foldl (fun entities pattern =>
           let idx := Index content pattern in
           if (0 <=? idx) && negb (containsEntityWithText entities pattern)
           then (entities ++ [productEntity pattern idx])%list else entities)
        acc patterns
  = (acc ++ omap (entityAt content) patterns)%list.
Proof.
  revert acc; induction patterns as [|p patterns IH]; intros acc Hnd Hacc; simpl.
  - now rewrite app_nil_r.
  - apply NoDup_cons in Hnd as [Hp Hnd].
    rewrite containsEntityWithText_false.
    2:{ intros e He Heq. apply (Hacc e He). rewrite Heq. left. }
    rewrite andb_true_r. unfold entityAt at 1.
    destruct (0 <=? Index content p); simpl.
    + rewrite IH; [now rewrite <- app_assoc|exact Hnd|].
      intros e [He|He]%elem_of_app.
      * intros Hin. apply (Hacc e He). now right.
      * apply list_elem_of_singleton in He. subst e. exact Hp.
    + apply IH; [exact Hnd|]. intros e He Hin. apply (Hacc e He). now right.
Qed.

Lemma entityAt_Text (content pattern : string) (e : Entity) :
  entityAt content pattern = Some e ->
  Text e = pattern /\ Type_ e = "PRODUCT" /\ Position e = Index content pattern /\
  0 <= Position e.
Proof.
  unfold entityAt. destruct (0 <=? Index content pattern) eqn:H; [|discriminate].
  intros [= <-]. simpl. repeat split. now apply Z.leb_le.
Qed.

(** X13.  [findEntities] lists, in the order of the two vocabularies, every
    product and every generic pattern that occurs in the content, with the
    byte offset of its first occurrence; the test that guards the generic
    patterns never fires.  Every entity is a ["PRODUCT"], and no text is
    listed twice. *)
Theorem findEntities_spec (content : string) :
  findEntities content = omap (entityAt content) (productPatterns ++ genericPatterns)%list /\
  NoDup (Text <$> findEntities content) /\
  forall e, e ∈ findEntities content ->
    Type_ e = "PRODUCT" /\
    Position e = Index content (Text e) /\ 0 <= Position e /\
    exists pre post, content = pre +:+ Text e +:+ post /\
      Z.of_nat (String.length pre) = Position e /\
      forall pre' post', content = pre' +:+ Text e +:+ post' ->
        Position e <= Z.of_nat (String.length pre').
Proof.
  assert (Heq : findEntities content
                = omap (entityAt content) (productPatterns ++ genericPatterns)%list).
  { unfold findEntities. rewrite findEntities_plain. simpl app at 1.
    rewrite findEntities_guarded.
    - now rewrite omap_app.
    - apply (bool_decide_eq_true_1 (NoDup genericPatterns)). vm_compute. reflexivity.
    - intros e (p & Hp & He)%list_elem_of_omap.
      apply entityAt_Text in He as (-> & _).
      assert (Hdisjoint : Forall (fun p => p ∉ genericPatterns) productPatterns).
      { apply (bool_decide_eq_true_1 (Forall _ _)). vm_compute. reflexivity. }
      rewrite Forall_forall in Hdisjoint. now apply Hdisjoint. }
  split; [exact Heq|]. split.
  - rewrite Heq.
    assert (Hsub : forall l, NoDup l -> NoDup (Text <$> omap (entityAt content) l)).
    { induction l as [|p l IH]; intros Hnd; [constructor|].
      apply NoDup_cons in Hnd as [Hp Hnd]. simpl.
      destruct (entityAt content p) as [e|] eqn:He; [|now apply IH].
      simpl. apply NoDup_cons. split; [|now apply IH].
      apply entityAt_Text in He as (-> & _).
      intros (e' & He' & (q & Hq & Hat)%list_elem_of_omap)%list_elem_of_fmap.
      apply entityAt_Text in Hat as (Ht & _). congruence. }
    apply Hsub.
    apply (bool_decide_eq_true_1 (NoDup (productPatterns ++ genericPatterns)%list)).
    vm_compute. reflexivity.
  - intros e He. rewrite Heq in He. apply list_elem_of_omap in He as (p & _ & He).
    apply entityAt_Text in He as (-> & Ht & Hpos & Hge).
    split; [exact Ht|]. split; [exact Hpos|]. split; [exact Hge|].
    rewrite Hpos. apply (proj2 (proj2 (Index_first_occurrence content p))).
    now rewrite <- Hpos.
Qed.

(** *** Intent category *)

Lemma scoreCategories_from (a : Analyzer) (keywords : list string)
    (scores : gmap string float64.t) (category : string) :
  is_Some (foldl (fun categoryScores keyword =>
                    match categoryMap a !! keyword with
                    | Some category => increment category categoryScores
                    | None => categoryScores
                    end) scores keywords !! category) <->
  is_Some (scores !! category) \/
  exists keyword, keyword ∈ keywords /\ categoryMap a !! keyword = Some category.
Proof.
  revert scores; induction keywords as [|k keywords IH]; intros scores; simpl.
  - split; [now left|]. intros [H|(k & Hk & _)]; [exact H|inversion Hk].
  - rewrite IH. destruct (categoryMap a !! k) as [c|] eqn:Hc.
    + unfold increment. rewrite lookup_insert_is_Some'. split.
      * intros [[->|H]|(k' & Hk' & Hc')].
        -- right. exists k. split; [left|exact Hc].
        -- now left.
        -- right. exists k'. split; [now right|exact Hc'].
      * intros [H|(k' & [->|Hk']%elem_of_cons & Hc')].
        -- left. now right.
        -- left. left. congruence.
        -- right. now exists k'.
    + split.
      * intros [H|(k' & Hk' & Hc')]; [now left|]. right. exists k'. split; [now right|exact Hc'].
      * intros [H|(k' & [->|Hk']%elem_of_cons & Hc')]; [now left|congruence|].
        right. now exists k'.
Qed.

Lemma chooseCategory_from (entries : list (string * float64.t)) (top : string * float64.t) :
  let chosen := foldl (fun (top : string * float64.t) (entry : string * float64.t) =>
                         if float64.gtb (snd entry) (snd top) then entry else top)
                      top entries in
  chosen = top \/ chosen ∈ entries.
Proof.
  revert top; induction entries as [|e entries IH]; intros top; simpl; [now left|].
  destruct (float64.gtb (snd e) (snd top)).
  - destruct (IH e) as [H|H]; right; [rewrite H; left|now right].
  - destruct (IH top) as [H|H]; [now left|right; now right].
Qed.

Section with_runtime.
Context {U : GoUnicode}.

(** X14.  The intent category of the local strategy is ["general_complaint"] or
    the category of a keyword it matched; it is ["general_complaint"] when
    no matched keyword has a category. *)
Theorem intent_category_origin (a : Analyzer) (ord : RangeOrder) (review : Review) :
  fairRange ord ->
  let result := fst (analyzeLocal a ord review) in
  (IntentCategory result = "general_complaint" \/
   exists keyword, keyword ∈ Keywords result /\
                   categoryMap a !! keyword = Some (IntentCategory result)) /\
  ((forall keyword, keyword ∈ Keywords result -> categoryMap a !! keyword = None) ->
   IntentCategory result = "general_complaint").
Proof.
  intros [_ Hfair] result.
  assert (Hkw : Keywords result = findKeywords a ord (gostrings.ToLower (Content review))).
  { subst result. unfold analyzeLocal. cbn [fst Keywords]. reflexivity. }
  assert (Hcat : IntentCategory result
                 = chooseCategory ord (scoreCategories a (Keywords result))).
  { rewrite Hkw. subst result. unfold analyzeLocal. cbn [fst IntentCategory].
    reflexivity. }
  set (keywords := Keywords result) in *. clearbody keywords. clear Hkw.
  generalize dependent (IntentCategory result). intros category Hcat. clear result.
  assert (Hor : category = "general_complaint" \/
                is_Some (scoreCategories a keywords !! category)).
  { rewrite Hcat. unfold chooseCategory.
    set (entries := rangeScores ord _).
    destruct (chooseCategory_from entries ("", float64.zero)) as [H|H].
    - rewrite H. now left.
    - cbv zeta in H. set (chosen := foldl _ _ _) in *.
      destruct (String.eqb (fst chosen) ""); [now left|right].
      subst entries. rewrite Hfair in H.
      destruct chosen as [c v]. apply elem_of_map_to_list in H. simpl. now exists v. }
  split.
  - destruct Hor as [H|H]; [now left|]. unfold scoreCategories in H.
    apply scoreCategories_from in H as [[v Hv]|H]; [|now right].
    rewrite lookup_empty in Hv. discriminate.
  - intros Hnone. destruct Hor as [H|H]; [exact H|]. unfold scoreCategories in H.
    apply scoreCategories_from in H as [[v Hv]|(k & Hk & Hc)].
    + rewrite lookup_empty in Hv. discriminate.
    + rewrite (Hnone k Hk) in Hc. discriminate.
Qed.

End with_runtime.

Lemma intent_category_origin_witness :
  IntentCategory (fst (@analyzeLocal asciiText freshAnalyzer listingOrder crashReview))
  = "customer_service" /\
  categoryMap freshAnalyzer !! "support" = Some "customer_service".
Proof.
  destruct (@intent_category_origin asciiText freshAnalyzer listingOrder crashReview
              local_claims.listingOrder_fair) as [_ _].
  split; vm_compute; reflexivity.
Defined.

End local_more.

(** ** The routing engine, continued *)

Module router_more.
Import models router router_facts samples.

Lemma insert_all_lookup {V} (f : string -> V) (keys : list string)
    (m : gmap string V) (k : string) :
  foldl (fun (cache : gmap string V) key => <[key := f key]> cache) m keys !! k
  = if decide (k ∈ keys) then Some (f k) else m !! k.
Proof.
  revert m; induction keys as [|x keys IH]; intros m; cbn [foldl].
  - destruct (decide (k ∈ [])) as [H|H]; [inversion H|reflexivity].
  - rewrite IH. destruct (decide (k ∈ keys)) as [Hin|Hnin].
    + destruct (decide (k ∈ x :: keys)) as [H|H]; [reflexivity|].
      exfalso. apply H. now right.
    + rewrite lookup_insert. destruct (decide (x = k)) as [->|Hne].
      * destruct (decide (k ∈ k :: keys)) as [H|H]; [reflexivity|].
        exfalso. apply H. left.
      * destruct (decide (k ∈ x :: keys)) as [H|H]; [|reflexivity].
        apply elem_of_cons in H as [->|H]; [congruence|contradiction].
Qed.

Lemma AddDepartment_mapping (r : Router) (d : Department.t) (category : string) :
  mappingCache (AddDepartment r d) !! category
  = if decide (category ∈ Department.Categories d) then Some (Department.ID d)
    else mappingCache r !! category.
Proof.
  unfold AddDepartment. cbn [mappingCache].
  apply (insert_all_lookup (fun _ => Department.ID d)).
Qed.

(** On every router a program can hold, a department is registered under
    its own identifier, and ["support"] is registered. *)
Lemma reachable_registered (r : Router) :
  reachable r ->
  (forall k d, departments r !! k = Some d -> Department.ID d = k) /\
  is_Some (departments r !! "support").
Proof.
  induction 1 as [cfg|r d Hr [IH1 IH2]|r c id Hr IH].
  - split; [intros k d H; now apply New_departments in H|].
    vm_compute. eauto.
  - split.
    + intros k d'. cbn [AddDepartment departments]. rewrite lookup_insert.
      case_decide as Hk; [now intros [= <-]|apply IH1].
    + cbn [AddDepartment departments]. rewrite lookup_insert_is_Some'. now right.
  - exact IH.
Qed.

(** X15.  On every router built by [New] and extended by [AddDepartment] and
    [UpdateMapping], the department [Route] returns is a registered one:
    [GetDepartment] finds it again under its identifier, and the hard-coded
    fallback is never needed.  When the direct lookup, the ranked lookup
    and the configured default all fail, it is the department registered
    as ["support"]. *)
Theorem Route_registered_department (r : Router) ranked (analysis : AnalysisResult) :
  reachable r ->
  GetDepartment r (Department.ID (Route r ranked analysis)) = (Route r ranked analysis, true) /\
  (lookupCategory r (IntentCategory analysis) = None ->
   firstMapped r (ranked (map_to_list (CategoryScores analysis))) = None ->
   departments r !! config.DefaultDepartment (config r) = None ->
   departments r !! "support" = Some (Route r ranked analysis) /\
   Department.ID (Route r ranked analysis) = "support").
Proof.
  intros Hr. destruct (reachable_registered r Hr) as [Hid [support Hsup]].
  assert (Hreg : exists k, departments r !! k = Some (Route r ranked analysis)).
  { unfold Route.
    destruct (lookupCategory r (IntentCategory analysis)) as [d|] eqn:H1;
      [now apply lookupCategory_registered in H1|].
    destruct (firstMapped r _) as [d|] eqn:H2; [now apply firstMapped_registered in H2|].
    destruct (departments r !! config.DefaultDepartment (config r)) as [d|] eqn:H3;
      [eauto|].
    rewrite Hsup. eauto. }
  split.
  - destruct Hreg as [k Hk]. unfold GetDepartment.
    rewrite (Hid k _ Hk). now rewrite Hk.
  - intros H1 H2 H3. unfold Route. rewrite H1, H2, H3, Hsup.
    split; [reflexivity|]. now apply Hid.
Qed.

Lemma Route_registered_department_witness :
  Department.ID (Route (AddDepartment (New (routerConfig "")) unnamedDepartment)
                       (fun l => l) (analysis "security" ∅)) = "security".
Proof.
  destruct (Route_registered_department
              (AddDepartment (New (routerConfig "")) unnamedDepartment)
              (fun l => l) (analysis "security" ∅)) as [H _].
  - apply reachable_AddDepartment, reachable_New.
  - vm_compute. reflexivity.
Defined.

(** X16.  After [AddDepartment(d)], [GetDepartment] finds [d] under its
    identifier, every analysis whose intent category is one of [d]'s
    categories is routed to [d], whatever the category was mapped to
    before, and the other departments and the other mappings are as they
    were. *)
Theorem AddDepartment_Route (r : Router) (d : Department.t) ranked
    (analysis : AnalysisResult) :
  IntentCategory analysis ∈ Department.Categories d ->
  Route (AddDepartment r d) ranked analysis = d /\
  GetDepartment (AddDepartment r d) (Department.ID d) = (d, true) /\
  (forall k, k <> Department.ID d ->
     departments (AddDepartment r d) !! k = departments r !! k) /\
  (forall category, category ∉ Department.Categories d ->
     mappingCache (AddDepartment r d) !! category = mappingCache r !! category).
Proof.
  intros Hin.
  assert (Hd : departments (AddDepartment r d) !! Department.ID d = Some d)
    by apply lookup_insert_eq.
  split; [|split; [|split]].
  - unfold Route, lookupCategory. rewrite AddDepartment_mapping.
    rewrite decide_True by exact Hin. now rewrite Hd.
  - unfold GetDepartment. now rewrite Hd.
  - intros k Hk. cbn [AddDepartment departments]. now rewrite lookup_insert_ne.
  - intros category Hc. rewrite AddDepartment_mapping. now rewrite decide_False.
Qed.

Lemma AddDepartment_Route_witness :
  Route (AddDepartment (New (routerConfig "")) escalations) (fun l => l)
        (analysis "security" ∅) = escalations.
Proof.
  apply (AddDepartment_Route (New (routerConfig "")) escalations).
  vm_compute. left.
Defined.

(** X17.  After [UpdateMapping(category, id)], an analysis of that intent
    category is routed to the department registered as [id]; when no
    department is registered as [id], the direct lookup of that category
    finds nothing.  The other categories are looked up as before, and of
    two updates of one category the later one counts. *)
Theorem UpdateMapping_Route (r : Router) (category departmentID : string) ranked
    (analysis : AnalysisResult) :
  IntentCategory analysis = category ->
  (forall dept, departments r !! departmentID = Some dept ->
     Route (UpdateMapping r category departmentID) ranked analysis = dept) /\
  (departments r !! departmentID = None ->
     lookupCategory (UpdateMapping r category departmentID) category = None) /\
  (forall other, other <> category ->
     lookupCategory (UpdateMapping r category departmentID) other = lookupCategory r other) /\
  (forall earlier,
     UpdateMapping (UpdateMapping r category earlier) category departmentID
     = UpdateMapping r category departmentID).
Proof.
  intros Hc. split; [|split; [|split]].
  - intros dept Hd. unfold Route, lookupCategory. rewrite Hc.
    cbn [UpdateMapping mappingCache departments].
    now rewrite lookup_insert_eq, Hd.
  - intros Hd. unfold lookupCategory. cbn [UpdateMapping mappingCache departments].
    now rewrite lookup_insert_eq.
  - intros other Ho. unfold lookupCategory. cbn [UpdateMapping mappingCache departments].
    now rewrite lookup_insert_ne.
  - intros earlier. unfold UpdateMapping. cbn [mappingCache departments config].
    now rewrite insert_insert_eq.
Qed.

Lemma UpdateMapping_Route_witness :
  Department.ID (Route (UpdateMapping (New (routerConfig "")) "bug_report" "engineering")
                       (fun l => l) (analysis "bug_report" ∅)) = "engineering".
Proof.
  destruct (UpdateMapping_Route (New (routerConfig "")) "bug_report" "engineering"
              (fun l => l) (analysis "bug_report" ∅) eq_refl) as [H _].
  rewrite (H (department "engineering" "Infoblox Engineering" "engineering@infoblox.com"
                ["product_issue"; "performance"; "upgrade_issue"])); [reflexivity|].
  vm_compute. reflexivity.
Defined.

Lemma mappings_lookup (mappings : list config.DepartmentMapping)
    (m : gmap string string) (category : string) :
  foldl (fun (cache : gmap string string) x =>
           <[config.Category x := config.Department x]> cache) m mappings !! category
  = match last (filter (fun x => config.Category x = category) mappings) with
    | Some x => Some (config.Department x)
    | None => m !! category
    end.
Proof.
  revert m; induction mappings as [|x mappings IH] using rev_ind; intros m; [reflexivity|].
  rewrite foldl_app, filter_app. cbn [foldl].
  destruct (decide (config.Category x = category)) as [Hx|Hx].
  - rewrite filter_cons_True by exact Hx. rewrite filter_nil, last_snoc.
    rewrite <- Hx. apply lookup_insert_eq.
  - rewrite filter_cons_False by exact Hx. rewrite filter_nil, app_nil_r.
    rewrite lookup_insert_ne by exact Hx. apply IH.
Qed.

(** X18.  The mapping table [New] builds maps a category to the department of
    the last mapping given for it (the configured mappings, or the defaults
    when none is configured) and has no other entry; the priorities of the
    mappings play no part. *)
Theorem New_mappingCache (cfg : config.RouterConfig) (category : string) :
  mappingCache (New cfg) !! category
    = config.Department <$>
        last (filter (fun x => config.Category x = category) (effectiveMappings cfg)) /\
  forall cfg',
    (fun x => (config.Category x, config.Department x)) <$> effectiveMappings cfg'
    = (fun x => (config.Category x, config.Department x)) <$> effectiveMappings cfg ->
    mappingCache (New cfg') = mappingCache (New cfg).
Proof.
  assert (Hlookup : forall c k, mappingCache (New c) !! k
            = config.Department <$>
                last (filter (fun x => config.Category x = k) (effectiveMappings c))).
  { intros c k. unfold New, effectiveMappings. cbn [mappingCache].
    destruct (length (config.Mappings c) =? 0)%nat; cbn [config.Mappings];
      rewrite mappings_lookup, lookup_empty;
      now destruct (last _). }
  split; [apply Hlookup|].
  intros cfg' Hsame. apply map_eq. intros k. rewrite !Hlookup.
  revert Hsame. generalize (effectiveMappings cfg'), (effectiveMappings cfg).
  intros l'; induction l' as [|x' l' IH] using rev_ind; intros l Hsame.
  - destruct l; [reflexivity|discriminate].
  - destruct l as [|x l _] using rev_ind.
    { rewrite fmap_app in Hsame. apply (f_equal length) in Hsame.
      rewrite length_app in Hsame. simpl in Hsame. lia. }
    rewrite !fmap_app in Hsame. apply app_inj_tail in Hsame as [Hsame [= Hc Hd]].
    rewrite !filter_app.
    destruct (decide (config.Category x = k)) as [Hx|Hx].
    + rewrite (filter_cons_True _ x) by exact Hx.
      rewrite (filter_cons_True _ x') by congruence.
      rewrite !filter_nil, !last_snoc. simpl. congruence.
    + rewrite (filter_cons_False _ x) by exact Hx.
      rewrite (filter_cons_False _ x') by congruence.
      rewrite !filter_nil, !app_nil_r. now apply IH.
Qed.

(** X19.  When the direct lookup fails and some category of the score map is
    mapped to a registered department, [Route] returns the department of
    one of the scored categories, for every ranking that keeps the entries
    of the map. *)
Theorem Route_by_scores (r : Router) ranked (analysis : AnalysisResult) :
  (forall l, ranked l ≡ₚ l) ->
  lookupCategory r (IntentCategory analysis) = None ->
  (exists category, is_Some (CategoryScores analysis !! category) /\
                    is_Some (lookupCategory r category)) ->
  exists category, is_Some (CategoryScores analysis !! category) /\
                   lookupCategory r category = Some (Route r ranked analysis).
Proof.
  intros Hperm Hdirect (c & [v Hv] & [d Hd]).
  unfold Route. rewrite Hdirect.
  set (scores := ranked _).
  assert (Hin : (c, v) ∈ scores).
  { subst scores. rewrite Hperm. now apply elem_of_map_to_list. }
  assert (Hall : forall cs, cs ∈ scores -> is_Some (CategoryScores analysis !! fst cs)).
  { intros [c' v'] H. subst scores. rewrite Hperm in H.
    apply elem_of_map_to_list in H. simpl. eauto. }
  clearbody scores. induction scores as [|cs scores IH]; [inversion Hin|].
  simpl. destruct (lookupCategory r (fst cs)) as [d'|] eqn:Hcs.
  - exists (fst cs). split; [apply Hall; left|exact Hcs].
  - apply IH.
    + apply elem_of_cons in Hin as [Heq|Hin]; [|exact Hin].
      subst cs. simpl in Hcs. congruence.
    + intros cs' H. apply Hall. now right.
Qed.

Lemma Route_by_scores_witness :
  Department.ID (Route (New (routerConfig "")) (fun l => l)
                       (analysis "bug_report" {[ "performance" := float64.c1_0 ]}))
  = "engineering".
Proof.
  destruct (Route_by_scores (New (routerConfig "")) (fun l => l)
              (analysis "bug_report" {[ "performance" := float64.c1_0 ]}))
    as (c & _ & _).
  - reflexivity.
  - vm_compute. reflexivity.
  - exists "performance". split; vm_compute; eauto.
  - vm_compute. reflexivity.
Defined.

End router_more.

(** ** The pipeline *)

Module pipeline_facts.
Import models analyzer analyzer_facts analyzer_more pipeline samples.

Section with_runtime.
Context {U : GoUnicode}.

Lemma processReview_after (w : World) (r : router.Router) (i : nat)
    (a : Analyzer) (review : Review) :
  fst (processReview w r i a review) = after (Analyze a (envAt w i) review).
Proof.
  unfold processReview. destruct (snd (returned _)); [reflexivity|].
  now destruct (negb _ || negb _).
Qed.

Lemma processReviews_cons (w : World) (r : router.Router) (i : nat)
    (a : Analyzer) (review : Review) (rest : list Review) :
  processReviews w r i a (review :: rest) =
  (fst (processReviews w r (S i) (fst (processReview w r i a review)) rest),
   (snd (processReview w r i a review) ++
    snd (processReviews w r (S i) (fst (processReview w r i a review)) rest))%list).
Proof.
  cbn [processReviews]. destruct (processReview w r i a review) as [a1 first].
  cbn [fst snd]. now destruct (processReviews w r (S i) a1 rest).
Qed.

Lemma processReviews_reachable (cfg : config.AnalyzerConfig) (w : World)
    (r : router.Router) (reviews : list Review) (i : nat) (a : Analyzer) :
  reachable cfg a -> reachable cfg (fst (processReviews w r i a reviews)).
Proof.
  revert i a; induction reviews as [|review rest IH]; intros i a Hr; [exact Hr|].
  rewrite processReviews_cons. cbn [fst]. apply IH.
  rewrite processReview_after. now constructor.
Qed.

Lemma processReviews_stays (w : World) (r : router.Router) (reviews : list Review)
    (i : nat) (a : Analyzer) (k : string) :
  is_Some (cache a !! k) -> is_Some (cache (fst (processReviews w r i a reviews)) !! k).
Proof.
  revert i a; induction reviews as [|review rest IH]; intros i a Hk; [exact Hk|].
  rewrite processReviews_cons. cbn [fst]. apply IH.
  rewrite processReview_after. now apply Analyze_stays.
Qed.

(** What holds of a call of [Notify] made for the review at hand. *)
Lemma processReview_notified (cfg : config.AnalyzerConfig) (w : World)
    (r : router.Router) (i : nat) (a : Analyzer) (review : Review) (n : Notified) :
  reachable cfg a ->
  n ∈ snd (processReview w r i a review) ->
  aboutReview n = review /\
  IsNegative (withAnalysis n) = true /\ IsRelevant (withAnalysis n) = true /\
  flagsAgree cfg (withAnalysis n) /\
  toDepartment n = router.Route r (rankingAt w i) (withAnalysis n) /\
  cache (fst (processReview w r i a review)) !! cacheKey review = Some (withAnalysis n).
Proof.
  intros Hr Hn. rewrite processReview_after. unfold processReview in Hn.
  destruct (returned (Analyze a (envAt w i) review)) as [res err] eqn:Hret.
  cbn [fst snd] in Hn. destruct err as [e|]; [inversion Hn|].
  destruct (IsNegative res) eqn:Hneg, (IsRelevant res) eqn:Hrel;
    cbn [negb orb snd] in Hn; try (inversion Hn; fail).
  apply list_elem_of_singleton in Hn. subst n. cbn.
  pose proof (Analyze_flagsAgree cfg a (envAt w i) review res Hr Hret) as Hflags.
  repeat split; try assumption; try apply Hflags.
  now apply Analyze_returned_cached.
Qed.

End with_runtime.

End pipeline_facts.

Module pipeline_claims.
Import models analyzer analyzer_facts analyzer_more pipeline pipeline_facts samples.

Section with_runtime.
Context {U : GoUnicode}.

(** X20.  Every call of [Notify] the pipeline makes is for a scraped
    review, in the order of the scraped reviews and at most once for each,
    with a result that is flagged negative and relevant (its score is at
    most the negative threshold and its confidence at least the relevance
    threshold); the department is the one [Route] gives for that result in
    the iteration of that review; and the cache holds an entry for the
    review's content when the run ends. *)
Theorem runPipeline_notifications (cfg : config.AnalyzerConfig) (w : World)
    (r : router.Router) (a : Analyzer) (scraped : list Review * option error) :
  reachable cfg a ->
  let a' := fst (runPipeline w r a scraped) in
  let sent := snd (runPipeline w r a scraped) in
  reachable cfg a' /\
  (aboutReview <$> sent) `sublist_of` fst scraped /\
  forall n, n ∈ sent ->
    IsNegative (withAnalysis n) = true /\ IsRelevant (withAnalysis n) = true /\
    float64.leb (SentimentScore (withAnalysis n)) (config.NegativeThreshold cfg) = true /\
    float64.geb (Confidence (withAnalysis n)) (config.RelevanceThreshold cfg) = true /\
    (exists i, fst scraped !! i = Some (aboutReview n) /\
               toDepartment n = router.Route r (rankingAt w i) (withAnalysis n)) /\
    is_Some (cache a' !! cacheKey (aboutReview n)).
Proof.
  intros Hr. unfold runPipeline. destruct scraped as [reviews [e|]]; cbn [fst snd].
  { split; [exact Hr|]. split; [apply sublist_nil_l|]. intros n Hn. inversion Hn. }
  enough (Hgen : forall i,
            reachable cfg (fst (processReviews w r i a reviews)) /\
            (aboutReview <$> snd (processReviews w r i a reviews)) `sublist_of` reviews /\
            forall n, n ∈ snd (processReviews w r i a reviews) ->
              IsNegative (withAnalysis n) = true /\ IsRelevant (withAnalysis n) = true /\
              float64.leb (SentimentScore (withAnalysis n)) (config.NegativeThreshold cfg)
                = true /\
              float64.geb (Confidence (withAnalysis n)) (config.RelevanceThreshold cfg)
                = true /\
              (exists j, reviews !! j = Some (aboutReview n) /\
                 toDepartment n = router.Route r (rankingAt w (i + j)) (withAnalysis n)) /\
              is_Some (cache (fst (processReviews w r i a reviews))
                         !! cacheKey (aboutReview n))).
  { exact (Hgen O). }
  revert a Hr.
  induction reviews as [|review rest IH]; intros a Hr i.
  { split; [exact Hr|]. split; [constructor|]. intros n Hn. inversion Hn. }
  rewrite processReviews_cons. cbn [fst snd].
  assert (Hr1 : reachable cfg (fst (processReview w r i a review))).
  { rewrite processReview_after. now constructor. }
  destruct (IH _ Hr1 (S i)) as (IH1 & IH2 & IH3).
  split; [exact IH1|]. split.
  - rewrite fmap_app.
    assert (Hfirst : (aboutReview <$> snd (processReview w r i a review)) `sublist_of` [review]).
    { unfold processReview. destruct (snd (returned _)); [apply sublist_nil_l|].
      destruct (negb _ || negb _); [apply sublist_nil_l|]. reflexivity. }
    change (review :: rest) with ([review] ++ rest)%list. now apply sublist_app.
  - intros n [Hn|Hn]%elem_of_app.
    + destruct (processReview_notified cfg w r i a review n Hr Hn)
        as (Hrev & Hneg & Hrel & [Hf1 Hf2] & Hdept & Hcache).
      split; [exact Hneg|]. split; [exact Hrel|].
      split; [now rewrite <- Hf1|]. split; [now rewrite <- Hf2|]. split.
      * exists O. rewrite Nat.add_0_r. split; [now rewrite Hrev|exact Hdept].
      * rewrite Hrev. apply processReviews_stays. now rewrite Hcache.
    + destruct (IH3 n Hn) as (Hneg & Hrel & Hf1 & Hf2 & (j & Hj & Hdept) & Hcache).
      repeat (split; [assumption|]). split; [|exact Hcache].
      exists (S j). split; [exact Hj|]. now rewrite Nat.add_succ_r.
Qed.

(** When [ScrapeAll] returned an error the run ends there: no review is
    analysed, the analyzer is as it was, and nobody is notified. *)
Theorem runPipeline_scrape_failed (w : World) (r : router.Router) (a : Analyzer)
    (scraped : list Review * option error) (e : error) :
  snd scraped = Some e -> runPipeline w r a scraped = (a, []).
Proof. intros H. unfold runPipeline. now rewrite H. Qed.

(** X21.  The loop treats the reviews one after the other: running it on
    [l1 ++ l2] is running it on [l1], then on [l2] from the analyzer that
    leaves.  A review whose analysis fails changes nothing: the loop goes
    on with the next review as if the failed one had not been there. *)
Theorem processReviews_app (w : World) (r : router.Router) (i : nat) (a : Analyzer)
    (l1 l2 : list Review) :
  processReviews w r i a (l1 ++ l2) =
    (fst (processReviews w r (i + length l1) (fst (processReviews w r i a l1)) l2),
     (snd (processReviews w r i a l1) ++
      snd (processReviews w r (i + length l1) (fst (processReviews w r i a l1)) l2))%list) /\
  forall bad, snd (returned (Analyze a (envAt w i) bad)) <> None ->
    processReviews w r i a (bad :: l2) = processReviews w r (S i) a l2.
Proof.
  split.
  - revert i a; induction l1 as [|review l1 IH]; intros i a.
    + cbn [app length processReviews fst snd]. rewrite Nat.add_0_r.
      now destruct (processReviews w r i a l2).
    + cbn [app]. rewrite !processReviews_cons, IH. cbn [fst snd length].
      rewrite Nat.add_succ_r. now rewrite app_assoc.
  - intros bad Hbad. cbn [processReviews]. unfold processReview.
    destruct (Analyze_cases a (envAt w i) bad)
      as [(r' & _ & Heq)|[(raw & e & _ & _ & Heq)|(raw & _ & _ & Heq)]];
      rewrite Heq in Hbad |- *; cbn in Hbad |- *; try congruence.
    now destruct (processReviews w r (S i) a l2).
Qed.

(** X22.  With a configuration that cannot classify (mode [google], [aws] or
    [azure], or [openai] without a key) a run notifies nobody, whatever
    was scraped. *)
Theorem runPipeline_unavailable (cfg : config.AnalyzerConfig) (w : World)
    (r : router.Router) (a : Analyzer) (scraped : list Review * option error)
    (msg : string) :
  reachable cfg a -> unavailable cfg msg ->
  runPipeline w r a scraped = (a, []).
Proof.
  intros Hr Hu. unfold runPipeline. destruct scraped as [reviews [e|]]; cbn [fst snd];
    [reflexivity|].
  generalize O. induction reviews as [|review rest IH]; intros i; [reflexivity|].
  cbn [processReviews]. unfold processReview.
  rewrite (unavailable_Analyze cfg a (envAt w i) review msg Hr Hu).
  cbn. now rewrite IH.
Qed.

End with_runtime.

Lemma runPipeline_notifications_witness :
  aboutReview <$> snd (@runPipeline asciiText quietWorld (router.New (routerConfig ""))
                         freshAnalyzer ([titledReview; crashReview], None))
  = [titledReview; crashReview].
Proof.
  destruct (@runPipeline_notifications asciiText (analyzerConfig "local") quietWorld
              (router.New (routerConfig "")) freshAnalyzer
              ([titledReview; crashReview], None)) as (_ & _ & _).
  - apply (@reachable_New asciiText).
  - vm_compute. reflexivity.
Defined.

Lemma runPipeline_scrape_failed_witness :
  @runPipeline asciiText quietWorld (router.New (routerConfig "")) freshAnalyzer
    ([crashReview], Some (errorString "rate limited")) = (freshAnalyzer, []).
Proof. now apply (@runPipeline_scrape_failed asciiText) with (errorString "rate limited"). Defined.

Lemma runPipeline_unavailable_witness :
  snd (@runPipeline asciiText quietWorld (router.New (routerConfig ""))
         (@New asciiText (analyzerConfig "azure")) ([crashReview], None)) = [].
Proof.
  rewrite (@runPipeline_unavailable asciiText (analyzerConfig "azure") quietWorld
             (router.New (routerConfig "")) (@New asciiText (analyzerConfig "azure"))
             ([crashReview], None) "Azure Text Analytics analysis not implemented").
  - reflexivity.
  - apply (@reachable_New asciiText).
  - right. right. left. split; reflexivity.
Defined.

Lemma processReviews_app_witness :
  @processReviews asciiText quietWorld (router.New (routerConfig "")) 0
    (@New asciiText (analyzerConfig "azure")) [crashReview; titledReview]
  = @processReviews asciiText quietWorld (router.New (routerConfig "")) 1
      (@New asciiText (analyzerConfig "azure")) [titledReview].
Proof.
  apply (proj2 (@processReviews_app asciiText quietWorld (router.New (routerConfig "")) 0
                  (@New asciiText (analyzerConfig "azure")) [] [titledReview])).
  vm_compute. discriminate.
Defined.



End pipeline_claims.

(** ** Statistics, and the G2 client *)

Module stats_claims.
Import models analyzer analyzer_facts samples.


Section with_runtime.
Context {U : GoUnicode}.




End with_runtime.


End stats_claims.

Module g2_claims.
Import g2.

Lemma transformFrom_lookup (scanID : string -> Z) (reviews : list ResponseReview)
    (i : Z) (k : nat) (r : ResponseReview) :
  reviews !! k = Some r ->
  exists review, transformFrom scanID i reviews !! k = Some review /\
    ID review = i + Z.of_nat k + 1 /\
    ReviewID review = scanID (Response_ID r) /\
    Platform review = "G2" /\
    PostContent review = Response_Content r /\
    Title review = Response_Title r /\
    Author review = Response_ReviewerName r /\
    Rating review = Response_Rating r.
Proof.
  revert i k; induction reviews as [|x reviews IH]; intros i k; [discriminate|].
  destruct k as [|k]; simpl.
  - intros [= ->]. eexists. split; [reflexivity|]. simpl. repeat split. lia.
  - intros Hk. destruct (IH (i + 1) k Hk) as (review & Hl & Hid & Hrest).
    exists review. split; [exact Hl|]. split; [lia|exact Hrest].
Qed.

(** X25.  [FetchReviews] returns one review per review of the response, in the
    same order, numbered [1, 2, ...] by position whatever identifier G2
    gave it, labelled with platform ["G2"], with the response's content,
    title, author and rating. *)
Theorem transform_spec (scanID : string -> Z) (reviews : list ResponseReview) :
  length (transform scanID reviews) = length reviews /\
  forall k r, reviews !! k = Some r ->
    exists review, transform scanID reviews !! k = Some review /\
      ID review = Z.of_nat k + 1 /\
      ReviewID review = scanID (Response_ID r) /\
      Platform review = "G2" /\
      PostContent review = Response_Content r /\
      Title review = Response_Title r /\
      Author review = Response_ReviewerName r /\
      Rating review = Response_Rating r.
Proof.
  split.
  - unfold transform. generalize 0. induction reviews as [|x reviews IH]; intros i;
      simpl; [reflexivity|]. now rewrite IH.
  - intros k r Hk. destruct (transformFrom_lookup scanID reviews 0 k r Hk)
      as (review & Hl & Hid & Hrest).
    exists review. split; [exact Hl|]. split; [lia|exact Hrest].
Qed.

End g2_claims.

(** ** The notifier *)

Module notifier_facts.
Import models notifier.

Lemma Notify_after (n : Notifier) (out : Outside) (department : Department.t)
    (review : Review) (analysis : AnalysisResult) :
  after (Notify n out department review analysis)
  = cacheNotification n (notificationOf out department review analysis).
Proof.
  unfold Notify. fold (notificationOf out department review analysis).
  repeat match goal with
         | |- context [if ?b then _ else _] => destruct b
         | |- context [let '(_, _) := ?p in _] => destruct p
         | |- context [match ?o with Some _ => _ | None => _ end] => destruct o
         end; reflexivity.
Qed.

(** The call, channel by channel. *)
Lemma Notify_eq (n : Notifier) (out : Outside) (department : Department.t)
    (review : Review) (analysis : AnalysisResult) :
  let notification := notificationOf out department review analysis in
  let n1 := cacheNotification n notification in
  let email := channel (config.Email_Enabled (config.Email (config n)))
                       (sendEmailNotification n1 out notification) in
  let slack := channel (config.Slack_Enabled (config.Slack (config n)))
                       (sendSlackNotification n1 out notification) in
  Notify n out department review analysis =
    {| returned :=
         match (channelMessage "email" (fst email)
                ++ channelMessage "slack" (fst slack))%list with
         | [] => None
         | msgs => Some (errorString ("notification errors: "
                                      +:+ gostrings.Join msgs "; "))
         end;
       outgoing :=
         (snd email ++ snd slack ++
          if config.Dashboard_Enabled (config n) then [Dashboard (uuid out)] else [])%list;
       after := n1 |}.
Proof.
  intros notification n1 email slack. subst email slack. unfold Notify, channel.
  fold (notificationOf out department review analysis). fold notification. fold n1.
  change (config n1) with (config n).
  destruct (config.Email_Enabled (config.Email (config n)));
    [destruct (sendEmailNotification n1 out notification) as [[e1|] h1]|];
    (destruct (config.Slack_Enabled (config.Slack (config n)));
       [destruct (sendSlackNotification n1 out notification) as [[e2|] h2]|]);
    destruct (config.Dashboard_Enabled (config n));
    cbn [fst snd app length Nat.ltb Nat.leb channelMessage fmap list_fmap goerrors.Error];
    rewrite ?app_nil_r, <- ?app_assoc; reflexivity.
Qed.

Lemma NotifyEach_invariant (calls : list Request) (n : Notifier) :
  config (NotifyEach n calls) = config n /\
  dbConnected (NotifyEach n calls) = dbConnected n.
Proof.
  revert n; induction calls as [|c calls IH]; intros n; [now split|].
  change (NotifyEach n (c :: calls))
    with (NotifyEach (after (Notify n (meets c) (toDepartment c) (aboutReview c)
                               (withAnalysis c))) calls).
  destruct (IH (after (Notify n (meets c) (toDepartment c) (aboutReview c)
                         (withAnalysis c)))) as [-> ->].
  now rewrite Notify_after.
Qed.

Lemma mailable_New (cfg : config.RouterConfig) : mailable (router.New cfg).
Proof.
  intros k d [Hin _]%router_facts.New_departments.
  unfold router.defaultDepartments in Hin.
  repeat (apply elem_of_cons in Hin as [->|Hin]; [vm_compute; reflexivity|]).
  inversion Hin.
Qed.

Lemma mailable_UpdateMapping (r : router.Router) (category departmentID : string) :
  mailable r -> mailable (router.UpdateMapping r category departmentID).
Proof. intros Hr k d. apply Hr. Qed.

Lemma mailable_AddDepartment (r : router.Router) (d : Department.t) :
  mailable r -> gostrings.Contains (Department.ContactInfo d) "@" = true ->
  mailable (router.AddDepartment r d).
Proof.
  intros Hr Hd k d'. cbn [router.AddDepartment router.departments].
  rewrite lookup_insert. case_decide; [now intros [= <-]|apply Hr].
Qed.

Lemma mailable_Route (r : router.Router) ranked (analysis : AnalysisResult) :
  mailable r ->
  gostrings.Contains (Department.ContactInfo (router.Route r ranked analysis)) "@" = true.
Proof.
  intros Hr. destruct (router_facts.Route_registered r ranked analysis) as [->|[k Hk]].
  - vm_compute. reflexivity.
  - exact (Hr k _ Hk).
Qed.

End notifier_facts.

Module notifier_claims.
Import models notifier notifier_facts samples.

(** X26.  [Notify] tries every enabled channel, whatever the channels before it
    returned: it hands to the outside what the e-mail channel hands, then
    what the Slack channel hands, then the dashboard update.  It returns
    nil exactly when no enabled channel returned an error; otherwise the
    message of its error is ["notification errors: "] followed by the
    messages of the failed channels joined by ["; "], and the error wraps
    nothing: the causes cannot be reached from it.  The notification is
    cached under its identifier in every case. *)
Theorem Notify_channels (n : Notifier) (out : Outside) (department : Department.t)
    (review : Review) (analysis : AnalysisResult) :
  let notification := notificationOf out department review analysis in
  let n1 := cacheNotification n notification in
  let email := channel (config.Email_Enabled (config.Email (config n)))
                       (sendEmailNotification n1 out notification) in
  let slack := channel (config.Slack_Enabled (config.Slack (config n)))
                       (sendSlackNotification n1 out notification) in
  let call := Notify n out department review analysis in
  (returned call = None <-> fst email = None /\ fst slack = None) /\
  (forall e, returned call = Some e ->
     goerrors.Unwrap e = None /\
     goerrors.Error e =
       "notification errors: "
       +:+ gostrings.Join (channelMessage "email" (fst email)
                           ++ channelMessage "slack" (fst slack))%list "; ") /\
  outgoing call =
    (snd email ++ snd slack ++
     if config.Dashboard_Enabled (config n) then [Dashboard (uuid out)] else [])%list /\
  notifCache (after call) !! uuid out = Some notification.
Proof.
  intros notification n1 email slack call.
  subst call. rewrite Notify_eq.
  fold notification; fold n1; fold email; fold slack. cbn [returned outgoing after].
  split; [|split; [|split; [reflexivity|apply lookup_insert_eq]]].
  - destruct (fst email) as [e1|], (fst slack) as [e2|]; cbn [channelMessage app];
      (split; [intros H|intros [H1 H2]]); try discriminate; auto.
  - intros e.
    destruct (fst email) as [e1|], (fst slack) as [e2|]; cbn [channelMessage app];
      intros [= <-]; split; reflexivity.
Qed.

(** X27.  A department [Route] returns from a router whose departments all have
    an address (the routers built by [router.New] are such) is reached by
    mail: with the SMTP server configured and no address configured for
    the department, the mail goes to the department's [ContactInfo], and
    the call fails only when [smtp.SendMail] does.  An address configured
    for the department replaces [ContactInfo]; when it holds no ["@"] the
    call fails and nothing is sent. *)
Theorem sendEmailNotification_routed (n : Notifier) (out : Outside) (r : router.Router)
    ranked (notification : Notification) :
  mailable r ->
  Notification_Department notification
    = router.Route r ranked (Notification_Analysis notification) ->
  config.SMTPServer (config.Email (config n)) <> "" ->
  config.SMTPPort (config.Email (config n)) <> 0 ->
  let d := Notification_Department notification in
  (config.DeptAddresses (config.Email (config n)) !! Department.ID d = None ->
     snd (sendEmailNotification n out notification) = [Mail (Department.ContactInfo d)] /\
     (fst (sendEmailNotification n out notification) = None <->
      SendMail out (Department.ContactInfo d) = None) /\
     (forall err, SendMail out (Department.ContactInfo d) = Some err ->
        fst (sendEmailNotification n out notification)
        = Some (wrapError ("failed to send email: " +:+ goerrors.Error err) err))) /\
  (forall toEmail, config.DeptAddresses (config.Email (config n)) !! Department.ID d = Some toEmail ->
     gostrings.Contains toEmail "@" = false ->
     sendEmailNotification n out notification
     = (Some (errorString ("invalid email address for department: " +:+ Department.ID d)),
        [])).
Proof.
  intros Hr Hd Hserver Hport d.
  assert (Hconf : (config.SMTPServer (config.Email (config n)) =? "")%string
                  || (config.SMTPPort (config.Email (config n)) =? 0) = false).
  { apply orb_false_iff. split; [now apply String.eqb_neq|now apply Z.eqb_neq]. }
  assert (Hat : gostrings.Contains (Department.ContactInfo d) "@" = true).
  { subst d. rewrite Hd. now apply mailable_Route. }
  unfold sendEmailNotification. rewrite Hconf. fold d. split.
  - intros ->. rewrite Hat. cbn [negb].
    destruct (SendMail out (Department.ContactInfo d)) as [err|]; cbn [fst snd].
    + split; [reflexivity|]. split; [split; discriminate|]. now intros ? [= <-].
    + split; [reflexivity|]. split; [tauto|]. discriminate.
  - intros toEmail -> ->. reflexivity.
Qed.

Lemma sendEmailNotification_routed_witness :
  sendEmailNotification (New mailConfig) (delivering "n-1")
    (notificationOf (delivering "n-1")
       (router.Route (router.New (routerConfig "")) (fun l => l) (analysis "security" ∅))
       crashReview (analysis "security" ∅))
  = (None, [Mail "security@infoblox.com"]).
Proof.
  destruct (sendEmailNotification_routed (New mailConfig) (delivering "n-1")
              (router.New (routerConfig "")) (fun l => l)
              (notificationOf (delivering "n-1")
                 (router.Route (router.New (routerConfig "")) (fun l => l)
                               (analysis "security" ∅))
                 crashReview (analysis "security" ∅))) as [H _].
  - apply mailable_New.
  - reflexivity.
  - discriminate.
  - discriminate.
  - destruct (H eq_refl) as (Hsent & Hok & _).
    apply injective_projections; [now apply Hok|exact Hsent].
Defined.

(** X28.  Every call of [Notify] stores its notification, whether or not a
    channel delivered it: after calls whose identifiers are new and
    pairwise different, [GetStats] counts one more notification per call.
    The other statistics never change; the database is never connected,
    also when the configuration enables it. *)
Theorem GetStats_notifications (cfg : config.NotifierConfig) (n : Notifier) (calls : list Request) :
  NoDup (uuid ∘ meets <$> calls) ->
  (forall c, c ∈ calls -> notifCache n !! uuid (meets c) = None) ->
  notifications_cached (GetStats (NotifyEach n calls))
    = notifications_cached (GetStats n) + Z.of_nat (length calls) /\
  config (NotifyEach n calls) = config n /\
  database_connected (GetStats (NotifyEach (New cfg) calls)) = false.
Proof.
  intros Hnd Hnew. split; [|split].
  - revert n Hnd Hnew; induction calls as [|c calls IH]; intros n Hnd Hnew.
    + cbn. lia.
    + cbn [NotifyEach foldl].
      fold (NotifyEach (after (Notify n (meets c) (toDepartment c) (aboutReview c) (withAnalysis c)))
                       calls).
      rewrite fmap_cons in Hnd. apply NoDup_cons in Hnd as [Hc Hnd].
      rewrite IH; [|exact Hnd|].
      * rewrite Notify_after. cbn [GetStats notifications_cached cacheNotification notifCache
                                   notificationOf Notification_ID].
        rewrite map_size_insert_None by (apply Hnew; now left).
        cbn [length]. lia.
      * intros c' Hc'. rewrite Notify_after.
        cbn [cacheNotification notifCache notificationOf Notification_ID].
        rewrite lookup_insert_ne; [apply Hnew; now right|].
        intros Heq. apply Hc. rewrite list_elem_of_fmap. exists c'. now split.
  - apply NotifyEach_invariant.
  - cbn [GetStats database_connected].
    rewrite (proj2 (NotifyEach_invariant calls (New cfg))).
    unfold New. now destruct (config.Databases_Enabled cfg).
Qed.

Lemma GetStats_notifications_witness :
  notifications_cached
    (GetStats (NotifyEach (New mailConfig) [securityRequest "n-1"; securityRequest "n-2"]))
  = 2.
Proof.
  destruct (GetStats_notifications mailConfig (New mailConfig)
              [securityRequest "n-1"; securityRequest "n-2"]) as (H & _).
  - apply (bool_decide_eq_true_1 (NoDup _)). vm_compute. reflexivity.
  - intros c _. reflexivity.
  - rewrite H. reflexivity.
Defined.

End notifier_claims.
